(** * cyfxuvcinmem: UVC streaming from internal memory on FX3

    A shallow embedding of the streaming engine of [cyfxuvcinmem.c]: the
    ISO MULT adapter [CyFxUvcAppSetMultByEpm], the DMA consume callback
    [CyFxUVCAppDmaCallback], the header stamper [CyFxUVCAddHeader] and the
    producer thread [UVCAppThread_Entry] with the initialisation at its
    entry, and the USB event and setup callbacks that start and stop the
    stream.

    C integers are modelled as [Z] with the wrap-around of their width
    written out ([u8], [u16], [u32]); byte arrays are [list Z]; the
    memory-mapped registers are a function from addresses to words. *)

From stdpp Require Import base numbers list.
From Stdlib Require Import ZArith Lia Bool List.
Import ListNotations.

Local Open Scope Z_scope.

(** ** Fixed-width integers *)

Definition u8 (z : Z) : Z := z mod 2 ^ 8.
Definition u16 (z : Z) : Z := z mod 2 ^ 16.
Definition u32 (z : Z) : Z := z mod 2 ^ 32.

(** ** Register definitions (cyfxuvcinmem.c, lines 72-85) *)

(* Definitions for the DEV_EPI_CS register on FX3. *)
Definition FX3_USB2_INEP_CFG_ADDR_BASE : Z := 0xe0031418.
Definition FX3_USB2_INEP_MULT_MASK : Z := 0x00003000.
Definition FX3_USB2_INEP_MULT_POS : Z := 12.

(* Definitions for the EEPM_ENDPOINT register on FX3. *)
Definition FX3_USB2_INEP_EPM_ADDR_BASE : Z := 0xe0031c40.
Definition FX3_USB2_INEP_EPM_READY_MASK : Z := 0x40000000.
Definition FX3_USB2_INEP_EPM_DSIZE_MASK : Z := 0x07FFF800.
Definition FX3_USB2_INEP_EPM_DSIZE_POS : Z := 11.

Definition CY_U3P_SUCCESS : Z := 0.

(** The two helper macros of the SDK's cyu3utils.h, as conditional
    expressions. *)
Definition CY_U3P_MIN (a b : Z) : Z := if b <? a then b else a.
Definition CY_U3P_MAX (a b : Z) : Z := if b <? a then a else b.

(** ** Global state

    [mmio] is the register file seen through [uvint32_t] pointers;
    [CurrentMultVal] and [glUVCHeader] are the file's globals. The header
    array is declared with [CY_FX_UVC_MAX_HEADER] elements and initialised
    with twelve, so index 1 always exists. *)

Record Globals : Type := mkGlobals {
  mmio : Z -> Z;
  CurrentMultVal : Z;
  glUVCHeader : list Z
}.

Definition reg_write (m : Z -> Z) (addr val : Z) : Z -> Z :=
  fun a => if a =? addr then val else m a.

Definition cfg_addr (ep : Z) : Z := u32 (FX3_USB2_INEP_CFG_ADDR_BASE + 4 * ep).
Definition epm_addr (ep : Z) : Z := u32 (FX3_USB2_INEP_EPM_ADDR_BASE + 4 * ep).

(** ** The MULT adapter (lines 124-147) *)

(** The value of [multVal] before the clamp, from the EEPM_ENDPOINT word. *)
Definition raw_mult (val2 : Z) : Z :=
  if negb (Z.land val2 FX3_USB2_INEP_EPM_READY_MASK =? 0) then
    let val2 := Z.shiftr (Z.land val2 FX3_USB2_INEP_EPM_DSIZE_MASK)
                         FX3_USB2_INEP_EPM_DSIZE_POS in
    u8 (val2 / 1024 + 1)
  else 0.

Definition CyFxUvcAppSetMultByEpm (ep : Z) (g : Globals) : Globals :=
  let val1 := mmio g (cfg_addr ep) in
  let val2 := mmio g (epm_addr ep) in
  let multVal := raw_mult val2 in
  let current := multVal in
  (* Adjust multVal to a value between 1 and 3. *)
  let multVal := CY_U3P_MIN multVal 3 in
  let multVal := CY_U3P_MAX multVal 1 in
  let val1 := u32 (Z.lor (Z.land val1 (Z.lnot FX3_USB2_INEP_MULT_MASK))
                         (Z.shiftl multVal FX3_USB2_INEP_MULT_POS)) in
  {| mmio := reg_write (mmio g) (cfg_addr ep) val1;
     CurrentMultVal := current;
     glUVCHeader := glUVCHeader g |}.

(** Readers of the register fields. *)
Definition mult_field (cfg : Z) : Z :=
  Z.shiftr (Z.land cfg FX3_USB2_INEP_MULT_MASK) FX3_USB2_INEP_MULT_POS.

Definition epm_ready (epm : Z) : bool :=
  negb (Z.land epm FX3_USB2_INEP_EPM_READY_MASK =? 0).

Definition epm_dsize (epm : Z) : Z :=
  Z.shiftr (Z.land epm FX3_USB2_INEP_EPM_DSIZE_MASK) FX3_USB2_INEP_EPM_DSIZE_POS.

(** The multiplier in the words of the specification:
    clamp(ceil(bytes_ready / 1024), 1, 3). *)
Definition ceil_div (a b : Z) : Z := (a + b - 1) / b.
Definition clamp (x lo hi : Z) : Z := Z.max lo (Z.min x hi).
Definition spec_mult (bytes_ready : Z) : Z := clamp (ceil_div bytes_ready 1024) 1 3.

(** What the code programs: clamp(floor(bytes_ready / 1024) + 1, 1, 3). *)
Definition code_mult (bytes_ready : Z) : Z := clamp (bytes_ready / 1024 + 1) 1 3.

(** ** USB speed and DMA callback (lines 197-211) *)

Inductive CyU3PUSBSpeed_t : Type :=
| CY_U3P_NOT_CONNECTED
| CY_U3P_FULL_SPEED
| CY_U3P_HIGH_SPEED
| CY_U3P_SUPER_SPEED.

Definition is_high_speed (s : CyU3PUSBSpeed_t) : bool :=
  match s with CY_U3P_HIGH_SPEED => true | _ => false end.

Inductive CyU3PDmaCbType_t : Type :=
| CY_U3P_DMA_CB_XFER_CPLT
| CY_U3P_DMA_CB_SEND_CPLT
| CY_U3P_DMA_CB_RECV_CPLT
| CY_U3P_DMA_CB_PROD_EVENT
| CY_U3P_DMA_CB_CONS_EVENT
| CY_U3P_DMA_CB_ABORTED
| CY_U3P_DMA_CB_ERROR
| CY_U3P_DMA_CB_PROD_SUSP
| CY_U3P_DMA_CB_CONS_SUSP.

Definition is_cons_event (t : CyU3PDmaCbType_t) : bool :=
  match t with CY_U3P_DMA_CB_CONS_EVENT => true | _ => false end.

(** ** Constants of cyfxuvcinmem.h

    The header file is not part of the sources; its macros and the two
    frame tables are taken as the fields of an interface. *)

Class cyfxuvcinmem_h : Type := {
  CY_FX_EP_ISO_VIDEO : Z;              (* video streaming endpoint *)
  CY_FX_EP_ISO_VIDEO_PKTS_COUNT : Z;   (* packets per micro-frame of a full buffer *)
  CY_FX_UVC_STREAM_BUF_SIZE : Z;       (* DMA buffer size *)
  CY_FX_UVC_MAX_HEADER : Z;            (* size of the UVC header *)
  CY_FX_UVC_HEADER_DEFAULT_BFH : Z;    (* default bit-field header byte *)
  CY_FX_UVC_HEADER_FRAME : Z;          (* normal frame indication *)
  CY_FX_UVC_HEADER_EOF : Z;            (* end of frame indication *)
  CY_FX_UVC_HEADER_FRAME_ID : Z;       (* frame id toggle bit *)
  CY_FX_UVC_MAX_VID_FRAMES : Z;        (* number of stored frames *)
  glVidFrameLen : list Z;              (* length of every stored frame *)
  glUVCVidFrames : Z -> Z              (* the stored frames, byte by index *)
}.

(** ** What the producer does to its surroundings *)

Inductive Event : Type :=
| EvGetBuffer (status : Z)
| EvMemCopy (dst_off src_index count : Z)
| EvThreadSleep (ms : Z)
| EvBusyWait (us : Z)
| EvSetEpNak (ep : Z) (nak : bool)
| EvCommitBuffer (buffer : list Z) (count : Z) (status : Z)
| EvRegWrite (addr val : Z)
| EvDebugPrint (status : Z).

(** What the surroundings answer during one pass of the producer: the
    volatile flag [glIsApplnActive], the results of the DMA calls, the
    buffer handed out, the negotiated speed and the word the hardware
    shows in the endpoint's EEPM_ENDPOINT register when it is sampled. *)

Record Env : Type := mkEnv {
  env_active : bool;
  env_get_status : Z;
  env_buffer : list Z;
  env_speed : CyU3PUSBSpeed_t;
  env_commit_status : Z;
  env_epm : Z
}.

(** Locals of [UVCAppThread_Entry]. *)

Record Locals : Type := mkLocals {
  frameStart : Z;
  frameIndex : Z;
  frameOffset : Z;
  commitLength : Z;
  status : Z
}.

Inductive Outcome : Type :=
| Continue (tr : list Event) (g : Globals) (l : Locals)
| Break (tr : list Event) (g : Globals) (l : Locals)
| Fault.

Inductive Pc : Type :=
| PcForTop          (* top of the for (;;) *)
| PcWhile           (* test of while (glIsApplnActive) *)
| PcCheck           (* the streamer error check after the while *)
| PcErrorHandler    (* inside the for (;;) of CyFxAppErrorHandler *)
| PcFault.          (* an array was read out of its bounds *)

Record Thread : Type := mkThread {
  pc : Pc;
  globals : Globals;
  locals : Locals
}.

(** [CyU3PMemCopy (dest + off, src, length src)] on a buffer held as a list. *)
Definition CyU3PMemCopy (dest : list Z) (off : nat) (src : list Z) : list Z :=
  take off dest ++ src ++ drop (off + length src) dest.

Section Streamer.

Context {h : cyfxuvcinmem_h}.

Definition ep_video : Z := Z.land CY_FX_EP_ISO_VIDEO 0x0F.

(* This callback is used to track whether the channel has committed any
   data to the endpoint. *)
Definition CyFxUVCAppDmaCallback (type : CyU3PDmaCbType_t)
    (speed : CyU3PUSBSpeed_t) (g : Globals) : Globals :=
  if is_cons_event type then
    if is_high_speed speed then
      (* Update the ISO MULT setting based on the number of data packets
         ready in the EPM. *)
      CyFxUvcAppSetMultByEpm ep_video g
    else g
  else g.

(** *** UVC header addition function (lines 614-632) *)

Definition CyFxUVCAddHeader (g : Globals) (buffer_p : list Z) (frameInd : Z)
    : Globals * list Z :=
  (* Copy header to buffer *)
  let buffer_p :=
    CyU3PMemCopy buffer_p 0
      (take (Z.to_nat CY_FX_UVC_MAX_HEADER) (glUVCHeader g)) in
  (* Check if last packet of the frame. *)
  if frameInd =? CY_FX_UVC_HEADER_EOF then
    (* Modify UVC header to toggle Frame ID *)
    let hdr :=
      <[1%nat := u8 (Z.lxor (glUVCHeader g !!! 1%nat) CY_FX_UVC_HEADER_FRAME_ID)]>
        (glUVCHeader g) in
    (* Indicate End of Frame in the buffer *)
    let buffer_p :=
      <[1%nat := u8 (Z.lor (buffer_p !!! 1%nat) CY_FX_UVC_HEADER_EOF)]> buffer_p in
    ({| mmio := mmio g; CurrentMultVal := CurrentMultVal g; glUVCHeader := hdr |},
     buffer_p)
  else (g, buffer_p).

(** *** Committing a buffer (lines 686-709 and 736-759)

    The source has this block twice, once per branch; the two copies
    differ only in the multiplier the commit length stands for,
    [expected] here. *)

Definition hw_sample (e : Env) (g : Globals) : Globals :=
  {| mmio := reg_write (mmio g) (epm_addr ep_video) (env_epm e);
     CurrentMultVal := CurrentMultVal g;
     glUVCHeader := glUVCHeader g |}.

Definition commit_chunk (e : Env) (g : Globals) (buffer : list Z)
    (commitLength expected : Z) : list Event * Globals * Z :=
  let commit := EvCommitBuffer buffer commitLength (env_commit_status e) in
  if is_high_speed (env_speed e) then
    (* If the current mult setting does not match the expected data size,
       update this in a safe manner. *)
    if negb (CurrentMultVal g =? expected) then
      let g' := CyFxUvcAppSetMultByEpm ep_video (hw_sample e g) in
      ([EvSetEpNak CY_FX_EP_ISO_VIDEO true;
        EvBusyWait 10;
        commit;
        EvBusyWait 20;
        EvRegWrite (cfg_addr ep_video) (mmio g' (cfg_addr ep_video));
        EvSetEpNak CY_FX_EP_ISO_VIDEO false],
       g', env_commit_status e)
    else
      (* No change to mult setting. Just commit the data. *)
      ([commit], g, env_commit_status e)
  else
    (* Not Hi-speed operation. Just commit the data. *)
    ([commit], g, env_commit_status e).

Definition frame_bytes (src count : Z) : list Z :=
  map (fun k => glUVCVidFrames (src + Z.of_nat k)) (seq 0 (Z.to_nat count)).

(** *** One pass of the while loop body (lines 662-777) *)

Definition loop_body (e : Env) (g : Globals) (l : Locals) : Outcome :=
  (* Wait for a free buffer. *)
  let st := env_get_status e in
  if negb (st =? CY_U3P_SUCCESS) then
    Break [EvGetBuffer st] g
      (mkLocals (frameStart l) (frameIndex l) (frameOffset l) (commitLength l) st)
  else
    match glVidFrameLen !! Z.to_nat (frameIndex l) with
    | None => Fault
    | Some len =>
      let payload := CY_FX_UVC_STREAM_BUF_SIZE - CY_FX_UVC_MAX_HEADER in
      let src := u32 (frameStart l + frameOffset l) in
      (* Check if packet is last packet or first/intermediate packet *)
      if u32 (frameOffset l + payload) <? len then
        (* Load the video data to the OUT buffer *)
        let count := u32 payload in
        let buffer :=
          CyU3PMemCopy (env_buffer e) (Z.to_nat CY_FX_UVC_MAX_HEADER)
            (frame_bytes src count) in
        (* Add header with normal frame indication *)
        let '(g1, buffer) := CyFxUVCAddHeader g buffer CY_FX_UVC_HEADER_FRAME in
        (* Commit buffer length *)
        let cl := u16 CY_FX_UVC_STREAM_BUF_SIZE in
        let '(tr, g2, st) :=
          commit_chunk e g1 buffer cl CY_FX_EP_ISO_VIDEO_PKTS_COUNT in
        let tr := [EvGetBuffer (env_get_status e);
                   EvMemCopy CY_FX_UVC_MAX_HEADER src count;
                   EvThreadSleep 3] ++ tr in
        if negb (st =? CY_U3P_SUCCESS) then
          Break tr g2 (mkLocals (frameStart l) (frameIndex l) (frameOffset l) cl st)
        else
          (* Update the index for video data *)
          Continue tr g2
            (mkLocals (frameStart l) (frameIndex l)
                      (u32 (frameOffset l + payload)) cl st)
      else
        (* Last packet of the video frame. Send this data and then reset
           all counters. *)
        let count := u32 (len - frameOffset l) in
        let buffer :=
          CyU3PMemCopy (env_buffer e) (Z.to_nat CY_FX_UVC_MAX_HEADER)
            (frame_bytes src count) in
        (* Commit buffer length *)
        let cl := u16 (count + CY_FX_UVC_MAX_HEADER) in
        (* Add the header with End of Frame Indication *)
        let '(g1, buffer) := CyFxUVCAddHeader g buffer CY_FX_UVC_HEADER_EOF in
        let '(tr, g2, st) := commit_chunk e g1 buffer cl (cl / 1024 + 1) in
        let tr := [EvGetBuffer (env_get_status e);
                   EvMemCopy CY_FX_UVC_MAX_HEADER src count;
                   EvThreadSleep 3] ++ tr in
        if negb (st =? CY_U3P_SUCCESS) then
          Break tr g2 (mkLocals (frameStart l) (frameIndex l) (frameOffset l) cl st)
        else
          (* Reset the Index for the next frame *)
          let fs := u32 (frameStart l + len) in
          let fi := u32 (frameIndex l + 1) in
          (* If all frames are transferred then start from 0 *)
          if u32 CY_FX_UVC_MAX_VID_FRAMES <=? fi then
            Continue tr g2 (mkLocals 0 0 0 cl st)
          else
            Continue tr g2 (mkLocals fs fi 0 cl st)
    end.

(** *** The thread, one control point at a time (lines 650-789) *)

Definition thread_step (e : Env) (t : Thread) : list Event * Thread :=
  let g := globals t in
  let l := locals t in
  match pc t with
  | PcForTop =>
      (* Reset Frame Id in UVC Header *)
      let hdr := <[1%nat := u8 CY_FX_UVC_HEADER_DEFAULT_BFH]> (glUVCHeader g) in
      ([], mkThread PcWhile
             {| mmio := mmio g; CurrentMultVal := CurrentMultVal g;
                glUVCHeader := hdr |}
             (mkLocals 0 0 0 (commitLength l) (status l)))
  | PcWhile =>
      if env_active e then
        match loop_body e g l with
        | Continue tr g' l' => (tr, mkThread PcWhile g' l')
        | Break tr g' l' => (tr, mkThread PcCheck g' l')
        | Fault => ([], mkThread PcFault g l)
        end
      else ([], mkThread PcCheck g l)
  | PcCheck =>
      (* There is a streamer error. Flag it. *)
      if negb (status l =? CY_U3P_SUCCESS) && env_active e then
        ([EvDebugPrint (status l)], mkThread PcErrorHandler g l)
      else
        (* Sleep for sometime as video streamer is idle. *)
        ([EvThreadSleep 100], mkThread PcForTop g l)
  | PcErrorHandler =>
      (* Loop indefinitely; Thread sleep : 100 ms *)
      ([EvThreadSleep 100], mkThread PcErrorHandler g l)
  | PcFault => ([], t)
  end.

Fixpoint run (es : list Env) (t : Thread) : list Event * Thread :=
  match es with
  | [] => ([], t)
  | e :: es' =>
      let '(tr1, t1) := thread_step e t in
      let '(tr2, t2) := run es' t1 in
      (tr1 ++ tr2, t2)
  end.

(** *** Observations on traces *)

(** The committed chunks of a trace: length and end-of-frame mark, the
    latter read from the bit-field byte of the committed buffer. *)
Definition eof_marked (buffer : list Z) : bool :=
  negb (Z.land (buffer !!! 1%nat) CY_FX_UVC_HEADER_EOF =? 0).

Fixpoint commits (tr : list Event) : list (Z * bool) :=
  match tr with
  | [] => []
  | EvCommitBuffer buffer count _ :: tr' => (count, eof_marked buffer) :: commits tr'
  | _ :: tr' => commits tr'
  end.

Fixpoint copies (tr : list Event) : list Z :=
  match tr with
  | [] => []
  | EvMemCopy _ _ count :: tr' => count :: copies tr'
  | _ :: tr' => copies tr'
  end.

End Streamer.

(** ** Example configurations

    [example_h lens]: a playlist of frames of the lengths [lens], buffers
    of 1012 bytes with a 12-byte header, so 1000 payload bytes per buffer.
    [scenario_h] is the playlist of the specification's scenario. *)

Definition example_h (lens : list Z) : cyfxuvcinmem_h := {|
  CY_FX_EP_ISO_VIDEO := 0x83;
  CY_FX_EP_ISO_VIDEO_PKTS_COUNT := 1;
  CY_FX_UVC_STREAM_BUF_SIZE := 1012;
  CY_FX_UVC_MAX_HEADER := 12;
  CY_FX_UVC_HEADER_DEFAULT_BFH := 0x8C;
  CY_FX_UVC_HEADER_FRAME := 0;
  CY_FX_UVC_HEADER_EOF := 2;
  CY_FX_UVC_HEADER_FRAME_ID := 1;
  CY_FX_UVC_MAX_VID_FRAMES := Z.of_nat (length lens);
  glVidFrameLen := lens;
  glUVCVidFrames := fun i => i mod 251
|}.

Definition scenario_h : cyfxuvcinmem_h := example_h [5000; 200; 10000].

(** The header as initialised at line 90. *)
Definition glUVCHeader_init : list Z :=
  [0x0C; 0x8C; 0x00; 0x00; 0x00; 0x00; 0x00; 0x00; 0x00; 0x00; 0x00; 0x00].

(** Globals whose EEPM_ENDPOINT word for endpoint 3 is [epm], with every
    other register reading zero. *)
Definition globals_with_epm (epm : Z) (current : Z) : Globals :=
  {| mmio := fun a => if a =? epm_addr 3 then epm else 0;
     CurrentMultVal := current;
     glUVCHeader := glUVCHeader_init |}.

(** An answer of the surroundings in which everything succeeds. *)
Definition env_ok (speed : CyU3PUSBSpeed_t) (epm : Z) : Env :=
  mkEnv true CY_U3P_SUCCESS (repeat 0 1012) speed CY_U3P_SUCCESS epm.

(** ** Predicates used in the statements *)

Definition is_reg_write (ev : Event) : bool :=
  match ev with EvRegWrite _ _ => true | _ => false end.

Definition is_transport_call (ev : Event) : bool :=
  match ev with
  | EvGetBuffer _ | EvCommitBuffer _ _ _ => true
  | _ => false
  end.

(** Does the trace write the endpoint configuration register? *)
Definition retunes (tr : list Event) : bool := existsb is_reg_write tr.

(** Does the first register write of the trace come before its first
    commit? *)
Fixpoint write_before_commit (tr : list Event) : bool :=
  match tr with
  | [] => false
  | EvRegWrite _ _ :: _ => true
  | EvCommitBuffer _ _ _ :: _ => false
  | _ :: tr' => write_before_commit tr'
  end.

(** The multipliers written by a trace. *)
Fixpoint written_mults (tr : list Event) : list Z :=
  match tr with
  | [] => []
  | EvRegWrite _ val :: tr' => mult_field val :: written_mults tr'
  | _ :: tr' => written_mults tr'
  end.

Definition sum_lengths (cs : list (Z * bool)) : Z :=
  fold_right Z.add 0 (map fst cs).

(** The surroundings let the pass go through: the stream is active and
    both DMA calls succeed. *)
Definition good (e : Env) : Prop :=
  env_active e = true /\
  env_get_status e = CY_U3P_SUCCESS /\
  env_commit_status e = CY_U3P_SUCCESS.

Section Wellformed.

Context {h : cyfxuvcinmem_h}.

(** Payload bytes per full buffer. *)
Definition payload : Z := CY_FX_UVC_STREAM_BUF_SIZE - CY_FX_UVC_MAX_HEADER.

(** The header fits in a buffer with room for payload, and a buffer
    length fits the 16-bit [commitLength]. *)
Definition wf_sizes : Prop :=
  2 <= CY_FX_UVC_MAX_HEADER /\
  CY_FX_UVC_MAX_HEADER < CY_FX_UVC_STREAM_BUF_SIZE /\
  CY_FX_UVC_STREAM_BUF_SIZE < 2 ^ 16.

(** The two indications differ; the end-of-frame mark is a non-zero
    value of one byte, disjoint from the frame id bit and clear in the
    default bit-field byte. *)
Definition wf_bits : Prop :=
  CY_FX_UVC_HEADER_FRAME <> CY_FX_UVC_HEADER_EOF /\
  0 < CY_FX_UVC_HEADER_EOF < 2 ^ 8 /\
  Z.land CY_FX_UVC_HEADER_FRAME_ID CY_FX_UVC_HEADER_EOF = 0 /\
  Z.land CY_FX_UVC_HEADER_DEFAULT_BFH CY_FX_UVC_HEADER_EOF = 0.

(** The frame table has [CY_FX_UVC_MAX_VID_FRAMES] entries. *)
Definition wf_table : Prop :=
  0 < CY_FX_UVC_MAX_VID_FRAMES < 2 ^ 32 /\
  Z.of_nat (length glVidFrameLen) = CY_FX_UVC_MAX_VID_FRAMES.

(** A frame length for which the 32-bit cursor arithmetic does not wrap. *)
Definition wf_len (len : Z) : Prop := 0 <= len /\ len + payload < 2 ^ 32.

(** The header array holds its bit-field byte, whose end-of-frame bit is
    clear. *)
Definition header_ok (g : Globals) : Prop :=
  (2 <= length (glUVCHeader g))%nat /\
  Z.land (glUVCHeader g !!! 1%nat) CY_FX_UVC_HEADER_EOF = 0.

(** Number of chunks of a frame that are not its last. *)
Definition mid_count (len : Z) : Z :=
  if len <=? 0 then 0 else (len - 1) / payload.

Definition chunk_count (len : Z) : Z := mid_count len + 1.

(** The frame streamed after frame [i]. *)
Definition next_index (i : Z) : Z :=
  if u32 CY_FX_UVC_MAX_VID_FRAMES <=? u32 (i + 1) then 0 else u32 (i + 1).

(** The chunks a frame of [len] bytes is committed in. *)
Definition frame_commits (len : Z) : list (Z * bool) :=
  repeat (CY_FX_UVC_STREAM_BUF_SIZE, false) (Z.to_nat (mid_count len)) ++
  [(len - mid_count len * payload + CY_FX_UVC_MAX_HEADER, true)].

(** The chunks of [n] frames in playlist order, from frame [i] on. *)
Fixpoint playlist_commits (n : nat) (i : Z) : list (Z * bool) :=
  match n with
  | O => []
  | S n' =>
      match glVidFrameLen !! Z.to_nat i with
      | Some len => frame_commits len ++ playlist_commits n' (next_index i)
      | None => []
      end
  end.

Fixpoint index_after (n : nat) (i : Z) : Z :=
  match n with
  | O => i
  | S n' => index_after n' (next_index i)
  end.

(** The bit-field byte [x] after [n] toggles of the frame id. *)
Definition toggled (n : nat) (x : Z) : Z :=
  if Nat.odd n then Z.lxor x (u8 CY_FX_UVC_HEADER_FRAME_ID) else x.

(** The events around a commit for which the multiplier is retuned. *)
Definition retune_events (buffer : list Z) (count st cfg : Z) : list Event :=
  [EvSetEpNak CY_FX_EP_ISO_VIDEO true;
   EvBusyWait 10;
   EvCommitBuffer buffer count st;
   EvBusyWait 20;
   EvRegWrite (cfg_addr ep_video) cfg;
   EvSetEpNak CY_FX_EP_ISO_VIDEO false].

(** Stamping a series of buffers, each with its indication. *)
Fixpoint stamp_all (stamps : list (list Z * Z)) (g : Globals) : Globals :=
  match stamps with
  | [] => g
  | (buffer, frameInd) :: rest =>
      stamp_all rest (fst (CyFxUVCAddHeader g buffer frameInd))
  end.

Definition eof_stamps (stamps : list (list Z * Z)) : nat :=
  length (filter (fun s => snd s =? CY_FX_UVC_HEADER_EOF) stamps).

End Wellformed.

(** Parts of an outcome of the loop body. *)
Definition outcome_trace (o : Outcome) : list Event :=
  match o with Continue tr _ _ | Break tr _ _ => tr | Fault => [] end.

Definition outcome_globals (o : Outcome) : option Globals :=
  match o with Continue _ g _ | Break _ g _ => Some g | Fault => None end.

(** ** Observations on whole runs *)

(** The payload copies of a trace: destination offset in the DMA buffer,
    index in the frame store, byte count. *)
Fixpoint copy_ranges (tr : list Event) : list (Z * Z * Z) :=
  match tr with
  | [] => []
  | EvMemCopy dst src count :: tr' => (dst, src, count) :: copy_ranges tr'
  | _ :: tr' => copy_ranges tr'
  end.

(** Whether the endpoint answers NAK after a trace, [nak] before it. *)
Fixpoint nak_after (tr : list Event) (nak : bool) : bool :=
  match tr with
  | [] => nak
  | EvSetEpNak _ b :: tr' => nak_after tr' b
  | _ :: tr' => nak_after tr' nak
  end.

(** Every register write of the trace happens while NAK is set. *)
Fixpoint writes_under_nak (tr : list Event) (nak : bool) : bool :=
  match tr with
  | [] => true
  | EvSetEpNak _ b :: tr' => writes_under_nak tr' b
  | EvRegWrite _ _ :: tr' => nak && writes_under_nak tr' nak
  | _ :: tr' => writes_under_nak tr' nak
  end.

(** The result of the last DMA call of a trace, [st] when it has none. *)
Fixpoint last_status (tr : list Event) (st : Z) : Z :=
  match tr with
  | [] => st
  | EvGetBuffer st' :: tr' => last_status tr' st'
  | EvCommitBuffer _ _ st' :: tr' => last_status tr' st'
  | _ :: tr' => last_status tr' st
  end.

Definition is_failed_call (ev : Event) : bool :=
  match ev with
  | EvGetBuffer st | EvCommitBuffer _ _ st => negb (st =? CY_U3P_SUCCESS)
  | _ => false
  end.

Definition is_idle_sleep (ev : Event) : bool :=
  match ev with EvThreadSleep ms => ms =? 100 | _ => false end.

Definition is_halted (t : Thread) : bool :=
  match pc t with PcErrorHandler => true | _ => false end.

Definition is_fault (t : Thread) : bool :=
  match pc t with PcFault => true | _ => false end.

(** Consecutive ranges: each copy starts where the one before ended; the
    result is the end of the last one. *)
Fixpoint chain (start : Z) (rs : list (Z * Z * Z)) : option Z :=
  match rs with
  | [] => Some start
  | (_, src, count) :: rs' =>
      if src =? start then chain (start + count) rs' else None
  end.

Section Bounds.

Context {h : cyfxuvcinmem_h}.

(** A register write of the producer: to the video endpoint's DEV_EPI_CS,
    with a multiplier between 1 and 3. *)
Definition mult_write_ok (ev : Event) : bool :=
  match ev with
  | EvRegWrite addr val =>
      (addr =? cfg_addr ep_video) && (1 <=? mult_field val) && (mult_field val <=? 3)
  | _ => true
  end.

(** Where frame [i] starts in the frame store, and the size of the store. *)
Definition frame_base (i : nat) : Z := fold_right Z.add 0 (take i glVidFrameLen).
Definition store_size : Z := fold_right Z.add 0 glVidFrameLen.

(** A payload copy lands behind the header and inside the DMA buffer. *)
Definition copy_fits_buffer (r : Z * Z * Z) : Prop :=
  fst (fst r) = CY_FX_UVC_MAX_HEADER /\
  0 <= snd r /\
  fst (fst r) + snd r <= CY_FX_UVC_STREAM_BUF_SIZE.

(** A payload copy reads inside the frame store. *)
Definition copy_in_store (r : Z * Z * Z) : Prop :=
  0 <= snd (fst r) /\ snd (fst r) + snd r <= store_size.

(** A commit holds at least the header and at most a buffer. *)
Definition commit_fits_buffer (c : Z * bool) : Prop :=
  CY_FX_UVC_MAX_HEADER <= fst c <= CY_FX_UVC_STREAM_BUF_SIZE.

(** The cursor of the producer points into the frame table and into the
    frame it names, whose bytes start at [frameStart]. *)
Definition cursor_ok (l : Locals) : Prop :=
  0 <= frameIndex l < CY_FX_UVC_MAX_VID_FRAMES /\
  frameStart l = frame_base (Z.to_nat (frameIndex l)) /\
  exists len,
    glVidFrameLen !! Z.to_nat (frameIndex l) = Some len /\
    0 <= frameOffset l <= len.

(** A header that differs from [hdr0] in its bit-field byte only, which is
    the default byte with the frame id as it is or toggled. *)
Definition header_shape (hdr0 hdr : list Z) : Prop :=
  exists b,
    hdr = <[1%nat := b]> hdr0 /\
    (b = u8 CY_FX_UVC_HEADER_DEFAULT_BFH \/
     b = Z.lxor (u8 CY_FX_UVC_HEADER_DEFAULT_BFH) (u8 CY_FX_UVC_HEADER_FRAME_ID)).

Definition thread_ok (t : Thread) : Prop :=
  match pc t with
  | PcWhile => cursor_ok (locals t)
  | PcFault => False
  | _ => True
  end.

End Bounds.

(** A run of the scenario in which the commit of the third pass fails
    while the stream is stopped, and the stream is started again. *)
Definition stop_and_restart : list Env :=
  [env_ok CY_U3P_HIGH_SPEED 0;
   env_ok CY_U3P_HIGH_SPEED 0x404E2000;
   env_ok CY_U3P_HIGH_SPEED 0x40000000;
   mkEnv true 0 (repeat 0 1012) CY_U3P_HIGH_SPEED 0x47 0;
   mkEnv false 0 [] CY_U3P_HIGH_SPEED 0 0;
   env_ok CY_U3P_SUPER_SPEED 0;
   env_ok CY_U3P_SUPER_SPEED 0;
   env_ok CY_U3P_SUPER_SPEED 0].

(** ** The stream controller (lines 213-353)

    [CyFxUVCApplnStart], [CyFxUVCApplnStop] and the USB event callback
    that calls them. The calls into the USB and DMA libraries are recorded
    in order, together with the stores to [glIsApplnActive]; the results
    of the calls whose status the code checks are answers of the
    surroundings. *)

Inductive CyU3PUsbEpType_t : Type :=
| CY_U3P_USB_EP_CONTROL
| CY_U3P_USB_EP_ISO
| CY_U3P_USB_EP_BULK
| CY_U3P_USB_EP_INTR.

Record CyU3PEpConfig_t : Type := mkEpConfig {
  enable : bool;
  epType : CyU3PUsbEpType_t;
  streams : Z;
  pcktSize : Z;
  burstLen : Z;
  isoPkts : Z
}.

Inductive CyU3PDmaSocketId_t : Type :=
| CY_U3P_CPU_SOCKET_PROD
| SocketId (id : Z).

Inductive CyU3PDmaMode_t : Type :=
| CY_U3P_DMA_MODE_BYTE
| CY_U3P_DMA_MODE_BUFFER.

Inductive DmaCallback : Type :=
| CbCyFxUVCAppDmaCallback.

Record CyU3PDmaChannelConfig_t : Type := mkDmaConfig {
  dma_size : Z;
  dma_count : Z;
  prodSckId : CyU3PDmaSocketId_t;
  consSckId : CyU3PDmaSocketId_t;
  prodAvailCount : Z;
  prodHeader : Z;
  prodFooter : Z;
  consHeader : Z;
  dmaMode : CyU3PDmaMode_t;
  notification : CyU3PDmaCbType_t;
  cb : DmaCallback
}.

Inductive Action : Type :=
| ActSetEpConfig (ep : Z) (cfg : CyU3PEpConfig_t)
| ActDmaChannelCreate (cfg : CyU3PDmaChannelConfig_t) (st : Z)
| ActUsbFlushEp (ep : Z)
| ActDmaChannelSetXfer (count : Z)
| ActDmaChannelDestroy
| ActStoreActive (b : bool)
| ActDebugPrint (priority : Z)
| ActUsbAckSetup
| ActUsbStall (ep : Z) (stall toggle : bool)
| ActUsbSendEP0Data (count : Z) (data : list Z)
| ActUsbGetEP0Data (count : Z)
| ActUsbLPMDisable.

Inductive CyU3PUsbEventType_t : Type :=
| CY_U3P_USB_EVENT_CONNECT
| CY_U3P_USB_EVENT_DISCONNECT
| CY_U3P_USB_EVENT_SUSPEND
| CY_U3P_USB_EVENT_RESUME
| CY_U3P_USB_EVENT_RESET
| CY_U3P_USB_EVENT_SETCONF
| CY_U3P_USB_EVENT_SPEED
| CY_U3P_USB_EVENT_SETINTF
| CY_U3P_USB_EVENT_SET_SEL
| CY_U3P_USB_EVENT_SOF_ITP
| CY_U3P_USB_EVENT_EP0_STAT_CPLT
| CY_U3P_USB_EVENT_VBUS_VALID
| CY_U3P_USB_EVENT_VBUS_REMOVED.

(** Globals of the controller. *)
Record App : Type := mkApp {
  glIsApplnActive : bool;
  glIsDevConfigured : bool;
  uvcVideoEpCfg : CyU3PEpConfig_t
}.

(** What the surroundings answer to a start: the speed and the results
    of the three calls whose status is checked. *)
Record StartEnv : Type := mkStartEnv {
  start_speed : CyU3PUSBSpeed_t;
  start_setep : Z;
  start_create : Z;
  start_setxfer : Z
}.

(** What the surroundings answer during a setup request. *)
Record SetupEnv : Type := mkSetupEnv {
  setup_send : Z;
  setup_get : Z;
  setup_readCount : Z
}.

(** The byte macros of the SDK's cyu3types.h. *)
Definition CY_U3P_GET_LSB (w : Z) : Z := u8 (Z.land w 0xFF).
Definition CY_U3P_GET_MSB (w : Z) : Z := u8 (Z.shiftr w 8).

(* Setup data field : Request (lines 70-72) *)
Definition CY_U3P_USB_REQUEST_MASK : Z := 0x0000FF00.
Definition CY_U3P_USB_REQUEST_POS : Z := 8.

(** Further constants of cyfxuvcinmem.h, used by the controller and the
    setup callback, and the setup-packet constants of the SDK's
    cyu3usbconst.h; neither file is part of the sources. *)
Class cyfxuvcinmem_ctl_h : Type := {
  CY_FX_EP_ISO_VIDEO_SS_MULT : Z;
  CY_FX_EP_ISO_VIDEO_SS_BURST : Z;
  CY_FX_EP_ISO_VIDEO_PKT_SIZE : Z;
  CY_FX_UVC_STREAM_BUF_COUNT : Z;
  CY_FX_EP_VIDEO_CONS_SOCKET : Z;
  CY_FX_UVC_INTERFACE_VC : Z;
  CY_FX_UVC_INTERFACE_VS : Z;
  CY_FX_USB_UVC_VC_RQT_ERROR_CODE_CONTROL : Z;
  CY_FX_USB_UVC_RQT_STAT_INVALID_CTRL : Z;
  CY_FX_USB_UVC_VS_PROBE_CONTROL : Z;
  CY_FX_USB_UVC_VS_COMMIT_CONTROL : Z;
  CY_FX_USB_UVC_GET_CUR_REQ : Z;
  CY_FX_USB_UVC_GET_DEF_REQ : Z;
  CY_FX_USB_UVC_GET_MIN_REQ : Z;
  CY_FX_USB_UVC_GET_MAX_REQ : Z;
  CY_FX_USB_UVC_SET_CUR_REQ : Z;
  CY_FX_UVC_MAX_PROBE_SETTING : Z;
  CY_FX_UVC_MAX_PROBE_SETTING_ALIGNED : Z;
  glProbeCtrl : list Z
}.

Class cyu3usbconst_h : Type := {
  CY_U3P_USB_REQUEST_TYPE_MASK : Z;
  CY_U3P_USB_TYPE_MASK : Z;
  CY_U3P_USB_TARGET_MASK : Z;
  CY_U3P_USB_VALUE_MASK : Z;
  CY_U3P_USB_VALUE_POS : Z;
  CY_U3P_USB_INDEX_MASK : Z;
  CY_U3P_USB_INDEX_POS : Z;
  CY_U3P_USB_STANDARD_RQT : Z;
  CY_U3P_USB_CLASS_RQT : Z;
  CY_U3P_USB_TARGET_INTF : Z;
  CY_U3P_USB_SC_SET_FEATURE : Z;
  CY_U3P_USB_SC_CLEAR_FEATURE : Z
}.

Section Controller.

Context {h : cyfxuvcinmem_h} {c : cyfxuvcinmem_ctl_h} {k : cyu3usbconst_h}.

(* This function starts the video streaming application. It is called
   when there is a SET_INTERFACE event for alternate interface 1. *)
Definition CyFxUVCApplnStart (e : StartEnv) (a : App) : list Action * App * Z :=
  let '(pkts, burst) :=
    match start_speed e with
    | CY_U3P_SUPER_SPEED =>
        (u8 CY_FX_EP_ISO_VIDEO_SS_MULT, u8 CY_FX_EP_ISO_VIDEO_SS_BURST)
    | _ =>
        (* Set the ISOMULT to 1 by default. This will be updated to the
           correct value when we start streaming data. *)
        (1, 1)
    end in
  (* Video streaming endpoint configuration *)
  let cfg := mkEpConfig true CY_U3P_USB_EP_ISO 0
               (u16 CY_FX_EP_ISO_VIDEO_PKT_SIZE) burst pkts in
  let a1 := mkApp (glIsApplnActive a) (glIsDevConfigured a) cfg in
  let tr1 := [ActSetEpConfig CY_FX_EP_ISO_VIDEO cfg] in
  if negb (start_setep e =? CY_U3P_SUCCESS) then
    (tr1 ++ [ActDebugPrint 4], a1, start_setep e)
  else
    (* Create a DMA Manual OUT channel for streaming data *)
    let dmaCfg :=
      mkDmaConfig (u16 CY_FX_UVC_STREAM_BUF_SIZE) (u16 CY_FX_UVC_STREAM_BUF_COUNT)
        CY_U3P_CPU_SOCKET_PROD (SocketId CY_FX_EP_VIDEO_CONS_SOCKET)
        0 0 0 0 CY_U3P_DMA_MODE_BYTE CY_U3P_DMA_CB_CONS_EVENT
        CbCyFxUVCAppDmaCallback in
    let tr2 := tr1 ++ [ActDmaChannelCreate dmaCfg (start_create e)] in
    if negb (start_create e =? CY_U3P_SUCCESS) then
      (tr2 ++ [ActDebugPrint 4], a1, start_create e)
    else
      (* Flush the endpoint memory *)
      let tr3 := tr2 ++ [ActUsbFlushEp CY_FX_EP_ISO_VIDEO; ActDmaChannelSetXfer 0] in
      if negb (start_setxfer e =? CY_U3P_SUCCESS) then
        (tr3 ++ [ActDebugPrint 4], a1, start_setxfer e)
      else
        (* Update the flag so that the application thread is notified of
           this. *)
        (tr3 ++ [ActStoreActive true; ActDebugPrint 3],
         mkApp true (glIsDevConfigured a) cfg, CY_U3P_SUCCESS).

(* This function stops the video streaming. It is called from the USB
   event handler, when there is a reset / disconnect or SET_INTERFACE for
   alternate interface 0. *)
Definition CyFxUVCApplnStop (a : App) : list Action * App :=
  let old := uvcVideoEpCfg a in
  (* Disable the video streaming endpoint. *)
  let cfg := mkEpConfig false (epType old) (streams old) (pcktSize old)
               (burstLen old) (isoPkts old) in
  ([ActStoreActive false;
    ActDmaChannelDestroy;
    ActUsbFlushEp CY_FX_EP_ISO_VIDEO;
    ActSetEpConfig CY_FX_EP_ISO_VIDEO cfg;
    ActDebugPrint 3],
   mkApp false (glIsDevConfigured a) cfg).

Definition stop_if_active (a : App) : list Action * App :=
  if glIsApplnActive a then CyFxUVCApplnStop a else ([], a).

(* This is the Callback function to handle the USB Events *)
Definition CyFxUVCApplnUSBEventCB (evtype : CyU3PUsbEventType_t) (evdata : Z)
    (e : StartEnv) (a : App) : list Action * App :=
  match evtype with
  | CY_U3P_USB_EVENT_SETCONF =>
      let '(tr, a1) := stop_if_active a in
      if negb (u16 evdata =? 0) then
        (tr, mkApp (glIsApplnActive a1) true (uvcVideoEpCfg a1))
      else (tr, a1)
  | CY_U3P_USB_EVENT_SETINTF =>
      (* Start the video streamer application if the interface requested
         was 1. If not, stop the streamer. *)
      let interface := CY_U3P_GET_MSB (u16 evdata) in
      let altSetting := CY_U3P_GET_LSB (u16 evdata) in
      (* Stop the application before re-starting. *)
      let '(tr, a1) := stop_if_active a in
      (* Start the video stream if the streaming interface has been
         selected. *)
      if (interface =? CY_FX_UVC_INTERFACE_VS) && negb (altSetting =? 0) then
        let '(tr2, a2, _) := CyFxUVCApplnStart e a1 in (tr ++ tr2, a2)
      else (tr, a1)
  | CY_U3P_USB_EVENT_RESET
  | CY_U3P_USB_EVENT_DISCONNECT =>
      (* Stop the video streamer application. *)
      let '(tr, a1) := stop_if_active a in
      (tr, mkApp (glIsApplnActive a1) false (uvcVideoEpCfg a1))
  | _ => ([], a)
  end.

(** A series of USB events, each with the answers to the start it may
    cause. *)
Fixpoint run_events (evs : list (CyU3PUsbEventType_t * Z * StartEnv)) (a : App)
    : list Action * App :=
  match evs with
  | [] => ([], a)
  | (evtype, evdata, e) :: evs' =>
      let '(tr1, a1) := CyFxUVCApplnUSBEventCB evtype evdata e a in
      let '(tr2, a2) := run_events evs' a1 in
      (tr1 ++ tr2, a2)
  end.

(* Callback to handle the USB Setup Requests and UVC Class events
   (lines 355-485) *)
Definition CyFxUVCApplnUSBSetupCB (setupdat0 setupdat1 : Z) (e : SetupEnv)
    (a : App) : list Action * bool :=
  (* Decode the fields from the setup request. *)
  let bReqType := u8 (Z.land setupdat0 CY_U3P_USB_REQUEST_TYPE_MASK) in
  let bType := u8 (Z.land bReqType CY_U3P_USB_TYPE_MASK) in
  let bTarget := u8 (Z.land bReqType CY_U3P_USB_TARGET_MASK) in
  let bRequest :=
    u8 (Z.shiftr (Z.land setupdat0 CY_U3P_USB_REQUEST_MASK)
          CY_U3P_USB_REQUEST_POS) in
  let wValue :=
    u16 (Z.shiftr (Z.land setupdat0 CY_U3P_USB_VALUE_MASK) CY_U3P_USB_VALUE_POS) in
  let wIndex :=
    u16 (Z.shiftr (Z.land setupdat1 CY_U3P_USB_INDEX_MASK) CY_U3P_USB_INDEX_POS) in
  let '(tr1, isHandled) :=
    if (bType =? CY_U3P_USB_STANDARD_RQT) &&
       ((bTarget =? CY_U3P_USB_TARGET_INTF) &&
        ((bRequest =? CY_U3P_USB_SC_SET_FEATURE) ||
         (bRequest =? CY_U3P_USB_SC_CLEAR_FEATURE)) &&
        (wValue =? 0))
    then
      ((if glIsDevConfigured a then [ActUsbAckSetup]
        else [ActUsbStall 0 true false]), true)
    else ([], false) in
  (* Check for UVC Class Requests *)
  if bType =? CY_U3P_USB_CLASS_RQT then
    let tr2 := tr1 ++ [ActDebugPrint 4] in
    (* Handle requests addressed to the Video Control interface. *)
    let '(tr3, isHandled) :=
      if (bTarget =? CY_U3P_USB_TARGET_INTF) &&
         (CY_U3P_GET_LSB wIndex =? CY_FX_UVC_INTERFACE_VC) &&
         ((CY_U3P_GET_MSB wIndex =? 0x00) &&
          (wValue =? CY_FX_USB_UVC_VC_RQT_ERROR_CODE_CONTROL))
      then
        (tr2 ++ [ActUsbSendEP0Data 0x01 [u8 CY_FX_USB_UVC_RQT_STAT_INVALID_CTRL]],
         true)
      else (tr2, isHandled) in
    (* Handle requests addressed to the Video Streaming interface. *)
    if (bTarget =? CY_U3P_USB_TARGET_INTF) &&
       (CY_U3P_GET_LSB wIndex =? CY_FX_UVC_INTERFACE_VS)
    then
      let response :=
        if (wValue =? CY_FX_USB_UVC_VS_PROBE_CONTROL) ||
           (wValue =? CY_FX_USB_UVC_VS_COMMIT_CONTROL)
        then
          if (bRequest =? CY_FX_USB_UVC_GET_CUR_REQ) ||
             (bRequest =? CY_FX_USB_UVC_GET_DEF_REQ) ||
             (bRequest =? CY_FX_USB_UVC_GET_MIN_REQ) ||
             (bRequest =? CY_FX_USB_UVC_GET_MAX_REQ)
          then
            (* We only have one functional setting. Keep returning the
               same as current, default minimum and maximum. *)
            ActUsbSendEP0Data (u16 CY_FX_UVC_MAX_PROBE_SETTING) glProbeCtrl ::
            (if negb (setup_send e =? CY_U3P_SUCCESS) then [ActDebugPrint 4] else [])
          else if bRequest =? CY_FX_USB_UVC_SET_CUR_REQ then
            (* Read the data out into a local buffer. We do not use this
               data in any way. *)
            [ActUsbLPMDisable;
             ActUsbGetEP0Data (u16 CY_FX_UVC_MAX_PROBE_SETTING_ALIGNED)] ++
            (if negb (setup_get e =? CY_U3P_SUCCESS) then [ActDebugPrint 4]
             else if negb (u16 (setup_readCount e) =? u16 CY_FX_UVC_MAX_PROBE_SETTING)
                  then [ActDebugPrint 4] else [])
          else [ActUsbStall 0 true false]
        else [ActUsbStall 0 true false] in
      (tr3 ++ response, true)
    else (tr3, isHandled)
  else (tr1, isHandled).

End Controller.

(** *** Observations on the controller's actions *)

(** Whether the DMA channel exists after the actions, [open] before. *)
Fixpoint channel_after (tr : list Action) (open : bool) : bool :=
  match tr with
  | [] => open
  | ActDmaChannelCreate _ st :: tr' =>
      channel_after tr' (if st =? CY_U3P_SUCCESS then true else open)
  | ActDmaChannelDestroy :: tr' => channel_after tr' false
  | _ :: tr' => channel_after tr' open
  end.

(** No channel is created while one exists. *)
Fixpoint creates_closed_only (tr : list Action) (open : bool) : bool :=
  match tr with
  | [] => true
  | ActDmaChannelCreate _ st :: tr' =>
      negb open &&
      creates_closed_only tr' (if st =? CY_U3P_SUCCESS then true else open)
  | ActDmaChannelDestroy :: tr' => creates_closed_only tr' false
  | _ :: tr' => creates_closed_only tr' open
  end.

(** The channel is destroyed only while it exists, and only after
    [glIsApplnActive] was cleared. *)
Fixpoint destroys_ok (tr : list Action) (open active : bool) : bool :=
  match tr with
  | [] => true
  | ActDmaChannelCreate _ st :: tr' =>
      destroys_ok tr' (if st =? CY_U3P_SUCCESS then true else open) active
  | ActDmaChannelDestroy :: tr' => open && negb active && destroys_ok tr' false active
  | ActStoreActive b :: tr' => destroys_ok tr' open b
  | _ :: tr' => destroys_ok tr' open active
  end.

Fixpoint active_after (tr : list Action) (active : bool) : bool :=
  match tr with
  | [] => active
  | ActStoreActive b :: tr' => active_after tr' b
  | _ :: tr' => active_after tr' active
  end.

(** The actions that answer a request on endpoint 0. *)
Definition is_ep0_response (act : Action) : bool :=
  match act with
  | ActUsbAckSetup | ActUsbStall _ _ _
  | ActUsbSendEP0Data _ _ | ActUsbGetEP0Data _ => true
  | _ => false
  end.

(** Every start of the series whose channel creation succeeds also has
    its transfer set up. *)
Definition setxfer_follows_create (e : StartEnv) : Prop :=
  start_create e = CY_U3P_SUCCESS -> start_setxfer e = CY_U3P_SUCCESS.

(** Example constants: the values of the SDK and of the example's header. *)
Definition example_ctl_h : cyfxuvcinmem_ctl_h := {|
  CY_FX_EP_ISO_VIDEO_SS_MULT := 1;
  CY_FX_EP_ISO_VIDEO_SS_BURST := 12;
  CY_FX_EP_ISO_VIDEO_PKT_SIZE := 0x400;
  CY_FX_UVC_STREAM_BUF_COUNT := 16;
  CY_FX_EP_VIDEO_CONS_SOCKET := 0x403;
  CY_FX_UVC_INTERFACE_VC := 0;
  CY_FX_UVC_INTERFACE_VS := 1;
  CY_FX_USB_UVC_VC_RQT_ERROR_CODE_CONTROL := 0x0200;
  CY_FX_USB_UVC_RQT_STAT_INVALID_CTRL := 0x06;
  CY_FX_USB_UVC_VS_PROBE_CONTROL := 0x0100;
  CY_FX_USB_UVC_VS_COMMIT_CONTROL := 0x0200;
  CY_FX_USB_UVC_GET_CUR_REQ := 0x81;
  CY_FX_USB_UVC_GET_DEF_REQ := 0x87;
  CY_FX_USB_UVC_GET_MIN_REQ := 0x82;
  CY_FX_USB_UVC_GET_MAX_REQ := 0x83;
  CY_FX_USB_UVC_SET_CUR_REQ := 0x01;
  CY_FX_UVC_MAX_PROBE_SETTING := 26;
  CY_FX_UVC_MAX_PROBE_SETTING_ALIGNED := 32;
  glProbeCtrl := repeat 0 26
|}.

Definition example_usbconst_h : cyu3usbconst_h := {|
  CY_U3P_USB_REQUEST_TYPE_MASK := 0x000000FF;
  CY_U3P_USB_TYPE_MASK := 0x60;
  CY_U3P_USB_TARGET_MASK := 0x03;
  CY_U3P_USB_VALUE_MASK := 0xFFFF0000;
  CY_U3P_USB_VALUE_POS := 16;
  CY_U3P_USB_INDEX_MASK := 0x0000FFFF;
  CY_U3P_USB_INDEX_POS := 0;
  CY_U3P_USB_STANDARD_RQT := 0x00;
  CY_U3P_USB_CLASS_RQT := 0x20;
  CY_U3P_USB_TARGET_INTF := 0x01;
  CY_U3P_USB_SC_SET_FEATURE := 0x03;
  CY_U3P_USB_SC_CLEAR_FEATURE := 0x01
|}.

Definition app_init : App :=
  mkApp false false (mkEpConfig false CY_U3P_USB_EP_CONTROL 0 0 0 0).

Definition start_ok (speed : CyU3PUSBSpeed_t) : StartEnv :=
  mkStartEnv speed CY_U3P_SUCCESS CY_U3P_SUCCESS CY_U3P_SUCCESS.

(** ** The initialisation at the thread's entry (lines 149-195, 502-611)

    [CyFxUVCApplnDebugInit] and [CyFxUVCApplnInit] call the UART, debug
    and USB libraries in order. Each call is recorded with the result the
    surroundings give. After a failed call the function enters
    [CyFxAppErrorHandler], which never returns: nothing that follows in
    the source is done. *)

Inductive CyU3PUartBaudrate_t : Type :=
| CY_U3P_UART_BAUDRATE_9600
| CY_U3P_UART_BAUDRATE_19200
| CY_U3P_UART_BAUDRATE_115200.

Inductive CyU3PUartStopBit_t : Type :=
| CY_U3P_UART_ONE_STOP_BIT
| CY_U3P_UART_TWO_STOP_BIT.

Inductive CyU3PUartParity_t : Type :=
| CY_U3P_UART_NO_PARITY
| CY_U3P_UART_EVEN_PARITY
| CY_U3P_UART_ODD_PARITY.

Record CyU3PUartConfig_t : Type := mkUartConfig {
  txEnable : bool;
  rxEnable : bool;
  flowCtrl : bool;
  isDma : bool;
  baudRate : CyU3PUartBaudrate_t;
  stopBit : CyU3PUartStopBit_t;
  parity : CyU3PUartParity_t
}.

Inductive CyU3PUSBSetDescType_t : Type :=
| CY_U3P_USB_SET_SS_DEVICE_DESCR
| CY_U3P_USB_SET_HS_DEVICE_DESCR
| CY_U3P_USB_SET_DEVQUAL_DESCR
| CY_U3P_USB_SET_FS_CONFIG_DESCR
| CY_U3P_USB_SET_HS_CONFIG_DESCR
| CY_U3P_USB_SET_STRING_DESCR
| CY_U3P_USB_SET_SS_CONFIG_DESCR
| CY_U3P_USB_SET_SS_BOS_DESCR.

(** The descriptor arrays the example declares elsewhere, by name. *)
Inductive Descriptor : Type :=
| CyFxUSB20DeviceDscr
| CyFxUSBBOSDscr
| CyFxUSBHSConfigDscr
| CyFxUSBFSConfigDscr
| CyFxUSBStringLangIDDscr
| CyFxUSBManufactureDscr
| CyFxUSBProductDscr.

Inductive UsbCallback : Type :=
| CbCyFxUVCApplnUSBSetupCB
| CbCyFxUVCApplnUSBEventCB
| CbCyFxApplnLPMRqtCB.

Inductive InitCall : Type :=
| CallUartInit (st : Z)
| CallUartSetConfig (config : CyU3PUartConfig_t) (st : Z)
| CallUartTxSetBlockXfer (txSize : Z) (st : Z)
| CallDebugInit (destSckId : CyU3PDmaSocketId_t) (traceLevel : Z) (st : Z)
| CallDebugPreamble (sendPreamble : bool)
| CallUsbStart (st : Z)
| CallUsbRegisterSetupCallback (callback : UsbCallback) (fastEnum : bool)
| CallUsbRegisterEventCallback (callback : UsbCallback)
| CallUsbRegisterLPMRequestCallback (callback : UsbCallback)
| CallUsbSetDesc (desc_type : CyU3PUSBSetDescType_t) (desc_index : Z)
    (desc : Descriptor) (st : Z)
| CallSetEpConfig (ep : Z) (cfg : CyU3PEpConfig_t) (st : Z)
| CallConnectState (connect ssEnable : bool) (st : Z)
| CallDebugPrint (priority : Z) (st : Z)
| CallErrorHandler (apiRetStatus : Z).

(** What the surroundings answer during the initialisation: the result of
    every call whose status is checked, and the value found in the field
    [streams] of the local [endPointConfig], which [CyFxUVCApplnInit]
    passes on without having assigned it. *)
Record InitEnv : Type := mkInitEnv {
  init_UartInit : Z;
  init_UartSetConfig : Z;
  init_UartTxSetBlockXfer : Z;
  init_DebugInit : Z;
  init_UsbStart : Z;
  init_UsbSetDesc : CyU3PUSBSetDescType_t -> Z -> Z;
  init_SetEpConfig : Z;
  init_ConnectState : Z;
  init_streams : Z
}.

(** The calls made, and whether the code came back from them ([false]:
    it is inside [CyFxAppErrorHandler]). *)
Definition Init : Type := list InitCall * bool.

Definition init_ret : Init := ([], true).

Definition init_call (c : InitCall) : Init := ([c], true).

Definition init_bind (m k : Init) : Init :=
  if snd m then (fst m ++ fst k, snd k) else m.

Notation "m ;> k" := (init_bind m k)
  (at level 100, k at level 200, right associativity).

(* Application error handler (lines 106-121): loops indefinitely. The
   sleeps of its loop are the steps of [PcErrorHandler]. *)
Definition CyFxAppErrorHandler (apiRetStatus : Z) : Init :=
  ([CallErrorHandler apiRetStatus], false).

Definition on_failure (apiRetStatus : Z) (handler : Init) : Init :=
  if negb (apiRetStatus =? CY_U3P_SUCCESS) then handler else init_ret.

(** Further constants of cyfxuvcinmem.h and of the SDK's cyu3dma.h used
    by the initialisation. *)
Class cyfxuvcinmem_init_h : Type := {
  CY_FX_EP_CONTROL_STATUS : Z;
  CY_U3P_LPP_SOCKET_UART_CONS : Z
}.

Section Entry.

Context {h : cyfxuvcinmem_h} {i : cyfxuvcinmem_init_h}.

(* This function initializes the debug module for the UVC application *)
Definition CyFxUVCApplnDebugInit (ie : InitEnv) : Init :=
  (* Initialize the UART for printing debug messages *)
  init_call (CallUartInit (init_UartInit ie)) ;>
  on_failure (init_UartInit ie) (CyFxAppErrorHandler (init_UartInit ie)) ;>
  (* Set the UART configuration *)
  init_call (CallUartSetConfig
               (mkUartConfig true false false true CY_U3P_UART_BAUDRATE_115200
                  CY_U3P_UART_ONE_STOP_BIT CY_U3P_UART_NO_PARITY)
               (init_UartSetConfig ie)) ;>
  on_failure (init_UartSetConfig ie)
    (CyFxAppErrorHandler (init_UartSetConfig ie)) ;>
  (* Set the UART transfer *)
  init_call (CallUartTxSetBlockXfer 0xFFFFFFFF (init_UartTxSetBlockXfer ie)) ;>
  on_failure (init_UartTxSetBlockXfer ie)
    (CyFxAppErrorHandler (init_UartTxSetBlockXfer ie)) ;>
  (* Initialize the debug application *)
  init_call (CallDebugInit (SocketId CY_U3P_LPP_SOCKET_UART_CONS) 8
               (init_DebugInit ie)) ;>
  on_failure (init_DebugInit ie) (CyFxAppErrorHandler (init_DebugInit ie)) ;>
  (* Disable the debug print header. *)
  init_call (CallDebugPreamble false).

(** One checked [CyU3PUsbSetDesc] of [CyFxUVCApplnInit]. *)
Definition set_desc (ie : InitEnv) (desc_type : CyU3PUSBSetDescType_t)
    (desc_index : Z) (desc : Descriptor) : Init :=
  let apiRetStatus := init_UsbSetDesc ie desc_type desc_index in
  init_call (CallUsbSetDesc desc_type desc_index desc apiRetStatus) ;>
  on_failure apiRetStatus
    (init_call (CallDebugPrint 4 apiRetStatus) ;>
     CyFxAppErrorHandler apiRetStatus).

(* This function initializes the USB Module, creates event group, sets the
   enumeration descriptors, configures the Endpoints and configures the DMA
   module for the UVC Application *)
Definition CyFxUVCApplnInit (ie : InitEnv) : Init :=
  (* Start the USB functionality *)
  init_call (CallUsbStart (init_UsbStart ie)) ;>
  on_failure (init_UsbStart ie)
    (init_call (CallDebugPrint 4 (init_UsbStart ie)) ;>
     CyFxAppErrorHandler (init_UsbStart ie)) ;>
  init_call (CallUsbRegisterSetupCallback CbCyFxUVCApplnUSBSetupCB true) ;>
  (* Setup the callback to handle the USB events *)
  init_call (CallUsbRegisterEventCallback CbCyFxUVCApplnUSBEventCB) ;>
  (* Register a callback to handle LPM requests from the USB 3.0 host. *)
  init_call (CallUsbRegisterLPMRequestCallback CbCyFxApplnLPMRqtCB) ;>
  (* Set the USB Enumeration descriptors *)
  set_desc ie CY_U3P_USB_SET_HS_DEVICE_DESCR 0 CyFxUSB20DeviceDscr ;>
  set_desc ie CY_U3P_USB_SET_SS_BOS_DESCR 0 CyFxUSBBOSDscr ;>
  set_desc ie CY_U3P_USB_SET_HS_CONFIG_DESCR 0 CyFxUSBHSConfigDscr ;>
  set_desc ie CY_U3P_USB_SET_FS_CONFIG_DESCR 0 CyFxUSBFSConfigDscr ;>
  set_desc ie CY_U3P_USB_SET_STRING_DESCR 0 CyFxUSBStringLangIDDscr ;>
  set_desc ie CY_U3P_USB_SET_STRING_DESCR 1 CyFxUSBManufactureDscr ;>
  set_desc ie CY_U3P_USB_SET_STRING_DESCR 2 CyFxUSBProductDscr ;>
  (* Control status interrupt endpoint configuration *)
  init_call (CallSetEpConfig CY_FX_EP_CONTROL_STATUS
               (mkEpConfig true CY_U3P_USB_EP_INTR (u16 (init_streams ie)) 64 1 1)
               (init_SetEpConfig ie)) ;>
  on_failure (init_SetEpConfig ie)
    (init_call (CallDebugPrint 4 (init_SetEpConfig ie)) ;>
     CyFxAppErrorHandler (init_SetEpConfig ie)) ;>
  (* Connect the USB pins and enable super speed operation *)
  init_call (CallConnectState true false (init_ConnectState ie)) ;>
  on_failure (init_ConnectState ie)
    (init_call (CallDebugPrint 4 (init_ConnectState ie)) ;>
     CyFxAppErrorHandler (init_ConnectState ie)).

(** Whether both initialisation functions come back to the thread. *)
Definition init_returns (ie : InitEnv) : bool :=
  snd (CyFxUVCApplnDebugInit ie ;> CyFxUVCApplnInit ie).

(* Entry function for the UVC application thread (lines 634-790). *)

(** The thread from its entry, for as many steps as the surroundings
    answer: the calls of the two initialisation functions, then the trace
    and the state of the thread. The locals start as declared; a thread
    whose initialisation failed stands in the error handler. *)
Definition UVCAppThread_Entry (ie : InitEnv) (es : list Env) (g : Globals)
    : list InitCall * (list Event * Thread) :=
  let l := mkLocals 0 0 0 0 CY_U3P_SUCCESS in
  (* Initialize the Debug Module; Initialize the UVC Application *)
  let init := CyFxUVCApplnDebugInit ie ;> CyFxUVCApplnInit ie in
  (fst init,
   run es (mkThread (if snd init then PcForTop else PcErrorHandler) g l)).

End Entry.

Definition example_init_h : cyfxuvcinmem_init_h := {|
  CY_FX_EP_CONTROL_STATUS := 0x82;
  CY_U3P_LPP_SOCKET_UART_CONS := 0x0103
|}.

(** An initialisation in which every call succeeds. *)
Definition init_ok : InitEnv :=
  mkInitEnv CY_U3P_SUCCESS CY_U3P_SUCCESS CY_U3P_SUCCESS CY_U3P_SUCCESS
    CY_U3P_SUCCESS (fun _ _ => CY_U3P_SUCCESS) CY_U3P_SUCCESS CY_U3P_SUCCESS 0.

(** The checked results of the initialisation, in the order of the calls. *)
Definition init_statuses (ie : InitEnv) : list Z :=
  [init_UartInit ie; init_UartSetConfig ie; init_UartTxSetBlockXfer ie;
   init_DebugInit ie; init_UsbStart ie;
   init_UsbSetDesc ie CY_U3P_USB_SET_HS_DEVICE_DESCR 0;
   init_UsbSetDesc ie CY_U3P_USB_SET_SS_BOS_DESCR 0;
   init_UsbSetDesc ie CY_U3P_USB_SET_HS_CONFIG_DESCR 0;
   init_UsbSetDesc ie CY_U3P_USB_SET_FS_CONFIG_DESCR 0;
   init_UsbSetDesc ie CY_U3P_USB_SET_STRING_DESCR 0;
   init_UsbSetDesc ie CY_U3P_USB_SET_STRING_DESCR 1;
   init_UsbSetDesc ie CY_U3P_USB_SET_STRING_DESCR 2;
   init_SetEpConfig ie; init_ConnectState ie].

(** The result of a call whose status the initialisation checks. *)
Definition call_status (c : InitCall) : option Z :=
  match c with
  | CallUartInit st | CallUartSetConfig _ st | CallUartTxSetBlockXfer _ st
  | CallDebugInit _ _ st | CallUsbStart st | CallUsbSetDesc _ _ _ st
  | CallSetEpConfig _ _ st | CallConnectState _ _ st => Some st
  | _ => None
  end.

(** The statuses up to the first failure, that one included. *)
Fixpoint upto_first_failure (sts : list Z) : list Z :=
  match sts with
  | [] => []
  | st :: sts' =>
      st :: (if st =? CY_U3P_SUCCESS then upto_first_failure sts' else [])
  end.

Fixpoint first_failure (sts : list Z) : option Z :=
  match sts with
  | [] => None
  | st :: sts' => if st =? CY_U3P_SUCCESS then first_failure sts' else Some st
  end.

Definition is_error_path (c : InitCall) : bool :=
  match c with CallErrorHandler _ | CallDebugPrint _ _ => true | _ => false end.

(** ** Facts about the register arithmetic *)

Lemma land_mask_bound (v m n : Z) :
  0 <= n -> Z.land m (Z.ones n) = m -> 0 <= Z.land v m < 2 ^ n.
Proof.
  intros Hn Hm. rewrite <- Hm, Z.land_assoc, Z.land_ones by lia.
  apply Z.mod_pos_bound. apply Z.pow_pos_nonneg; lia.
Qed.

Lemma epm_dsize_range (epm : Z) : 0 <= epm_dsize epm < 2 ^ 16.
Proof.
  unfold epm_dsize, FX3_USB2_INEP_EPM_DSIZE_MASK, FX3_USB2_INEP_EPM_DSIZE_POS.
  pose proof (land_mask_bound epm 0x07FFF800 27 ltac:(lia) eq_refl) as Hb.
  rewrite Z.shiftr_div_pow2 by lia.
  change (2 ^ 27) with (2 ^ 11 * 2 ^ 16) in Hb.
  split.
  - apply Z.div_pos; lia.
  - apply Z.div_lt_upper_bound; lia.
Qed.

Lemma raw_mult_eq (epm : Z) :
  raw_mult epm = if epm_ready epm then epm_dsize epm / 1024 + 1 else 0.
Proof.
  unfold raw_mult, epm_ready. fold (epm_dsize epm).
  destruct (negb _); [|reflexivity].
  pose proof (epm_dsize_range epm) as Hr.
  unfold u8. apply Z.mod_small.
  assert (0 <= epm_dsize epm / 1024 < 64); [|lia].
  split; [apply Z.div_pos; lia | apply Z.div_lt_upper_bound; lia].
Qed.

Lemma min_max_clamp (x : Z) : CY_U3P_MAX (CY_U3P_MIN x 3) 1 = clamp x 1 3.
Proof.
  unfold CY_U3P_MAX, CY_U3P_MIN, clamp.
  destruct (3 <? x) eqn:H3.
  - apply Z.ltb_lt in H3. simpl. lia.
  - apply Z.ltb_ge in H3. destruct (1 <? x) eqn:H1.
    + apply Z.ltb_lt in H1. lia.
    + apply Z.ltb_ge in H1. lia.
Qed.

Lemma clamp_range (x : Z) : 1 <= clamp x 1 3 <= 3.
Proof. unfold clamp. lia. Qed.

Lemma small_cases (m : Z) : 0 <= m <= 3 -> m = 0 \/ m = 1 \/ m = 2 \/ m = 3.
Proof. lia. Qed.

(** The MULT field of the word written back is the clamped multiplier. *)
Lemma mult_field_written (v m : Z) :
  0 <= m <= 3 ->
  mult_field (u32 (Z.lor (Z.land v (Z.lnot FX3_USB2_INEP_MULT_MASK))
                         (Z.shiftl m FX3_USB2_INEP_MULT_POS))) = m.
Proof.
  intros Hm. unfold mult_field, u32.
  rewrite <- Z.land_ones by lia.
  rewrite <- Z.land_assoc.
  change (Z.land (Z.ones 32) FX3_USB2_INEP_MULT_MASK) with FX3_USB2_INEP_MULT_MASK.
  rewrite Z.land_lor_distr_l, <- Z.land_assoc.
  change (Z.land (Z.lnot FX3_USB2_INEP_MULT_MASK) FX3_USB2_INEP_MULT_MASK) with 0.
  rewrite Z.land_0_r, Z.lor_0_l.
  destruct (small_cases m Hm) as [-> | [-> | [-> | ->]]]; reflexivity.
Qed.

(** Every bit of the 32-bit word outside the MULT field is written back
    as it was read. *)
Lemma other_bits_written (v m : Z) :
  0 <= m <= 3 ->
  Z.land (u32 (Z.lor (Z.land v (Z.lnot FX3_USB2_INEP_MULT_MASK))
                     (Z.shiftl m FX3_USB2_INEP_MULT_POS)))
         (u32 (Z.lnot FX3_USB2_INEP_MULT_MASK))
  = Z.land v (u32 (Z.lnot FX3_USB2_INEP_MULT_MASK)).
Proof.
  intros Hm. unfold u32 at 1.
  rewrite <- Z.land_ones by lia.
  rewrite <- Z.land_assoc.
  change (Z.land (Z.ones 32) (u32 (Z.lnot FX3_USB2_INEP_MULT_MASK)))
    with (u32 (Z.lnot FX3_USB2_INEP_MULT_MASK)).
  rewrite Z.land_lor_distr_l, <- Z.land_assoc.
  change (Z.land (Z.lnot FX3_USB2_INEP_MULT_MASK) (u32 (Z.lnot FX3_USB2_INEP_MULT_MASK)))
    with (u32 (Z.lnot FX3_USB2_INEP_MULT_MASK)).
  replace (Z.land (Z.shiftl m FX3_USB2_INEP_MULT_POS)
                  (u32 (Z.lnot FX3_USB2_INEP_MULT_MASK))) with 0.
  - apply Z.lor_0_r.
  - destruct (small_cases m Hm) as [-> | [-> | [-> | ->]]]; reflexivity.
Qed.

Lemma set_mult_cfg (ep : Z) (g : Globals) :
  mmio (CyFxUvcAppSetMultByEpm ep g) (cfg_addr ep)
  = u32 (Z.lor (Z.land (mmio g (cfg_addr ep)) (Z.lnot FX3_USB2_INEP_MULT_MASK))
               (Z.shiftl (clamp (raw_mult (mmio g (epm_addr ep))) 1 3)
                         FX3_USB2_INEP_MULT_POS)).
Proof.
  unfold CyFxUvcAppSetMultByEpm. cbn [mmio]. unfold reg_write.
  rewrite Z.eqb_refl, min_max_clamp. reflexivity.
Qed.

Lemma set_mult_field (ep : Z) (g : Globals) :
  mult_field (mmio (CyFxUvcAppSetMultByEpm ep g) (cfg_addr ep))
  = clamp (raw_mult (mmio g (epm_addr ep))) 1 3.
Proof.
  rewrite set_mult_cfg. apply mult_field_written.
  pose proof (clamp_range (raw_mult (mmio g (epm_addr ep)))). lia.
Qed.

Lemma set_mult_other_bits (ep : Z) (g : Globals) :
  Z.land (mmio (CyFxUvcAppSetMultByEpm ep g) (cfg_addr ep))
         (u32 (Z.lnot FX3_USB2_INEP_MULT_MASK))
  = Z.land (mmio g (cfg_addr ep)) (u32 (Z.lnot FX3_USB2_INEP_MULT_MASK)).
Proof.
  rewrite set_mult_cfg. apply other_bits_written.
  pose proof (clamp_range (raw_mult (mmio g (epm_addr ep)))). lia.
Qed.

Lemma set_mult_frame (ep : Z) (g : Globals) (a : Z) :
  mmio (CyFxUvcAppSetMultByEpm ep g) a
  = if a =? cfg_addr ep then mmio (CyFxUvcAppSetMultByEpm ep g) (cfg_addr ep)
    else mmio g a.
Proof.
  destruct (a =? cfg_addr ep) eqn:Ha.
  - apply Z.eqb_eq in Ha. now subst.
  - unfold CyFxUvcAppSetMultByEpm. cbn [mmio]. unfold reg_write. now rewrite Ha.
Qed.

Lemma code_mult_vs_spec (b : Z) :
  0 <= b ->
  code_mult b =
  if (b mod 1024 =? 0) && (0 <? b) && (b <=? 2048)
  then spec_mult b + 1 else spec_mult b.
Proof.
  intros Hb. unfold code_mult, spec_mult, clamp, ceil_div.
  destruct (b mod 1024 =? 0) eqn:Hm; cbn [andb].
  - apply Z.eqb_eq in Hm.
    destruct (0 <? b) eqn:H0; cbn [andb].
    + apply Z.ltb_lt in H0.
      destruct (b <=? 2048) eqn:H2.
      * apply Z.leb_le in H2.
        assert (b = 1024 \/ b = 2048) as [-> | ->]; [|reflexivity|reflexivity].
        pose proof (Z.div_mod b 1024 ltac:(lia)). lia.
      * apply Z.leb_gt in H2.
        Z.div_mod_to_equations. lia.
    + apply Z.ltb_ge in H0. assert (b = 0) as -> by lia. reflexivity.
  - apply Z.eqb_neq in Hm.
    replace ((b + 1024 - 1) / 1024) with (b / 1024 + 1); [reflexivity|].
    Z.div_mod_to_equations. lia.
Qed.

(** ** The MULT adapter and the DMA callback *)

(** C1, as the specification words it, fails: with the endpoint memory
    ready and exactly 1024 bytes in it, the code programs 2 where
    clamp(ceil(1024 / 1024), 1, 3) is 1. *)
Lemma C1_counterexample :
  epm_ready (mmio (globals_with_epm 0x40200000 1) (epm_addr 3)) = true /\
  epm_dsize (mmio (globals_with_epm 0x40200000 1) (epm_addr 3)) = 1024 /\
  mult_field (mmio (CyFxUvcAppSetMultByEpm 3 (globals_with_epm 0x40200000 1))
                   (cfg_addr 3))
  <> spec_mult (epm_dsize (mmio (globals_with_epm 0x40200000 1) (epm_addr 3))).
Proof. vm_compute. repeat split; discriminate. Qed.

(** C1 (amended): the MULT field written by [CyFxUvcAppSetMultByEpm] is
    clamp(floor(bytes_ready / 1024) + 1, 1, 3) when the endpoint memory is
    ready and 1 when it is not; it is always between 1 and 3. It is one
    more than the specification's clamp(ceil(bytes_ready / 1024), 1, 3)
    exactly at 1024 and 2048 bytes and equal to it elsewhere; 2500 bytes
    give 3 and 0 bytes give 1. *)
Theorem C1_mult_written (ep : Z) (g : Globals) :
  let epm := mmio g (epm_addr ep) in
  let bytes_ready := epm_dsize epm in
  let programmed :=
    mult_field (mmio (CyFxUvcAppSetMultByEpm ep g) (cfg_addr ep)) in
  programmed = (if epm_ready epm then code_mult bytes_ready else 1) /\
  1 <= programmed <= 3 /\
  code_mult bytes_ready =
    (if (bytes_ready mod 1024 =? 0) && (0 <? bytes_ready) && (bytes_ready <=? 2048)
     then spec_mult bytes_ready + 1 else spec_mult bytes_ready) /\
  code_mult 2500 = 3 /\ spec_mult 2500 = 3 /\ code_mult 0 = 1.
Proof.
  intros epm bytes_ready programmed.
  assert (Hp : programmed = clamp (raw_mult epm) 1 3) by apply set_mult_field.
  split; [|split; [|split]].
  - rewrite Hp, raw_mult_eq. destruct (epm_ready epm); reflexivity.
  - rewrite Hp. apply clamp_range.
  - apply code_mult_vs_spec. apply epm_dsize_range.
  - repeat split.
Qed.

(** C9: [CyFxUvcAppSetMultByEpm] is a read-modify-write of the endpoint
    configuration register: the word written is a 32-bit word whose bits
    outside FX3_USB2_INEP_MULT_MASK are those read at the start of the
    call (as an equation of masked words and bit by bit), no other
    register is written, and the header is left alone. *)
Theorem C9_only_mult_field_changes (ep : Z) (g : Globals) (a i : Z) :
  let old := mmio g (cfg_addr ep) in
  let new := mmio (CyFxUvcAppSetMultByEpm ep g) (cfg_addr ep) in
  let others := u32 (Z.lnot FX3_USB2_INEP_MULT_MASK) in
  Z.land new others = Z.land old others /\
  Z.testbit new i && Z.testbit others i = Z.testbit old i && Z.testbit others i /\
  Z.land others FX3_USB2_INEP_MULT_MASK = 0 /\
  Z.lor others FX3_USB2_INEP_MULT_MASK = 2 ^ 32 - 1 /\
  0 <= new < 2 ^ 32 /\
  mmio (CyFxUvcAppSetMultByEpm ep g) a = (if a =? cfg_addr ep then new else mmio g a) /\
  glUVCHeader (CyFxUvcAppSetMultByEpm ep g) = glUVCHeader g.
Proof.
  intros old new others.
  assert (Hland : Z.land new others = Z.land old others)
    by apply set_mult_other_bits.
  split; [exact Hland|].
  split; [rewrite <- !Z.land_spec; now rewrite Hland|].
  split; [reflexivity|]. split; [reflexivity|].
  split; [|split; [apply set_mult_frame | reflexivity]].
  subst new. rewrite set_mult_cfg. unfold u32. apply Z.mod_pos_bound. lia.
Qed.

Section AdapterInUse.

Context {h : cyfxuvcinmem_h}.

Lemma hw_sample_epm (e : Env) (g : Globals) :
  mmio (hw_sample e g) (epm_addr ep_video) = env_epm e.
Proof. unfold hw_sample. cbn [mmio]. unfold reg_write. now rewrite Z.eqb_refl. Qed.

(** The commit block, by cases on the comparison it makes. *)
Lemma commit_chunk_spec (e : Env) (g : Globals) (buffer : list Z) (cl expected : Z) :
  commit_chunk e g buffer cl expected =
  if is_high_speed (env_speed e) && negb (CurrentMultVal g =? expected) then
    let g' := CyFxUvcAppSetMultByEpm ep_video (hw_sample e g) in
    (retune_events buffer cl (env_commit_status e) (mmio g' (cfg_addr ep_video)),
     g', env_commit_status e)
  else ([EvCommitBuffer buffer cl (env_commit_status e)], g, env_commit_status e).
Proof.
  unfold commit_chunk, retune_events.
  destruct (is_high_speed (env_speed e)); [|reflexivity].
  destruct (negb (CurrentMultVal g =? expected)); reflexivity.
Qed.

Lemma commit_chunk_status (e : Env) (g : Globals) (buffer : list Z) (cl expected : Z) :
  snd (commit_chunk e g buffer cl expected) = env_commit_status e.
Proof.
  rewrite commit_chunk_spec.
  destruct (is_high_speed (env_speed e) && negb (CurrentMultVal g =? expected));
    reflexivity.
Qed.

Lemma commit_chunk_header (e : Env) (g : Globals) (buffer : list Z) (cl expected : Z) :
  glUVCHeader (snd (fst (commit_chunk e g buffer cl expected))) = glUVCHeader g.
Proof.
  rewrite commit_chunk_spec.
  destruct (is_high_speed (env_speed e) && negb (CurrentMultVal g =? expected));
    reflexivity.
Qed.

Lemma commit_chunk_commits (e : Env) (g : Globals) (buffer : list Z) (cl expected : Z) :
  commits (fst (fst (commit_chunk e g buffer cl expected)))
  = [(cl, eof_marked buffer)].
Proof.
  rewrite commit_chunk_spec.
  destruct (is_high_speed (env_speed e) && negb (CurrentMultVal g =? expected));
    reflexivity.
Qed.

Lemma commit_chunk_copies (e : Env) (g : Globals) (buffer : list Z) (cl expected : Z) :
  copies (fst (fst (commit_chunk e g buffer cl expected))) = [].
Proof.
  rewrite commit_chunk_spec.
  destruct (is_high_speed (env_speed e) && negb (CurrentMultVal g =? expected));
    reflexivity.
Qed.

(** C7: the adapter stores the value computed before the clamp in
    [CurrentMultVal] (0 when the endpoint memory is not ready, otherwise
    floor(bytes / 1024) + 1, which can exceed 3) and writes the clamped
    value to the hardware; the producer's comparison before a commit is
    against the stored raw value: after the adapter ran, a commit at
    Hi-Speed retunes exactly when that raw value differs from the
    multiplier the commit stands for. *)
Theorem C7_raw_value_cached (g : Globals) (e : Env) (buffer : list Z)
    (cl expected : Z) :
  let epm := mmio g (epm_addr ep_video) in
  let g' := CyFxUvcAppSetMultByEpm ep_video g in
  let raw := if epm_ready epm then epm_dsize epm / 1024 + 1 else 0 in
  CurrentMultVal g' = raw /\
  mult_field (mmio g' (cfg_addr ep_video)) = clamp raw 1 3 /\
  retunes (fst (fst (commit_chunk e g' buffer cl expected)))
  = is_high_speed (env_speed e) && negb (raw =? expected).
Proof.
  intros epm g' raw.
  assert (Hraw : CurrentMultVal g' = raw) by apply raw_mult_eq.
  split; [exact Hraw|]. split.
  - subst g' raw. rewrite set_mult_field, raw_mult_eq. reflexivity.
  - rewrite commit_chunk_spec, Hraw.
    destruct (is_high_speed (env_speed e) && negb (raw =? expected)); reflexivity.
Qed.

(** An instance of C7: with the endpoint memory not ready the adapter
    programs 1 and stores 0, so at Hi-Speed the next commit standing for
    multiplier 1 retunes although 1 is programmed. *)
Example raw_zero_retunes :
  let g' := CyFxUvcAppSetMultByEpm (ep_video (h := scenario_h))
              (globals_with_epm 0 1) in
  CurrentMultVal g' = 0 /\
  mult_field (mmio g' (cfg_addr 3)) = 1 /\
  retunes (fst (fst (commit_chunk (h := scenario_h)
                       (env_ok CY_U3P_HIGH_SPEED 0) g' [] 100 1))) = true.
Proof. vm_compute. repeat split. Qed.

(** C3, as the specification words it, fails: on a consume event at
    Hi-Speed the callback changes the endpoint configuration register
    (here from 0 to 0x3000, MULT = 3, for 2500 bytes ready). *)
Lemma C3_counterexample :
  mmio (CyFxUVCAppDmaCallback (h := scenario_h) CY_U3P_DMA_CB_CONS_EVENT
          CY_U3P_HIGH_SPEED (globals_with_epm 0x404E2000 1))
       (cfg_addr (ep_video (h := scenario_h)))
  <> mmio (globals_with_epm 0x404E2000 1) (cfg_addr (ep_video (h := scenario_h))).
Proof. vm_compute. discriminate. Qed.

(** C3 (amended): on a consume event at Hi-Speed the callback re-samples
    the occupancy, stores the raw multiplier in [CurrentMultVal] and itself
    writes the clamped multiplier into the MULT field of the endpoint
    configuration register, leaving the other bits, the other registers
    and the header alone; for any other event or speed it changes nothing.
    The producer writes that register only between setting and clearing
    NAK: a commit block either is the NAK sequence around one write or
    holds the commit alone. *)
Theorem C3_callback_writes_mult (type : CyU3PDmaCbType_t) (speed : CyU3PUSBSpeed_t)
    (g : Globals) (a : Z) (e : Env) (buffer : list Z) (cl expected : Z) :
  let g' := CyFxUVCAppDmaCallback type speed g in
  let epm := mmio g (epm_addr ep_video) in
  let others := u32 (Z.lnot FX3_USB2_INEP_MULT_MASK) in
  (if is_cons_event type && is_high_speed speed then
     CurrentMultVal g' = raw_mult epm /\
     mult_field (mmio g' (cfg_addr ep_video)) = clamp (raw_mult epm) 1 3 /\
     Z.land (mmio g' (cfg_addr ep_video)) others
       = Z.land (mmio g (cfg_addr ep_video)) others /\
     mmio g' a = (if a =? cfg_addr ep_video then mmio g' (cfg_addr ep_video)
                  else mmio g a) /\
     glUVCHeader g' = glUVCHeader g
   else g' = g) /\
  let tr := fst (fst (commit_chunk e g buffer cl expected)) in
  (if retunes tr then
     tr = retune_events buffer cl (env_commit_status e)
            (mmio (snd (fst (commit_chunk e g buffer cl expected))) (cfg_addr ep_video))
   else tr = [EvCommitBuffer buffer cl (env_commit_status e)]).
Proof.
  intros g' epm others. split.
  - subst g'. unfold CyFxUVCAppDmaCallback.
    destruct (is_cons_event type); [|reflexivity].
    destruct (is_high_speed speed); [|reflexivity].
    cbn [andb]. split; [reflexivity|].
    split; [apply set_mult_field|].
    split; [apply set_mult_other_bits|].
    split; [apply set_mult_frame | reflexivity].
  - rewrite commit_chunk_spec.
    destruct (is_high_speed (env_speed e) && negb (CurrentMultVal g =? expected));
      reflexivity.
Qed.

End AdapterInUse.

(** ** The header stamper *)

Lemma u8_land (y m : Z) : 0 <= m < 2 ^ 8 -> Z.land (u8 y) m = Z.land y m.
Proof.
  intros Hm. unfold u8. rewrite <- Z.land_ones by lia.
  rewrite <- Z.land_assoc. f_equal.
  rewrite Z.land_comm, Z.land_ones by lia. apply Z.mod_small. lia.
Qed.

Lemma land_lxor_disjoint (x f m : Z) :
  Z.land f m = 0 -> Z.land (Z.lxor x f) m = Z.land x m.
Proof.
  intros Hd. apply Z.bits_inj. intros n.
  rewrite !Z.land_spec, Z.lxor_spec.
  assert (Hn : Z.testbit f n && Z.testbit m n = false)
    by (rewrite <- Z.land_spec, Hd; apply Z.bits_0).
  destruct (Z.testbit x n), (Z.testbit f n), (Z.testbit m n);
    simpl in *; congruence.
Qed.

Lemma land_lor_same (x m : Z) : Z.land (Z.lor x m) m = m.
Proof.
  apply Z.bits_inj. intros n. rewrite Z.land_spec, Z.lor_spec.
  destruct (Z.testbit x n), (Z.testbit m n); reflexivity.
Qed.

Lemma commits_app `{h : cyfxuvcinmem_h} (tr1 tr2 : list Event) :
  commits (tr1 ++ tr2) = commits tr1 ++ commits tr2.
Proof.
  induction tr1 as [|ev tr1 IH]; [reflexivity|].
  destruct ev; simpl; rewrite ?IH; reflexivity.
Qed.

Lemma copies_app (tr1 tr2 : list Event) :
  copies (tr1 ++ tr2) = copies tr1 ++ copies tr2.
Proof.
  induction tr1 as [|ev tr1 IH]; [reflexivity|].
  destruct ev; simpl; rewrite ?IH; reflexivity.
Qed.

Section Stamper.

Context {h : cyfxuvcinmem_h}.

Lemma addheader_eof (g : Globals) (buffer : list Z) :
  CyFxUVCAddHeader g buffer CY_FX_UVC_HEADER_EOF =
  let copied :=
    CyU3PMemCopy buffer 0 (take (Z.to_nat CY_FX_UVC_MAX_HEADER) (glUVCHeader g)) in
  ({| mmio := mmio g; CurrentMultVal := CurrentMultVal g;
      glUVCHeader :=
        <[1%nat := u8 (Z.lxor (glUVCHeader g !!! 1%nat) CY_FX_UVC_HEADER_FRAME_ID)]>
          (glUVCHeader g) |},
   <[1%nat := u8 (Z.lor (copied !!! 1%nat) CY_FX_UVC_HEADER_EOF)]> copied).
Proof. unfold CyFxUVCAddHeader. now rewrite Z.eqb_refl. Qed.

Lemma addheader_other (g : Globals) (buffer : list Z) (frameInd : Z) :
  frameInd <> CY_FX_UVC_HEADER_EOF ->
  CyFxUVCAddHeader g buffer frameInd =
  (g, CyU3PMemCopy buffer 0 (take (Z.to_nat CY_FX_UVC_MAX_HEADER) (glUVCHeader g))).
Proof.
  intros Hne. unfold CyFxUVCAddHeader.
  apply Z.eqb_neq in Hne. now rewrite Hne.
Qed.

Lemma addheader_keeps_mult (g : Globals) (buffer : list Z) (frameInd : Z) :
  CurrentMultVal (fst (CyFxUVCAddHeader g buffer frameInd)) = CurrentMultVal g /\
  mmio (fst (CyFxUVCAddHeader g buffer frameInd)) = mmio g.
Proof.
  unfold CyFxUVCAddHeader. destruct (frameInd =? CY_FX_UVC_HEADER_EOF); now split.
Qed.

Lemma copied_length (g : Globals) (buffer : list Z) :
  2 <= CY_FX_UVC_MAX_HEADER -> (2 <= length (glUVCHeader g))%nat ->
  (2 <= length (CyU3PMemCopy buffer 0
                  (take (Z.to_nat CY_FX_UVC_MAX_HEADER) (glUVCHeader g))))%nat.
Proof.
  intros Hh Hl. unfold CyU3PMemCopy.
  rewrite !length_app, !length_take. lia.
Qed.

Lemma copied_byte1 (g : Globals) (buffer : list Z) :
  2 <= CY_FX_UVC_MAX_HEADER -> (2 <= length (glUVCHeader g))%nat ->
  CyU3PMemCopy buffer 0 (take (Z.to_nat CY_FX_UVC_MAX_HEADER) (glUVCHeader g))
    !!! 1%nat = glUVCHeader g !!! 1%nat.
Proof.
  intros Hh Hl. unfold CyU3PMemCopy. simpl.
  rewrite lookup_total_app_l by (rewrite length_take; lia).
  apply lookup_total_take_lt. lia.
Qed.

Lemma eof_marked_frame (g : Globals) (buffer : list Z) :
  wf_sizes -> wf_bits -> header_ok g ->
  fst (CyFxUVCAddHeader g buffer CY_FX_UVC_HEADER_FRAME) = g /\
  eof_marked (snd (CyFxUVCAddHeader g buffer CY_FX_UVC_HEADER_FRAME)) = false.
Proof.
  intros (Hh & _) (Hne & _) (Hl & Hb).
  rewrite addheader_other by exact Hne. split; [reflexivity|].
  unfold eof_marked. cbn [snd]. rewrite copied_byte1 by assumption.
  now rewrite Hb.
Qed.

Lemma eof_marked_eof (g : Globals) (buffer : list Z) :
  wf_sizes -> wf_bits -> header_ok g ->
  eof_marked (snd (CyFxUVCAddHeader g buffer CY_FX_UVC_HEADER_EOF)) = true /\
  header_ok (fst (CyFxUVCAddHeader g buffer CY_FX_UVC_HEADER_EOF)) /\
  glUVCHeader (fst (CyFxUVCAddHeader g buffer CY_FX_UVC_HEADER_EOF))
  = <[1%nat := u8 (Z.lxor (glUVCHeader g !!! 1%nat) CY_FX_UVC_HEADER_FRAME_ID)]>
      (glUVCHeader g).
Proof.
  intros (Hh & _) (_ & Heof & Hfid & _) (Hl & Hb).
  rewrite addheader_eof. cbn [fst snd glUVCHeader].
  split; [|split; [|reflexivity]].
  - unfold eof_marked.
    rewrite list_lookup_total_insert_eq by (apply copied_length; assumption).
    rewrite u8_land, land_lor_same by lia.
    apply negb_true_iff, Z.eqb_neq. lia.
  - split; cbn [glUVCHeader].
    + rewrite length_insert. exact Hl.
    + rewrite list_lookup_total_insert_eq by lia.
      rewrite u8_land, land_lxor_disjoint by (assumption || lia). exact Hb.
Qed.

End Stamper.

(** ** The producer loop *)

Lemma u32_small (x : Z) : 0 <= x < 2 ^ 32 -> u32 x = x.
Proof. apply Z.mod_small. Qed.

Lemma u16_small (x : Z) : 0 <= x < 2 ^ 16 -> u16 x = x.
Proof. apply Z.mod_small. Qed.

Section Producer.

Context {h : cyfxuvcinmem_h}.

(** The body on a chunk that is not the last of its frame. *)
Lemma loop_body_mid_eq (e : Env) (g : Globals) (l : Locals) (len : Z) :
  env_get_status e = CY_U3P_SUCCESS ->
  glVidFrameLen !! Z.to_nat (frameIndex l) = Some len ->
  (u32 (frameOffset l + payload) <? len) = true ->
  loop_body e g l =
  let src := u32 (frameStart l + frameOffset l) in
  let stamped :=
    CyFxUVCAddHeader g
      (CyU3PMemCopy (env_buffer e) (Z.to_nat CY_FX_UVC_MAX_HEADER)
         (frame_bytes src (u32 payload)))
      CY_FX_UVC_HEADER_FRAME in
  let cl := u16 CY_FX_UVC_STREAM_BUF_SIZE in
  let r := commit_chunk e (fst stamped) (snd stamped) cl
             CY_FX_EP_ISO_VIDEO_PKTS_COUNT in
  let tr := [EvGetBuffer CY_U3P_SUCCESS;
             EvMemCopy CY_FX_UVC_MAX_HEADER src (u32 payload);
             EvThreadSleep 3] ++ fst (fst r) in
  if negb (snd r =? CY_U3P_SUCCESS) then
    Break tr (snd (fst r))
      (mkLocals (frameStart l) (frameIndex l) (frameOffset l) cl (snd r))
  else
    Continue tr (snd (fst r))
      (mkLocals (frameStart l) (frameIndex l) (u32 (frameOffset l + payload))
         cl (snd r)).
Proof.
  intros Hget Hlen Hmid. unfold payload in *.
  unfold loop_body. cbv zeta. rewrite Hget, Z.eqb_refl, Hlen, Hmid. cbn [negb].
  destruct (CyFxUVCAddHeader _ _ _) as [g1 b1].
  destruct (commit_chunk _ _ _ _ _) as [[tr g2] st].
  reflexivity.
Qed.

(** The body on the last chunk of a frame. *)
Lemma loop_body_last_eq (e : Env) (g : Globals) (l : Locals) (len : Z) :
  env_get_status e = CY_U3P_SUCCESS ->
  glVidFrameLen !! Z.to_nat (frameIndex l) = Some len ->
  (u32 (frameOffset l + payload) <? len) = false ->
  loop_body e g l =
  let src := u32 (frameStart l + frameOffset l) in
  let count := u32 (len - frameOffset l) in
  let stamped :=
    CyFxUVCAddHeader g
      (CyU3PMemCopy (env_buffer e) (Z.to_nat CY_FX_UVC_MAX_HEADER)
         (frame_bytes src count))
      CY_FX_UVC_HEADER_EOF in
  let cl := u16 (count + CY_FX_UVC_MAX_HEADER) in
  let r := commit_chunk e (fst stamped) (snd stamped) cl (cl / 1024 + 1) in
  let tr := [EvGetBuffer CY_U3P_SUCCESS;
             EvMemCopy CY_FX_UVC_MAX_HEADER src count;
             EvThreadSleep 3] ++ fst (fst r) in
  if negb (snd r =? CY_U3P_SUCCESS) then
    Break tr (snd (fst r))
      (mkLocals (frameStart l) (frameIndex l) (frameOffset l) cl (snd r))
  else
    Continue tr (snd (fst r))
      (mkLocals
         (if u32 CY_FX_UVC_MAX_VID_FRAMES <=? u32 (frameIndex l + 1)
          then 0 else u32 (frameStart l + len))
         (next_index (frameIndex l)) 0 cl (snd r)).
Proof.
  intros Hget Hlen Hmid. unfold payload, next_index in *.
  unfold loop_body. cbv zeta. rewrite Hget, Z.eqb_refl, Hlen, Hmid. cbn [negb].
  destruct (CyFxUVCAddHeader _ _ _) as [g1 b1].
  destruct (commit_chunk _ _ _ _ _) as [[tr g2] st].
  cbn [fst snd].
  destruct (negb (st =? CY_U3P_SUCCESS)); [reflexivity|].
  destruct (u32 CY_FX_UVC_MAX_VID_FRAMES <=? u32 (frameIndex l + 1)); reflexivity.
Qed.

Lemma header_ok_ext (g1 g2 : Globals) :
  glUVCHeader g1 = glUVCHeader g2 -> header_ok g2 -> header_ok g1.
Proof. unfold header_ok. now intros ->. Qed.

(** A chunk with more than a buffer's payload remaining. *)
Lemma mid_chunk (e : Env) (g : Globals) (l : Locals) (len : Z) :
  wf_sizes -> wf_bits -> wf_len len -> header_ok g ->
  env_get_status e = CY_U3P_SUCCESS ->
  env_commit_status e = CY_U3P_SUCCESS ->
  glVidFrameLen !! Z.to_nat (frameIndex l) = Some len ->
  0 <= frameOffset l ->
  payload < len - frameOffset l ->
  exists tr g',
    loop_body e g l =
      Continue tr g'
        (mkLocals (frameStart l) (frameIndex l) (frameOffset l + payload)
           CY_FX_UVC_STREAM_BUF_SIZE CY_U3P_SUCCESS) /\
    commits tr = [(CY_FX_UVC_STREAM_BUF_SIZE, false)] /\
    copies tr = [payload] /\
    glUVCHeader g' = glUVCHeader g.
Proof.
  intros Hs Hb Hw Hok Hget Hcommit Hlen Hoff Hlt.
  pose proof Hs as (Hh2 & Hhb & Hb16). pose proof Hw as (Hl0 & Hl32).
  assert (Hp : payload = CY_FX_UVC_STREAM_BUF_SIZE - CY_FX_UVC_MAX_HEADER)
    by reflexivity.
  assert (Hmid : (u32 (frameOffset l + payload) <? len) = true).
  { rewrite u32_small by lia. apply Z.ltb_lt. lia. }
  rewrite (loop_body_mid_eq e g l len Hget Hlen Hmid). cbv zeta.
  rewrite commit_chunk_status, Hcommit, Z.eqb_refl. cbn [negb].
  rewrite (u32_small (frameOffset l + payload)), (u32_small payload),
    (u16_small CY_FX_UVC_STREAM_BUF_SIZE) by lia.
  eexists _, _. split; [reflexivity|].
  destruct (eof_marked_frame g
              (CyU3PMemCopy (env_buffer e) (Z.to_nat CY_FX_UVC_MAX_HEADER)
                 (frame_bytes (u32 (frameStart l + frameOffset l)) payload))
              Hs Hb Hok) as [Hfst Hmark].
  split; [|split].
  - rewrite commits_app, commit_chunk_commits, Hmark. reflexivity.
  - rewrite copies_app, commit_chunk_copies. reflexivity.
  - rewrite commit_chunk_header, Hfst. reflexivity.
Qed.

(** A chunk with at most a buffer's payload remaining. *)
Lemma last_chunk (e : Env) (g : Globals) (l : Locals) (len : Z) :
  wf_sizes -> wf_bits -> wf_len len -> header_ok g ->
  env_get_status e = CY_U3P_SUCCESS ->
  env_commit_status e = CY_U3P_SUCCESS ->
  glVidFrameLen !! Z.to_nat (frameIndex l) = Some len ->
  0 <= frameOffset l <= len ->
  len - frameOffset l <= payload ->
  exists tr g',
    loop_body e g l =
      Continue tr g'
        (mkLocals
           (if u32 CY_FX_UVC_MAX_VID_FRAMES <=? u32 (frameIndex l + 1)
            then 0 else u32 (frameStart l + len))
           (next_index (frameIndex l)) 0
           (len - frameOffset l + CY_FX_UVC_MAX_HEADER) CY_U3P_SUCCESS) /\
    commits tr = [(len - frameOffset l + CY_FX_UVC_MAX_HEADER, true)] /\
    copies tr = [len - frameOffset l] /\
    glUVCHeader g' =
      <[1%nat := u8 (Z.lxor (glUVCHeader g !!! 1%nat) CY_FX_UVC_HEADER_FRAME_ID)]>
        (glUVCHeader g) /\
    header_ok g'.
Proof.
  intros Hs Hb Hw Hok Hget Hcommit Hlen Hoff Hle.
  pose proof Hs as (Hh2 & Hhb & Hb16). pose proof Hw as (Hl0 & Hl32).
  assert (Hp : payload = CY_FX_UVC_STREAM_BUF_SIZE - CY_FX_UVC_MAX_HEADER)
    by reflexivity.
  assert (Hmid : (u32 (frameOffset l + payload) <? len) = false).
  { rewrite u32_small by lia. apply Z.ltb_ge. lia. }
  rewrite (loop_body_last_eq e g l len Hget Hlen Hmid). cbv zeta.
  rewrite commit_chunk_status, Hcommit, Z.eqb_refl. cbn [negb].
  rewrite (u32_small (len - frameOffset l)) by lia.
  rewrite (u16_small (len - frameOffset l + CY_FX_UVC_MAX_HEADER)) by lia.
  eexists _, _. split; [reflexivity|].
  destruct (eof_marked_eof g
              (CyU3PMemCopy (env_buffer e) (Z.to_nat CY_FX_UVC_MAX_HEADER)
                 (frame_bytes (u32 (frameStart l + frameOffset l))
                    (len - frameOffset l)))
              Hs Hb Hok) as (Hmark & Hok' & Hhdr).
  split; [|split; [|split]].
  - rewrite commits_app, commit_chunk_commits, Hmark. reflexivity.
  - rewrite copies_app, commit_chunk_copies. reflexivity.
  - rewrite commit_chunk_header, Hhdr. reflexivity.
  - eapply header_ok_ext; [apply commit_chunk_header | exact Hok'].
Qed.

Lemma step_while_continue (e : Env) (g g' : Globals) (l l' : Locals)
    (tr : list Event) :
  env_active e = true ->
  loop_body e g l = Continue tr g' l' ->
  thread_step e (mkThread PcWhile g l) = (tr, mkThread PcWhile g' l').
Proof. intros Ha Hb. unfold thread_step. cbn [pc globals locals]. now rewrite Ha, Hb. Qed.

Lemma run_cons (e : Env) (es : list Env) (t : Thread) :
  run (e :: es) t =
  (fst (thread_step e t) ++ fst (run es (snd (thread_step e t))),
   snd (run es (snd (thread_step e t)))).
Proof.
  cbn [run]. destruct (thread_step e t) as [tr1 t1].
  cbn [fst snd]. destruct (run es t1) as [tr2 t2]. reflexivity.
Qed.

Lemma run_app (es1 es2 : list Env) (t : Thread) :
  run (es1 ++ es2) t =
  (fst (run es1 t) ++ fst (run es2 (snd (run es1 t))),
   snd (run es2 (snd (run es1 t)))).
Proof.
  revert t. induction es1 as [|e es1 IH]; intros t.
  - cbn [app run fst snd]. now destruct (run es2 t).
  - rewrite <- app_comm_cons, !run_cons, IH. cbn [fst snd].
    now rewrite app_assoc.
Qed.

(** A whole frame: [m] full buffers, then the end-of-frame chunk. *)
Lemma run_frame (m : nat) :
  forall (es : list Env) (g : Globals) (l : Locals) (len : Z),
  wf_sizes -> wf_bits -> wf_len len ->
  length es = S m -> Forall good es -> header_ok g ->
  glVidFrameLen !! Z.to_nat (frameIndex l) = Some len ->
  0 <= frameOffset l <= len ->
  len - frameOffset l <= (Z.of_nat m + 1) * payload ->
  Z.of_nat m * payload < len - frameOffset l \/ m = 0%nat ->
  exists tr g' l',
    run es (mkThread PcWhile g l) = (tr, mkThread PcWhile g' l') /\
    commits tr =
      repeat (CY_FX_UVC_STREAM_BUF_SIZE, false) m ++
      [(len - frameOffset l - Z.of_nat m * payload + CY_FX_UVC_MAX_HEADER, true)] /\
    copies tr =
      repeat payload m ++ [len - frameOffset l - Z.of_nat m * payload] /\
    glUVCHeader g' =
      <[1%nat := u8 (Z.lxor (glUVCHeader g !!! 1%nat) CY_FX_UVC_HEADER_FRAME_ID)]>
        (glUVCHeader g) /\
    header_ok g' /\
    frameOffset l' = 0 /\
    frameIndex l' = next_index (frameIndex l) /\
    frameStart l' =
      (if u32 CY_FX_UVC_MAX_VID_FRAMES <=? u32 (frameIndex l + 1)
       then 0 else u32 (frameStart l + len)).
Proof.
  induction m as [|m IH];
    intros es g l len Hs Hb Hw Hlen Hgood Hok Hlook Hoff Hup Hlow;
    destruct es as [|e es]; try discriminate;
    inversion Hgood as [|? ? (Hact & Hget & Hcommit) Hgood']; subst.
  - destruct es; [|discriminate].
    destruct (last_chunk e g l len Hs Hb Hw Hok Hget Hcommit Hlook Hoff)
      as (tr & g' & Hbody & Hc & Hp & Hh & Hok'); [lia|].
    exists tr, g'. eexists.
    rewrite run_cons, (step_while_continue _ _ _ _ _ _ Hact Hbody).
    cbn [run fst snd]. rewrite app_nil_r.
    split; [reflexivity|].
    cbn [repeat app frameOffset frameIndex frameStart].
    replace (len - frameOffset l - Z.of_nat 0 * payload)
      with (len - frameOffset l) by lia.
    rewrite Hc, Hp. repeat (split; [assumption || reflexivity|]). reflexivity.
  - assert (Hpay : 0 < payload) by (destruct Hs as (? & ? & ?); unfold payload; lia).
    assert (Hm : 0 <= Z.of_nat m * payload) by (apply Z.mul_nonneg_nonneg; lia).
    rewrite Nat2Z.inj_succ in Hup, Hlow.
    destruct Hlow as [Hlow | ?]; [|discriminate].
    destruct (mid_chunk e g l len Hs Hb Hw Hok Hget Hcommit Hlook)
      as (tr1 & g1 & Hbody & Hc1 & Hp1 & Hh1); [lia | lia |].
    destruct (IH es g1
                (mkLocals (frameStart l) (frameIndex l) (frameOffset l + payload)
                   CY_FX_UVC_STREAM_BUF_SIZE CY_U3P_SUCCESS) len)
      as (tr2 & g' & l' & Hrun & Hc2 & Hp2 & Hh2 & Hok' & Ho & Hi & Hst);
      try assumption.
    + simpl in Hlen. lia.
    + eapply header_ok_ext; [exact Hh1 | exact Hok].
    + cbn [frameOffset]. lia.
    + cbn [frameOffset]. lia.
    + cbn [frameOffset]. left. lia.
    + exists (tr1 ++ tr2), g', l'.
      rewrite run_cons, (step_while_continue _ _ _ _ _ _ Hact Hbody).
      cbn [fst snd]. rewrite Hrun. cbn [fst snd].
      split; [reflexivity|].
      rewrite commits_app, copies_app, Hc1, Hc2, Hp1, Hp2, Hh2, Hh1.
      cbn [frameOffset frameIndex frameStart] in *.
      rewrite Nat2Z.inj_succ.
      replace (len - frameOffset l - Z.succ (Z.of_nat m) * payload)
        with (len - (frameOffset l + payload) - Z.of_nat m * payload) by lia.
      repeat (split; [assumption || reflexivity|]). assumption.
Qed.

Lemma mid_count_bounds (len : Z) :
  0 < payload -> 0 <= len ->
  0 <= mid_count len /\
  len <= (mid_count len + 1) * payload /\
  (mid_count len * payload < len \/ mid_count len = 0).
Proof.
  intros Hp Hl. unfold mid_count.
  destruct (len <=? 0) eqn:H0.
  - apply Z.leb_le in H0. lia.
  - apply Z.leb_gt in H0. Z.div_mod_to_equations. nia.
Qed.

(** Chunk [k] of a frame is followed by more of the frame exactly when
    more than a buffer's payload remains at its start. *)
Lemma mid_count_spec (len k : Z) :
  0 < payload -> 0 <= len -> 0 <= k ->
  payload < len - k * payload <-> k < mid_count len.
Proof.
  intros Hp Hl Hk. unfold mid_count.
  destruct (len <=? 0) eqn:H0.
  - apply Z.leb_le in H0. nia.
  - apply Z.leb_gt in H0. Z.div_mod_to_equations. nia.
Qed.

Lemma sum_lengths_app (a b : list (Z * bool)) :
  sum_lengths (a ++ b) = sum_lengths a + sum_lengths b.
Proof.
  unfold sum_lengths. induction a as [|x a IH]; [reflexivity|].
  cbn [app map fold_right]. rewrite IH. lia.
Qed.

Lemma sum_lengths_repeat (x : Z) (b : bool) (n : nat) :
  sum_lengths (repeat (x, b) n) = Z.of_nat n * x.
Proof.
  unfold sum_lengths. induction n as [|n IH]; [reflexivity|].
  cbn [repeat map fold_right fst]. rewrite IH. lia.
Qed.

Lemma sum_frame_commits (len : Z) :
  0 < payload -> 0 <= len ->
  sum_lengths (frame_commits len) = CY_FX_UVC_MAX_HEADER * chunk_count len + len.
Proof.
  intros Hp Hl. unfold frame_commits, chunk_count.
  destruct (mid_count_bounds len Hp Hl) as (Hn & _).
  rewrite sum_lengths_app, sum_lengths_repeat, Z2Nat.id by exact Hn.
  unfold sum_lengths. cbn [map fold_right fst]. unfold payload. lia.
Qed.

(** A frame from its first byte on. *)
Lemma run_one_frame (es : list Env) (g : Globals) (l : Locals) (len : Z) :
  wf_sizes -> wf_bits -> wf_len len -> header_ok g ->
  glVidFrameLen !! Z.to_nat (frameIndex l) = Some len ->
  frameOffset l = 0 ->
  Z.of_nat (length es) = chunk_count len ->
  Forall good es ->
  exists tr g' l',
    run es (mkThread PcWhile g l) = (tr, mkThread PcWhile g' l') /\
    commits tr = frame_commits len /\
    copies tr =
      repeat payload (Z.to_nat (mid_count len)) ++ [len - mid_count len * payload] /\
    glUVCHeader g' =
      <[1%nat := u8 (Z.lxor (glUVCHeader g !!! 1%nat) CY_FX_UVC_HEADER_FRAME_ID)]>
        (glUVCHeader g) /\
    header_ok g' /\
    frameOffset l' = 0 /\
    frameIndex l' = next_index (frameIndex l).
Proof.
  intros Hs Hb Hw Hok Hlook Hoff Hn Hgood.
  assert (Hp : 0 < payload) by (destruct Hs as (? & ? & ?); unfold payload; lia).
  destruct (mid_count_bounds len Hp (proj1 Hw)) as (Hm0 & Hup & Hlow).
  destruct (run_frame (Z.to_nat (mid_count len)) es g l len)
    as (tr & g' & l' & Hrun & Hc & Hcp & Hh & Hok' & Ho & Hi & _);
    try assumption.
  - unfold chunk_count in Hn. lia.
  - rewrite Hoff. destruct Hw. lia.
  - rewrite Hoff, Z2Nat.id by lia. lia.
  - rewrite Hoff, Z2Nat.id by lia. destruct Hlow as [?|Hz]; [left; lia|].
    right. rewrite Hz. reflexivity.
  - exists tr, g', l'. rewrite Hoff, Z2Nat.id, Z.sub_0_r in Hc, Hcp by lia.
    repeat (split; [assumption|]). assumption.
Qed.

(** C4: for a frame of the playlist streamed from its first byte with
    every DMA call succeeding, the producer makes [chunk_count len] passes.
    The chunks before the last are those that start with more than
    (buffer size - header size) bytes remaining: each copies exactly that
    many payload bytes and commits the full buffer size without the
    end-of-frame mark. The last chunk copies the remaining bytes and
    commits them plus the header size with the mark. The committed lengths
    sum to header size * chunk count + frame length, only the last chunk
    is marked, and the cursor stands at the start of the next frame. *)
Theorem C4_frame_chunking (es : list Env) (g : Globals) (l : Locals) (len : Z) :
  wf_sizes -> wf_bits -> wf_len len -> header_ok g ->
  glVidFrameLen !! Z.to_nat (frameIndex l) = Some len ->
  frameOffset l = 0 ->
  Z.of_nat (length es) = chunk_count len ->
  Forall good es ->
  let n := mid_count len in
  let remaining := len - n * payload in
  exists tr g' l',
    run es (mkThread PcWhile g l) = (tr, mkThread PcWhile g' l') /\
    copies tr = repeat payload (Z.to_nat n) ++ [remaining] /\
    commits tr =
      repeat (CY_FX_UVC_STREAM_BUF_SIZE, false) (Z.to_nat n) ++
      [(remaining + CY_FX_UVC_MAX_HEADER, true)] /\
    (forall k, 0 <= k -> payload < len - k * payload <-> k < n) /\
    0 <= remaining <= payload /\
    sum_lengths (commits tr) = CY_FX_UVC_MAX_HEADER * chunk_count len + len /\
    map snd (commits tr) = repeat false (Z.to_nat n) ++ [true] /\
    frameOffset l' = 0 /\
    frameIndex l' = next_index (frameIndex l).
Proof.
  intros Hs Hb Hw Hok Hlook Hoff Hn Hgood n remaining.
  assert (Hp : 0 < payload) by (destruct Hs as (? & ? & ?); unfold payload; lia).
  destruct (mid_count_bounds len Hp (proj1 Hw)) as (Hm0 & Hup & Hlow).
  destruct (run_one_frame es g l len Hs Hb Hw Hok Hlook Hoff Hn Hgood)
    as (tr & g' & l' & Hrun & Hc & Hcp & _ & _ & Ho & Hi).
  exists tr, g', l'.
  split; [exact Hrun|]. split; [exact Hcp|]. split; [exact Hc|].
  split; [intros k Hk; apply mid_count_spec; [exact Hp | apply Hw | exact Hk]|].
  split; [subst n remaining; destruct Hw; lia|].
  split; [rewrite Hc; apply sum_frame_commits; [exact Hp | apply Hw]|].
  split; [|split; assumption].
  rewrite Hc. unfold frame_commits. rewrite map_app. f_equal.
  fold n. induction (Z.to_nat n) as [|k IH]; [reflexivity|].
  cbn [repeat map snd]. now rewrite IH.
Qed.

End Producer.

(** ** The scenario of the specification *)

Lemma example_sizes (lens : list Z) : wf_sizes (h := example_h lens).
Proof. unfold wf_sizes. cbn. lia. Qed.

Lemma example_bits (lens : list Z) : wf_bits (h := example_h lens).
Proof. unfold wf_bits. cbn. repeat split; lia. Qed.

Lemma example_len (lens : list Z) (len : Z) :
  0 <= len < 2 ^ 31 -> wf_len (h := example_h lens) len.
Proof. unfold wf_len, payload. cbn. lia. Qed.

Lemma example_header_ok (lens : list Z) (epm current : Z) :
  header_ok (h := example_h lens) (globals_with_epm epm current).
Proof. unfold header_ok. cbn. split; [lia | reflexivity]. Qed.

Lemma env_ok_good (speed : CyU3PUSBSpeed_t) (epm : Z) : good (env_ok speed epm).
Proof. repeat split. Qed.

Lemma C4_frame_chunking_witness :
  exists tr g' l',
    run (h := scenario_h) (repeat (env_ok CY_U3P_HIGH_SPEED 0x404E2000) 5)
      (mkThread PcWhile (globals_with_epm 0 1) (mkLocals 0 0 0 0 0))
    = (tr, mkThread PcWhile g' l') /\
    copies tr = [1000; 1000; 1000; 1000; 1000] /\
    commits (h := scenario_h) tr =
      [(1012, false); (1012, false); (1012, false); (1012, false); (1012, true)] /\
    sum_lengths (commits (h := scenario_h) tr) = 12 * 5 + 5000.
Proof.
  destruct (C4_frame_chunking (h := scenario_h)
              (repeat (env_ok CY_U3P_HIGH_SPEED 0x404E2000) 5)
              (globals_with_epm 0 1) (mkLocals 0 0 0 0 0) 5000
              (example_sizes _) (example_bits _)
              (example_len _ 5000 ltac:(lia))
              (example_header_ok _ 0 1) eq_refl eq_refl eq_refl
              ltac:(repeat constructor))
    as (tr & g' & l' & Hrun & Hcp & Hc & _ & _ & Hsum & _).
  exists tr, g', l'. repeat split; assumption.
Defined.

(** ** Frame after frame *)

Section Playlist.

Context {h : cyfxuvcinmem_h}.

Lemma frame_commits_length (len : Z) :
  0 < payload -> 0 <= len ->
  Z.of_nat (length (frame_commits len)) = chunk_count len.
Proof.
  intros Hp Hl. destruct (mid_count_bounds len Hp Hl) as (Hn & _).
  unfold frame_commits, chunk_count.
  rewrite length_app, repeat_length. cbn [length]. lia.
Qed.

Lemma index_lookup (i : Z) :
  wf_table -> Forall wf_len glVidFrameLen ->
  0 <= i < CY_FX_UVC_MAX_VID_FRAMES ->
  exists len, glVidFrameLen !! Z.to_nat i = Some len /\ wf_len len.
Proof.
  intros (Hmax & Hlen) Hall Hi.
  destruct (lookup_lt_is_Some_2 glVidFrameLen (Z.to_nat i)) as [len Hlook]; [lia|].
  exists len. split; [exact Hlook|].
  rewrite Forall_lookup in Hall. exact (Hall _ _ Hlook).
Qed.

Lemma next_index_range (i : Z) :
  wf_table -> 0 <= i < CY_FX_UVC_MAX_VID_FRAMES ->
  0 <= next_index i < CY_FX_UVC_MAX_VID_FRAMES.
Proof.
  intros (Hmax & _) Hi. unfold next_index.
  rewrite !u32_small by lia.
  destruct (CY_FX_UVC_MAX_VID_FRAMES <=? i + 1) eqn:Hc.
  - lia.
  - apply Z.leb_gt in Hc. lia.
Qed.

(** The playlist index wraps modulo the playlist length. *)
Lemma next_index_mod (i : Z) :
  wf_table -> 0 <= i < CY_FX_UVC_MAX_VID_FRAMES ->
  next_index i = (i + 1) mod CY_FX_UVC_MAX_VID_FRAMES.
Proof.
  intros (Hmax & _) Hi. unfold next_index.
  rewrite !u32_small by lia.
  destruct (CY_FX_UVC_MAX_VID_FRAMES <=? i + 1) eqn:Hc.
  - apply Z.leb_le in Hc.
    assert (i + 1 = CY_FX_UVC_MAX_VID_FRAMES) as -> by lia.
    now rewrite Z.mod_same by lia.
  - apply Z.leb_gt in Hc. now rewrite Z.mod_small by lia.
Qed.

(** [n] frames in playlist order, each from its first byte to its last. *)
Lemma run_playlist (n : nat) :
  forall (es : list Env) (g : Globals) (l : Locals),
  wf_sizes -> wf_bits -> wf_table -> Forall wf_len glVidFrameLen ->
  header_ok g ->
  frameOffset l = 0 ->
  0 <= frameIndex l < CY_FX_UVC_MAX_VID_FRAMES ->
  length es = length (playlist_commits n (frameIndex l)) ->
  Forall good es ->
  exists tr g' l',
    run es (mkThread PcWhile g l) = (tr, mkThread PcWhile g' l') /\
    commits tr = playlist_commits n (frameIndex l) /\
    glUVCHeader g' !!! 1%nat =
      Nat.iter n (fun x => u8 (Z.lxor x CY_FX_UVC_HEADER_FRAME_ID))
        (glUVCHeader g !!! 1%nat) /\
    header_ok g' /\
    frameOffset l' = 0 /\
    frameIndex l' = index_after n (frameIndex l).
Proof.
  induction n as [|n IH];
    intros es g l Hs Hb Ht Hall Hok Hoff Hi Hlen Hgood.
  - destruct es; [|discriminate].
    exists [], g, l. destruct l. cbn in *. repeat split; try assumption.
    + apply Hok.
    + apply Hok.
  - assert (Hp : 0 < payload)
      by (destruct Hs as (? & ? & ?); unfold payload; lia).
    destruct (index_lookup _ Ht Hall Hi) as (len & Hlook & Hw).
    cbn [playlist_commits index_after] in *. rewrite Hlook in *.
    rewrite length_app in Hlen.
    pose proof (frame_commits_length len Hp (proj1 Hw)) as Hfc.
    set (k := length (frame_commits len)) in *.
    rewrite <- (take_drop k es) in Hgood |- *.
    apply Forall_app in Hgood as [Hg1 Hg2].
    assert (Hk : length (take k es) = k) by (rewrite length_take; lia).
    destruct (run_one_frame (take k es) g l len Hs Hb Hw Hok Hlook Hoff)
      as (tr1 & g1 & l1 & Hrun1 & Hc1 & _ & Hh1 & Hok1 & Ho1 & Hi1);
      [lia | exact Hg1 |].
    destruct (IH (drop k es) g1 l1 Hs Hb Ht Hall Hok1 Ho1)
      as (tr2 & g' & l' & Hrun2 & Hc2 & Hh2 & Hok' & Ho' & Hi');
      [rewrite Hi1; now apply next_index_range
      |rewrite Hi1, length_drop; lia
      |exact Hg2|].
    exists (tr1 ++ tr2), g', l'.
    rewrite run_app, Hrun1. cbn [fst snd]. rewrite Hrun2. cbn [fst snd].
    split; [reflexivity|].
    rewrite commits_app, Hc1, Hc2, Hi1.
    split; [reflexivity|].
    split; [|split; [exact Hok'|split; [exact Ho'|now rewrite Hi', Hi1]]].
    rewrite Hh2, Hh1, list_lookup_total_insert_eq by apply Hok.
    now rewrite Nat.iter_succ_r.
Qed.

(** Toggling the frame id [n] times leaves a byte that depends on the
    parity of [n] alone. *)
Lemma u8_lxor (x f : Z) : u8 (Z.lxor x f) = Z.lxor (u8 x) (u8 f).
Proof.
  unfold u8. rewrite <- !Z.land_ones by lia.
  apply Z.bits_inj. intros i.
  rewrite !Z.land_spec, !Z.lxor_spec, !Z.land_spec.
  destruct (Z.testbit x i), (Z.testbit f i), (Z.testbit (Z.ones 8) i); reflexivity.
Qed.

Lemma u8_idem (x : Z) : u8 (u8 x) = u8 x.
Proof. unfold u8. apply Z.mod_mod. lia. Qed.

Lemma iter_toggle (n : nat) (x : Z) :
  u8 x = x ->
  Nat.iter n (fun x => u8 (Z.lxor x CY_FX_UVC_HEADER_FRAME_ID)) x = toggled n x.
Proof.
  intros Hx. unfold toggled.
  assert (H2 : forall m,
    Nat.iter (2 * m) (fun x => u8 (Z.lxor x CY_FX_UVC_HEADER_FRAME_ID)) x = x).
  { induction m as [|m IHm]; [reflexivity|].
    replace (2 * S m)%nat with (S (S (2 * m))) by lia.
    rewrite !Nat.iter_succ, IHm, !u8_lxor, !u8_idem, Hx.
    now rewrite Z.lxor_assoc, Z.lxor_nilpotent, Z.lxor_0_r. }
  destruct (Nat.Even_or_Odd n) as [[m ->] | [m ->]].
  - rewrite H2. replace (Nat.odd (2 * m)) with false; [reflexivity|].
    symmetry. rewrite <- Nat.negb_even, Nat.even_mul. reflexivity.
  - replace (2 * m + 1)%nat with (S (2 * m)) by lia.
    rewrite Nat.iter_succ, H2, u8_lxor, Hx.
    rewrite Nat.odd_succ, Nat.even_mul. reflexivity.
Qed.

End Playlist.

(** ** Chunks of particular frames *)

Section Chunks.

Context {h : cyfxuvcinmem_h}.

(** C10: when no payload remains at the start of a pass (a frame of
    length zero, or an offset equal to the frame length) and the DMA calls
    succeed, the pass takes the last-chunk branch: it copies zero bytes,
    commits exactly the header length with the end-of-frame mark, and
    moves the cursor to the start of the next frame. *)
Theorem C10_empty_remainder (e : Env) (g : Globals) (l : Locals) (len : Z) :
  wf_sizes -> wf_bits -> wf_len len -> header_ok g -> good e ->
  glVidFrameLen !! Z.to_nat (frameIndex l) = Some len ->
  frameOffset l = len ->
  exists tr g' l',
    thread_step e (mkThread PcWhile g l) = (tr, mkThread PcWhile g' l') /\
    (u32 (frameOffset l + payload) <? len) = false /\
    copies tr = [0] /\
    commits tr = [(CY_FX_UVC_MAX_HEADER, true)] /\
    frameOffset l' = 0 /\
    frameIndex l' = next_index (frameIndex l) /\
    frameStart l' =
      (if u32 CY_FX_UVC_MAX_VID_FRAMES <=? u32 (frameIndex l + 1)
       then 0 else u32 (frameStart l + len)).
Proof.
  intros Hs Hb Hw Hok (Hact & Hget & Hcommit) Hlook Hoff.
  pose proof Hs as (Hh2 & Hhb & Hb16). pose proof Hw as (Hl0 & Hl32).
  assert (Hp : payload = CY_FX_UVC_STREAM_BUF_SIZE - CY_FX_UVC_MAX_HEADER)
    by reflexivity.
  destruct (last_chunk e g l len Hs Hb Hw Hok Hget Hcommit Hlook)
    as (tr & g' & Hbody & Hc & Hcp & _ & _); [lia | lia |].
  exists tr, g'. eexists.
  split; [exact (step_while_continue _ _ _ _ _ _ Hact Hbody)|].
  split; [rewrite u32_small by lia; apply Z.ltb_ge; lia|].
  rewrite Hc, Hcp, Hoff, Z.sub_diag. cbn [frameOffset frameIndex frameStart].
  repeat split.
Qed.

End Chunks.

Lemma C10_empty_remainder_witness :
  exists tr g' l',
    thread_step (h := example_h [0; 300]) (env_ok CY_U3P_HIGH_SPEED 0)
      (mkThread PcWhile (globals_with_epm 0 1) (mkLocals 0 0 0 0 0))
    = (tr, mkThread PcWhile g' l') /\
    copies tr = [0] /\
    commits (h := example_h [0; 300]) tr = [(12, true)] /\
    frameOffset l' = 0 /\ frameIndex l' = 1.
Proof.
  destruct (C10_empty_remainder (h := example_h [0; 300])
              (env_ok CY_U3P_HIGH_SPEED 0) (globals_with_epm 0 1)
              (mkLocals 0 0 0 0 0) 0
              (example_sizes _) (example_bits _) (example_len _ 0 ltac:(lia))
              (example_header_ok _ 0 1) (env_ok_good _ _) eq_refl eq_refl)
    as (tr & g' & l' & Hstep & _ & Hcp & Hc & Ho & Hi & _).
  exists tr, g', l'. repeat split; assumption.
Defined.

(** ** The three-frame scenario *)

Lemma scenario_table : wf_table (h := scenario_h).
Proof. unfold wf_table. cbn. lia. Qed.

Lemma scenario_frames :
  Forall (wf_len (h := scenario_h)) (glVidFrameLen (cyfxuvcinmem_h := scenario_h)).
Proof. repeat constructor; cbn; lia. Qed.

(** C8, as the specification words it, fails: the fifth chunk of the
    5000-byte frame carries the last 1000 payload bytes and is committed
    with 1012 bytes, not 88. *)
Lemma C8_counterexample :
  commits (h := scenario_h)
    (fst (run (h := scenario_h) (repeat (env_ok CY_U3P_HIGH_SPEED 0x404E2000) 5)
            (mkThread PcWhile (globals_with_epm 0 1) (mkLocals 0 0 0 0 0))))
  = [(1012, false); (1012, false); (1012, false); (1012, false); (1012, true)] /\
  commits (h := scenario_h)
    (fst (run (h := scenario_h) (repeat (env_ok CY_U3P_HIGH_SPEED 0x404E2000) 5)
            (mkThread PcWhile (globals_with_epm 0 1) (mkLocals 0 0 0 0 0))))
    !! 4%nat <> Some (88, true).
Proof. vm_compute. split; [reflexivity | discriminate]. Qed.

(** C8 (amended): for the playlist of 5000, 200 and 10000 bytes with 1000
    payload bytes per buffer and a 12-byte header, frame 0 is committed in
    5 chunks of 1012 bytes (the fifth carries the last 1000 payload bytes
    and the end-of-frame mark), frame 1 in one marked chunk of 212 bytes,
    frame 2 in 10 chunks of 1012 bytes, the tenth marked; the bytes
    committed for each frame are its length plus 12 times its chunk count,
    and the cursor is back at frame 0. *)
Theorem C8_scenario_chunks (es : list Env) (g : Globals) (l : Locals) :
  header_ok (h := scenario_h) g ->
  frameIndex l = 0 -> frameOffset l = 0 ->
  length es = 16%nat -> Forall good es ->
  let frame0 := repeat (1012, false) 4 ++ [(1012, true)] in
  let frame1 := [(212, true)] in
  let frame2 := repeat (1012, false) 9 ++ [(1012, true)] in
  exists tr g' l',
    run (h := scenario_h) es (mkThread PcWhile g l)
      = (tr, mkThread PcWhile g' l') /\
    commits (h := scenario_h) tr = frame0 ++ frame1 ++ frame2 /\
    length frame0 = 5%nat /\ sum_lengths frame0 = 5000 + 12 * 5 /\
    length frame1 = 1%nat /\ sum_lengths frame1 = 200 + 12 * 1 /\
    length frame2 = 10%nat /\ sum_lengths frame2 = 10000 + 12 * 10 /\
    frameIndex l' = 0 /\ frameOffset l' = 0.
Proof.
  intros Hok Hi Ho Hlen Hgood frame0 frame1 frame2.
  destruct (run_playlist (h := scenario_h) 3 es g l
              (example_sizes _) (example_bits _) scenario_table scenario_frames
              Hok Ho)
    as (tr & g' & l' & Hrun & Hc & _ & _ & Ho' & Hi');
    [rewrite Hi; cbn; lia | rewrite Hi, Hlen; reflexivity | exact Hgood |].
  exists tr, g', l'. rewrite Hi in Hc, Hi'.
  split; [exact Hrun|]. split; [rewrite Hc; reflexivity|].
  repeat split; assumption.
Qed.

Lemma C8_scenario_chunks_witness :
  exists tr g' l',
    run (h := scenario_h) (repeat (env_ok CY_U3P_HIGH_SPEED 0x404E2000) 16)
      (mkThread PcWhile (globals_with_epm 0 1) (mkLocals 0 0 0 0 0))
      = (tr, mkThread PcWhile g' l') /\
    commits (h := scenario_h) tr =
      (repeat (1012, false) 4 ++ [(1012, true)]) ++ [(212, true)] ++
      (repeat (1012, false) 9 ++ [(1012, true)]) /\
    frameIndex l' = 0 /\ frameOffset l' = 0.
Proof.
  destruct (C8_scenario_chunks
              (repeat (env_ok CY_U3P_HIGH_SPEED 0x404E2000) 16)
              (globals_with_epm 0 1) (mkLocals 0 0 0 0 0)
              (example_header_ok _ 0 1) eq_refl eq_refl eq_refl
              ltac:(repeat constructor))
    as (tr & g' & l' & Hrun & Hc & _ & _ & _ & _ & _ & _ & Hi & Ho).
  exists tr, g', l'. repeat split; assumption.
Defined.

(** ** The frame id across stamps and frames *)

Section FrameId.

Context {h : cyfxuvcinmem_h}.

Lemma copied_take (g : Globals) (buffer : list Z) :
  length (glUVCHeader g) = Z.to_nat CY_FX_UVC_MAX_HEADER ->
  let copied :=
    CyU3PMemCopy buffer 0 (take (Z.to_nat CY_FX_UVC_MAX_HEADER) (glUVCHeader g)) in
  copied = glUVCHeader g ++ drop (Z.to_nat CY_FX_UVC_MAX_HEADER) buffer.
Proof.
  intros Hl. unfold CyU3PMemCopy. cbn [take app Nat.add].
  rewrite <- Hl, firstn_all. reflexivity.
Qed.

Lemma stamp_all_byte (stamps : list (list Z * Z)) :
  forall g : Globals,
  (2 <= length (glUVCHeader g))%nat ->
  glUVCHeader (stamp_all stamps g) !!! 1%nat =
  Nat.iter (eof_stamps stamps)
    (fun x => u8 (Z.lxor x CY_FX_UVC_HEADER_FRAME_ID)) (glUVCHeader g !!! 1%nat).
Proof.
  induction stamps as [|[buffer frameInd] rest IH]; intros g Hl; [reflexivity|].
  cbn [stamp_all]. unfold eof_stamps. cbn [filter snd].
  destruct (frameInd =? CY_FX_UVC_HEADER_EOF) eqn:Hind.
  - apply Z.eqb_eq in Hind. subst frameInd. cbn [length].
    fold (eof_stamps rest).
    rewrite Nat.iter_succ_r, IH; rewrite addheader_eof; cbn [fst glUVCHeader].
    + now rewrite list_lookup_total_insert_eq by lia.
    + now rewrite length_insert.
  - fold (eof_stamps rest). apply Z.eqb_neq in Hind.
    rewrite addheader_other by exact Hind. cbn [fst]. now apply IH.
Qed.

(** C5: the stamper puts the header template at the start of the buffer
    and leaves the rest of the buffer alone. Only with the end-of-frame
    indication does it change anything else: it toggles the frame id bits
    in the template and sets the end-of-frame bits in the buffer's byte,
    never in the template, whose end-of-frame bits stay as they were.
    After any series of stamps the template's bit-field byte is the
    initial one with the frame id toggled once per end-of-frame stamp, and
    after the reset at the top of the thread's loop and [n] frames streamed
    from first to last byte it is the default byte XOR the frame id when
    [n] is odd, the default byte when [n] is even. *)
Theorem C5_frame_id_toggle (g : Globals) (buffer : list Z) (frameInd : Z)
    (stamps : list (list Z * Z)) (n : nat) (e0 : Env) (es : list Env)
    (l : Locals) :
  wf_sizes -> wf_bits -> wf_table -> Forall wf_len glVidFrameLen ->
  length (glUVCHeader g) = Z.to_nat CY_FX_UVC_MAX_HEADER ->
  u8 (glUVCHeader g !!! 1%nat) = glUVCHeader g !!! 1%nat ->
  length es = length (playlist_commits n 0) -> Forall good es ->
  let hdr := glUVCHeader g in
  let size := Z.to_nat CY_FX_UVC_MAX_HEADER in
  let eof := frameInd =? CY_FX_UVC_HEADER_EOF in
  let g' := fst (CyFxUVCAddHeader g buffer frameInd) in
  let buffer' := snd (CyFxUVCAddHeader g buffer frameInd) in
  take size buffer' =
    (if eof then <[1%nat := u8 (Z.lor (hdr !!! 1%nat) CY_FX_UVC_HEADER_EOF)]> hdr
     else hdr) /\
  drop size buffer' = drop size buffer /\
  glUVCHeader g' =
    (if eof then <[1%nat := Z.lxor (hdr !!! 1%nat) (u8 CY_FX_UVC_HEADER_FRAME_ID)]> hdr
     else hdr) /\
  Z.land (glUVCHeader g' !!! 1%nat) CY_FX_UVC_HEADER_EOF
    = Z.land (hdr !!! 1%nat) CY_FX_UVC_HEADER_EOF /\
  glUVCHeader (stamp_all stamps g) !!! 1%nat
    = toggled (eof_stamps stamps) (hdr !!! 1%nat) /\
  exists tr g'' l'',
    run (e0 :: es) (mkThread PcForTop g l) = (tr, mkThread PcWhile g'' l'') /\
    commits tr = playlist_commits n 0 /\
    glUVCHeader g'' !!! 1%nat = toggled n (u8 CY_FX_UVC_HEADER_DEFAULT_BFH).
Proof.
  intros Hs Hb Ht Hall Hlen Hbyte Hes Hgood hdr size eof g' buffer'.
  pose proof Hs as (Hh2 & _). pose proof Hb as (_ & Heof & Hfid & Hdef).
  assert (Hl2 : (2 <= length hdr)%nat) by (subst hdr; lia).
  pose proof (copied_take g buffer Hlen) as Hcopy. cbv zeta in Hcopy.
  split; [|split; [|split; [|split; [|split]]]].
  - subst buffer' g' eof. unfold CyFxUVCAddHeader.
    destruct (frameInd =? CY_FX_UVC_HEADER_EOF); cbn [snd]; rewrite Hcopy.
    + rewrite insert_app_l by lia.
      rewrite lookup_total_app_l by lia.
      subst size. rewrite <- Hlen.
      rewrite <- (length_insert (glUVCHeader g) 1
                    (u8 (Z.lor (glUVCHeader g !!! 1%nat) CY_FX_UVC_HEADER_EOF))) at 1.
      apply take_app_length.
    + subst size. rewrite <- Hlen. apply take_app_length.
  - subst buffer' g' eof. unfold CyFxUVCAddHeader.
    destruct (frameInd =? CY_FX_UVC_HEADER_EOF); cbn [snd]; rewrite Hcopy.
    + rewrite insert_app_l by lia. subst size. rewrite <- Hlen.
      rewrite <- (length_insert (glUVCHeader g) 1
                    (u8 (Z.lor ((glUVCHeader g ++ drop (length (glUVCHeader g)) buffer)
                                  !!! 1%nat) CY_FX_UVC_HEADER_EOF))) at 1.
      apply drop_app_length.
    + subst size. rewrite <- Hlen. apply drop_app_length.
  - subst g' eof. unfold CyFxUVCAddHeader.
    destruct (frameInd =? CY_FX_UVC_HEADER_EOF); cbn [fst glUVCHeader];
      [|reflexivity].
    now rewrite u8_lxor, Hbyte.
  - subst g' eof. unfold CyFxUVCAddHeader.
    destruct (frameInd =? CY_FX_UVC_HEADER_EOF); cbn [fst glUVCHeader];
      [|reflexivity].
    rewrite list_lookup_total_insert_eq by lia.
    now rewrite u8_land, land_lxor_disjoint by (assumption || lia).
  - rewrite stamp_all_byte by exact Hl2. now apply iter_toggle.
  - rewrite run_cons. cbn [thread_step pc globals locals fst snd app].
    destruct (run_playlist n es
                {| mmio := mmio g; CurrentMultVal := CurrentMultVal g;
                   glUVCHeader :=
                     <[1%nat := u8 CY_FX_UVC_HEADER_DEFAULT_BFH]> (glUVCHeader g) |}
                (mkLocals 0 0 0 (commitLength l) (status l)) Hs Hb Ht Hall)
      as (tr & g'' & l'' & Hrun & Hc & Hh & _); try assumption.
    + split; cbn [glUVCHeader].
      * now rewrite length_insert.
      * rewrite list_lookup_total_insert_eq by exact Hl2.
        now rewrite u8_land by lia.
    + reflexivity.
    + cbn [frameIndex]. destruct Ht. lia.
    + exists tr, g'', l''. rewrite Hrun. cbn [fst snd].
      split; [reflexivity|]. split; [exact Hc|].
      rewrite Hh. cbn [glUVCHeader].
      rewrite list_lookup_total_insert_eq by exact Hl2.
      apply iter_toggle, u8_idem.
Qed.

End FrameId.

(** ** Failures of the DMA calls *)

Section Failures.

Context {h : cyfxuvcinmem_h}.

Lemma halted_forever (es : list Env) (g : Globals) (l : Locals) :
  run es (mkThread PcErrorHandler g l)
  = (repeat (EvThreadSleep 100) (length es), mkThread PcErrorHandler g l).
Proof.
  induction es as [|e es IH]; [reflexivity|].
  rewrite run_cons. cbn [thread_step pc globals locals fst snd].
  rewrite IH. reflexivity.
Qed.

Lemma failing_call_breaks (e : Env) (g : Globals) (l : Locals) (len : Z) :
  glVidFrameLen !! Z.to_nat (frameIndex l) = Some len ->
  env_get_status e <> CY_U3P_SUCCESS \/ env_commit_status e <> CY_U3P_SUCCESS ->
  exists tr g' l',
    loop_body e g l = Break tr g' l' /\
    status l' = (if env_get_status e =? CY_U3P_SUCCESS
                 then env_commit_status e else env_get_status e) /\
    status l' <> CY_U3P_SUCCESS.
Proof.
  intros Hlook Hfail.
  destruct (env_get_status e =? CY_U3P_SUCCESS) eqn:Hget.
  - apply Z.eqb_eq in Hget.
    destruct Hfail as [Hf | Hf]; [contradiction|].
    assert (Hneg : negb (env_commit_status e =? CY_U3P_SUCCESS) = true)
      by now apply negb_true_iff, Z.eqb_neq.
    destruct (u32 (frameOffset l + payload) <? len) eqn:Hmid.
    + rewrite (loop_body_mid_eq e g l len Hget Hlook Hmid). cbv zeta.
      rewrite commit_chunk_status, Hneg. eexists _, _, _.
      split; [reflexivity|]. cbn [status]. now split.
    + rewrite (loop_body_last_eq e g l len Hget Hlook Hmid). cbv zeta.
      rewrite commit_chunk_status, Hneg. eexists _, _, _.
      split; [reflexivity|]. cbn [status]. now split.
  - unfold loop_body. cbv zeta. rewrite Hget. cbn [negb].
    eexists _, _, _. split; [reflexivity|]. cbn [status].
    split; [reflexivity|]. now apply Z.eqb_neq.
Qed.

Lemma commit_chunk_calls (e : Env) (g : Globals) (buffer : list Z)
    (cl expected : Z) :
  filter is_transport_call (fst (fst (commit_chunk e g buffer cl expected)))
  = [EvCommitBuffer buffer cl (env_commit_status e)].
Proof.
  rewrite commit_chunk_spec.
  destruct (is_high_speed (env_speed e) && negb (CurrentMultVal g =? expected));
    reflexivity.
Qed.

(** The DMA calls of a pass in which one of them fails: the failing call
    is the last one, and each call is made once. *)
Lemma failing_pass_calls (e : Env) (g : Globals) (l : Locals) (len : Z) :
  glVidFrameLen !! Z.to_nat (frameIndex l) = Some len ->
  env_get_status e <> CY_U3P_SUCCESS \/ env_commit_status e <> CY_U3P_SUCCESS ->
  match loop_body e g l with
  | Break tr g' l' =>
      if env_get_status e =? CY_U3P_SUCCESS then
        exists buffer,
          filter is_transport_call tr
          = [EvGetBuffer CY_U3P_SUCCESS;
             EvCommitBuffer buffer (commitLength l') (env_commit_status e)]
      else tr = [EvGetBuffer (env_get_status e)] /\ g' = g
  | _ => False
  end.
Proof.
  intros Hlook Hfail.
  destruct (env_get_status e =? CY_U3P_SUCCESS) eqn:Hget.
  - apply Z.eqb_eq in Hget.
    destruct Hfail as [Hf | Hf]; [contradiction|].
    assert (Hneg : negb (env_commit_status e =? CY_U3P_SUCCESS) = true)
      by now apply negb_true_iff, Z.eqb_neq.
    destruct (u32 (frameOffset l + payload) <? len) eqn:Hmid.
    + rewrite (loop_body_mid_eq e g l len Hget Hlook Hmid). cbv zeta.
      rewrite commit_chunk_status, Hneg. cbn [commitLength].
      eexists. cbn [app filter is_transport_call].
      now rewrite commit_chunk_calls.
    + rewrite (loop_body_last_eq e g l len Hget Hlook Hmid). cbv zeta.
      rewrite commit_chunk_status, Hneg. cbn [commitLength].
      eexists. cbn [app filter is_transport_call].
      now rewrite commit_chunk_calls.
  - unfold loop_body. cbv zeta. rewrite Hget. cbn [negb]. now split.
Qed.



(** ** The commit block inside a pass *)

(** C2, as the specification words it, fails: at Hi-Speed, with 3 cached
    and a full buffer standing for 1, the pass commits the buffer before it
    writes the register, and what it writes comes from the endpoint memory
    (2500 bytes ready give 3), not from the commit length. *)
Lemma C2_counterexample :
  CurrentMultVal (globals_with_epm 0 3)
    <> CY_FX_EP_ISO_VIDEO_PKTS_COUNT (cyfxuvcinmem_h := scenario_h) /\
  retunes (outcome_trace
    (loop_body (h := scenario_h) (env_ok CY_U3P_HIGH_SPEED 0x404E2000)
       (globals_with_epm 0 3) (mkLocals 0 0 0 0 0))) = true /\
  write_before_commit (outcome_trace
    (loop_body (h := scenario_h) (env_ok CY_U3P_HIGH_SPEED 0x404E2000)
       (globals_with_epm 0 3) (mkLocals 0 0 0 0 0))) <> true /\
  written_mults (outcome_trace
    (loop_body (h := scenario_h) (env_ok CY_U3P_HIGH_SPEED 0x404E2000)
       (globals_with_epm 0 3) (mkLocals 0 0 0 0 0)))
    <> [CY_FX_EP_ISO_VIDEO_PKTS_COUNT (cyfxuvcinmem_h := scenario_h)].
Proof. vm_compute. repeat split; discriminate. Qed.

(** C2 (amended): in a pass whose buffer was acquired, let the commit
    length stand for CY_FX_EP_ISO_VIDEO_PKTS_COUNT (a full buffer) or for
    commitLength / 1024 + 1 (the last chunk of a frame). At Hi-Speed, when
    the cached [CurrentMultVal] differs from that value, the producer sets
    NAK on the endpoint, busy-waits 10 us, commits the buffer, busy-waits
    20 us, recomputes the multiplier from the endpoint memory occupancy
    (caching the raw value, writing its clamp into the MULT field of the
    endpoint configuration register) and clears NAK. Otherwise it only
    commits the buffer, and neither the registers nor [CurrentMultVal]
    change. *)
Theorem C2_retune_around_commit (e : Env) (g : Globals) (l : Locals) (len : Z) :
  env_get_status e = CY_U3P_SUCCESS ->
  glVidFrameLen !! Z.to_nat (frameIndex l) = Some len ->
  let mid := u32 (frameOffset l + payload) <? len in
  let count := if mid then u32 payload else u32 (len - frameOffset l) in
  let cl := if mid then u16 CY_FX_UVC_STREAM_BUF_SIZE
            else u16 (count + CY_FX_UVC_MAX_HEADER) in
  let implied := if mid then CY_FX_EP_ISO_VIDEO_PKTS_COUNT else cl / 1024 + 1 in
  let before := [EvGetBuffer CY_U3P_SUCCESS;
                 EvMemCopy CY_FX_UVC_MAX_HEADER
                   (u32 (frameStart l + frameOffset l)) count;
                 EvThreadSleep 3] in
  exists buffer g',
    outcome_globals (loop_body e g l) = Some g' /\
    if is_high_speed (env_speed e) && negb (CurrentMultVal g =? implied) then
      outcome_trace (loop_body e g l) =
        before ++ retune_events buffer cl (env_commit_status e)
                    (mmio g' (cfg_addr ep_video)) /\
      CurrentMultVal g' = raw_mult (env_epm e) /\
      mult_field (mmio g' (cfg_addr ep_video)) = clamp (raw_mult (env_epm e)) 1 3
    else
      outcome_trace (loop_body e g l) =
        before ++ [EvCommitBuffer buffer cl (env_commit_status e)] /\
      mmio g' = mmio g /\
      CurrentMultVal g' = CurrentMultVal g.
Proof.
  intros Hget Hlook mid count cl implied before.
  assert (Hcase : forall (stamped : Globals * list Z),
    CurrentMultVal (fst stamped) = CurrentMultVal g ->
    mmio (fst stamped) = mmio g ->
    let r := commit_chunk e (fst stamped) (snd stamped) cl implied in
    if is_high_speed (env_speed e) && negb (CurrentMultVal g =? implied) then
      before ++ fst (fst r) =
        before ++ retune_events (snd stamped) cl (env_commit_status e)
                    (mmio (snd (fst r)) (cfg_addr ep_video)) /\
      CurrentMultVal (snd (fst r)) = raw_mult (env_epm e) /\
      mult_field (mmio (snd (fst r)) (cfg_addr ep_video))
        = clamp (raw_mult (env_epm e)) 1 3
    else
      before ++ fst (fst r) =
        before ++ [EvCommitBuffer (snd stamped) cl (env_commit_status e)] /\
      mmio (snd (fst r)) = mmio g /\
      CurrentMultVal (snd (fst r)) = CurrentMultVal g).
  { intros stamped Hcur Hmmio r. subst r.
    rewrite commit_chunk_spec, Hcur.
    destruct (is_high_speed (env_speed e) && negb (CurrentMultVal g =? implied));
      cbv zeta; cbn [fst snd].
    - split; [reflexivity|]. split.
      + cbn [CyFxUvcAppSetMultByEpm CurrentMultVal]. now rewrite hw_sample_epm.
      + now rewrite set_mult_field, hw_sample_epm.
    - now repeat split. }
  subst mid count cl implied before.
  destruct (u32 (frameOffset l + payload) <? len) eqn:Hmid.
  - rewrite (loop_body_mid_eq e g l len Hget Hlook Hmid). cbv zeta.
    match goal with
    | |- context [commit_chunk e (fst ?s) (snd ?s) ?c ?i] =>
        pose proof (Hcase s (proj1 (addheader_keeps_mult _ _ _))
                      (proj2 (addheader_keeps_mult _ _ _))) as Hc;
        exists (snd s), (snd (fst (commit_chunk e (fst s) (snd s) c i)))
    end.
    cbv zeta in Hc. cbv iota in Hc |- *.
    split.
    + match goal with
      | |- context [if ?b then Break _ _ _ else _] => destruct b
      end; reflexivity.
    + match goal with
      | |- context [if ?b then Break _ _ _ else _] => destruct b
      end; exact Hc.
  - rewrite (loop_body_last_eq e g l len Hget Hlook Hmid). cbv zeta.
    match goal with
    | |- context [commit_chunk e (fst ?s) (snd ?s) ?c ?i] =>
        pose proof (Hcase s (proj1 (addheader_keeps_mult _ _ _))
                      (proj2 (addheader_keeps_mult _ _ _))) as Hc;
        exists (snd s), (snd (fst (commit_chunk e (fst s) (snd s) c i)))
    end.
    cbv zeta in Hc. cbv iota in Hc |- *.
    split.
    + match goal with
      | |- context [if ?b then Break _ _ _ else _] => destruct b
      end; reflexivity.
    + match goal with
      | |- context [if ?b then Break _ _ _ else _] => destruct b
      end; exact Hc.
Qed.

End Failures.

(** ** The theorems at work on the scenario *)

Lemma C5_frame_id_toggle_witness :
  glUVCHeader
    (stamp_all (h := scenario_h)
       [([0; 0], 0); ([0; 0], 2); ([0; 0], 0); ([0; 0], 2); ([0; 0], 2)]
       (globals_with_epm 0 1)) !!! 1%nat = 0x8D /\
  exists tr g'' l'',
    snd (UVCAppThread_Entry (h := scenario_h) (i := example_init_h) init_ok
           (env_ok CY_U3P_HIGH_SPEED 0 ::
            repeat (env_ok CY_U3P_HIGH_SPEED 0x404E2000) 16)
           (globals_with_epm 0 1))
      = (tr, mkThread PcWhile g'' l'') /\
    commits (h := scenario_h) tr = playlist_commits (h := scenario_h) 3 0 /\
    glUVCHeader g'' !!! 1%nat = 0x8D.
Proof.
  destruct (C5_frame_id_toggle (h := scenario_h)
              (globals_with_epm 0 1) (repeat 0 1012) 2
              [([0; 0], 0); ([0; 0], 2); ([0; 0], 0); ([0; 0], 2); ([0; 0], 2)]
              3 (env_ok CY_U3P_HIGH_SPEED 0)
              (repeat (env_ok CY_U3P_HIGH_SPEED 0x404E2000) 16)
              (mkLocals 0 0 0 0 CY_U3P_SUCCESS)
              (example_sizes _) (example_bits _) scenario_table scenario_frames
              eq_refl eq_refl eq_refl ltac:(repeat constructor))
    as (_ & _ & _ & _ & Hstamps & Hrun).
  split; [exact Hstamps | exact Hrun].
Defined.


Lemma C2_retune_around_commit_witness :
  exists buffer g',
    outcome_globals
      (loop_body (h := scenario_h) (env_ok CY_U3P_HIGH_SPEED 0x404E2000)
         (globals_with_epm 0 3) (mkLocals 0 0 0 0 0)) = Some g' /\
    outcome_trace
      (loop_body (h := scenario_h) (env_ok CY_U3P_HIGH_SPEED 0x404E2000)
         (globals_with_epm 0 3) (mkLocals 0 0 0 0 0))
      = [EvGetBuffer 0; EvMemCopy 12 0 1000; EvThreadSleep 3] ++
        retune_events (h := scenario_h) buffer 1012 0 (mmio g' (cfg_addr 3)) /\
    CurrentMultVal g' = 3 /\
    mult_field (mmio g' (cfg_addr 3)) = 3.
Proof.
  destruct (C2_retune_around_commit (h := scenario_h)
              (env_ok CY_U3P_HIGH_SPEED 0x404E2000)
              (globals_with_epm 0 3) (mkLocals 0 0 0 0 0) 5000
              eq_refl eq_refl)
    as (buffer & g' & Hg & Hrest).
  exists buffer, g'. split; [exact Hg | exact Hrest].
Defined.

(** ** What every run of the producer keeps *)

Lemma nak_after_app (tr1 tr2 : list Event) (nak : bool) :
  nak_after (tr1 ++ tr2) nak = nak_after tr2 (nak_after tr1 nak).
Proof.
  revert nak. induction tr1 as [|ev tr1 IH]; intros nak; [reflexivity|].
  destruct ev; cbn [app nak_after]; apply IH.
Qed.

Lemma writes_under_nak_app (tr1 tr2 : list Event) (nak : bool) :
  writes_under_nak (tr1 ++ tr2) nak
  = writes_under_nak tr1 nak && writes_under_nak tr2 (nak_after tr1 nak).
Proof.
  revert nak. induction tr1 as [|ev tr1 IH]; intros nak; [reflexivity|].
  destruct ev; cbn [app nak_after writes_under_nak]; rewrite ?IH;
    try reflexivity.
  now rewrite andb_assoc.
Qed.

Lemma last_status_app (tr1 tr2 : list Event) (st : Z) :
  last_status (tr1 ++ tr2) st = last_status tr2 (last_status tr1 st).
Proof.
  revert st. induction tr1 as [|ev tr1 IH]; intros st; [reflexivity|].
  destruct ev; cbn [app last_status]; apply IH.
Qed.

Lemma copy_ranges_app (tr1 tr2 : list Event) :
  copy_ranges (tr1 ++ tr2) = copy_ranges tr1 ++ copy_ranges tr2.
Proof.
  induction tr1 as [|ev tr1 IH]; [reflexivity|].
  destruct ev; cbn [app copy_ranges]; rewrite ?IH; reflexivity.
Qed.

Section RunDiscipline.

Context {h : cyfxuvcinmem_h}.

Lemma retune_write_ok (e : Env) (g : Globals) :
  mult_write_ok
    (EvRegWrite (cfg_addr ep_video)
       (mmio (CyFxUvcAppSetMultByEpm ep_video (hw_sample e g)) (cfg_addr ep_video)))
  = true.
Proof.
  unfold mult_write_ok. rewrite Z.eqb_refl, set_mult_field.
  pose proof (clamp_range (raw_mult (mmio (hw_sample e g) (epm_addr ep_video)))) as Hc.
  destruct Hc as [H1 H3]. apply Z.leb_le in H1, H3. now rewrite H1, H3.
Qed.

(** The commit block: NAK is cleared at its end, the register is written
    under NAK only, and the status is that of the commit. *)
Lemma commit_chunk_discipline (e : Env) (g : Globals) (buffer : list Z)
    (cl expected st0 : Z) :
  let r := commit_chunk e g buffer cl expected in
  nak_after (fst (fst r)) false = false /\
  writes_under_nak (fst (fst r)) false = true /\
  forallb mult_write_ok (fst (fst r)) = true /\
  last_status (fst (fst r)) st0 = snd r /\
  copy_ranges (fst (fst r)) = [].
Proof.
  cbv zeta. rewrite commit_chunk_spec.
  destruct (is_high_speed (env_speed e) && negb (CurrentMultVal g =? expected));
    cbv zeta; cbn [fst snd]; [|now repeat split].
  unfold retune_events.
  cbn [nak_after writes_under_nak forallb last_status copy_ranges andb].
  repeat split. change (mult_write_ok (EvSetEpNak CY_FX_EP_ISO_VIDEO true)) with true.
  change (mult_write_ok (EvBusyWait 10)) with true.
  change (mult_write_ok (EvBusyWait 20)) with true.
  change (mult_write_ok (EvSetEpNak CY_FX_EP_ISO_VIDEO false)) with true.
  change (mult_write_ok (EvCommitBuffer buffer cl (env_commit_status e))) with true.
  cbn [andb]. now rewrite retune_write_ok.
Qed.

Ltac loop_body_cases e g l :=
  let Hget := fresh "Hget" in
  let Hlook := fresh "Hlook" in
  let Hmid := fresh "Hmid" in
  let len := fresh "len" in
  destruct (env_get_status e =? CY_U3P_SUCCESS) eqn:Hget;
  [ apply Z.eqb_eq in Hget;
    destruct (glVidFrameLen !! Z.to_nat (frameIndex l)) as [len|] eqn:Hlook;
    [ destruct (u32 (frameOffset l + payload) <? len) eqn:Hmid;
      [ rewrite (loop_body_mid_eq e g l len Hget Hlook Hmid)
      | rewrite (loop_body_last_eq e g l len Hget Hlook Hmid) ]
    | unfold loop_body; cbv zeta; rewrite Hget, Z.eqb_refl, Hlook; cbn [negb] ]
  | unfold loop_body; cbv zeta; rewrite Hget; cbn [negb] ].

Lemma loop_body_discipline (e : Env) (g : Globals) (l : Locals) :
  let tr := outcome_trace (loop_body e g l) in
  nak_after tr false = false /\
  writes_under_nak tr false = true /\
  forallb mult_write_ok tr = true /\
  match loop_body e g l with
  | Continue _ _ l' | Break _ _ l' => status l' = last_status tr (status l)
  | Fault => True
  end.
Proof.
  cbv zeta. loop_body_cases e g l; cbv zeta.
  - match goal with
    | |- context [commit_chunk e ?g1 ?b ?c ?x] =>
        destruct (commit_chunk_discipline e g1 b c x CY_U3P_SUCCESS)
          as (Hn & Hw & Hm & Hs & _);
        destruct (negb (snd (commit_chunk e g1 b c x) =? CY_U3P_SUCCESS))
    end;
      cbn [outcome_trace status];
      rewrite nak_after_app, writes_under_nak_app, forallb_app, last_status_app;
      cbn [nak_after writes_under_nak forallb last_status mult_write_ok andb];
      rewrite Hn, Hw, Hm, Hs; now repeat split.
  - match goal with
    | |- context [commit_chunk e ?g1 ?b ?c ?x] =>
        destruct (commit_chunk_discipline e g1 b c x CY_U3P_SUCCESS)
          as (Hn & Hw & Hm & Hs & _);
        destruct (negb (snd (commit_chunk e g1 b c x) =? CY_U3P_SUCCESS))
    end;
      cbn [outcome_trace status];
      rewrite nak_after_app, writes_under_nak_app, forallb_app, last_status_app;
      cbn [nak_after writes_under_nak forallb last_status mult_write_ok andb];
      rewrite Hn, Hw, Hm, Hs; now repeat split.
  - now repeat split.
  - now repeat split.
Qed.

Lemma thread_step_discipline (e : Env) (t : Thread) :
  let tr := fst (thread_step e t) in
  nak_after tr false = false /\
  writes_under_nak tr false = true /\
  forallb mult_write_ok tr = true /\
  status (locals (snd (thread_step e t))) = last_status tr (status (locals t)).
Proof.
  cbv zeta. destruct t as [p g l]. unfold thread_step. cbn [pc globals locals].
  destruct p.
  - now repeat split.
  - destruct (env_active e); [|now repeat split].
    pose proof (loop_body_discipline e g l) as Hd. cbv zeta in Hd.
    destruct (loop_body e g l); cbn [outcome_trace fst snd locals] in *;
      [exact Hd | exact Hd | now repeat split].
  - destruct (negb (status l =? CY_U3P_SUCCESS) && env_active e); now repeat split.
  - now repeat split.
  - now repeat split.
Qed.

End RunDiscipline.

Section RunInvariants.

Context {h : cyfxuvcinmem_h} {i : cyfxuvcinmem_init_h}.

(** Whatever the surroundings answer and wherever the thread stands, a
    run leaves the endpoint out of NAK, also when a commit inside the NAK
    window fails, and writes the configuration register under NAK only. *)
Theorem run_nak_discipline (es : list Env) (t : Thread) :
  nak_after (fst (run es t)) false = false /\
  writes_under_nak (fst (run es t)) false = true.
Proof.
  revert t. induction es as [|e es IH]; intros t; [now split|].
  rewrite run_cons. cbn [fst].
  destruct (thread_step_discipline e t) as (Hn & Hw & _).
  destruct (IH (snd (thread_step e t))) as (Hn' & Hw').
  rewrite nak_after_app, writes_under_nak_app, Hn, Hw, Hn', Hw'. now split.
Qed.

(** Every register write of a run goes to the DEV_EPI_CS register of the
    video endpoint and carries a multiplier of 1, 2 or 3. *)
Theorem run_mult_in_range (es : list Env) (t : Thread) :
  forallb mult_write_ok (fst (run es t)) = true.
Proof.
  revert t. induction es as [|e es IH]; intros t; [reflexivity|].
  rewrite run_cons. cbn [fst].
  destruct (thread_step_discipline e t) as (_ & _ & Hm & _).
  now rewrite forallb_app, Hm, IH.
Qed.

Lemma run_status (es : list Env) (t : Thread) :
  status (locals (snd (run es t)))
  = last_status (fst (run es t)) (status (locals t)).
Proof.
  revert t. induction es as [|e es IH]; intros t; [reflexivity|].
  rewrite run_cons. cbn [fst snd].
  destruct (thread_step_discipline e t) as (_ & _ & _ & Hs).
  now rewrite last_status_app, IH, Hs.
Qed.

Lemma step_halted_status (e : Env) (t : Thread) :
  (is_halted t = true -> status (locals t) <> CY_U3P_SUCCESS) ->
  is_halted (snd (thread_step e t)) = true ->
  status (locals (snd (thread_step e t))) <> CY_U3P_SUCCESS.
Proof.
  destruct t as [p g l]. unfold thread_step, is_halted.
  cbn [pc globals locals]. intros Hinv.
  destruct p; cbn [snd pc locals]; try discriminate.
  - destruct (env_active e); [|discriminate].
    destruct (loop_body e g l); discriminate.
  - destruct (status l =? CY_U3P_SUCCESS) eqn:Hst; cbn [negb andb].
    + discriminate.
    + destruct (env_active e); cbn [snd pc locals]; [|discriminate].
      intros _. now apply Z.eqb_neq.
  - exact Hinv.
Qed.

Lemma run_halted_status (es : list Env) (t : Thread) :
  (is_halted t = true -> status (locals t) <> CY_U3P_SUCCESS) ->
  is_halted (snd (run es t)) = true ->
  status (locals (snd (run es t))) <> CY_U3P_SUCCESS.
Proof.
  revert t. induction es as [|e es IH]; intros t Hinv; [exact Hinv|].
  rewrite run_cons. cbn [snd]. apply IH. now apply step_halted_status.
Qed.

(** [status] is never cleared: from the thread's entry on it holds the
    result of the most recent DMA call, success while none was made. When
    the two initialisation functions have come back, the thread stands in
    the error handler only when that call failed. When a call of the
    initialisation failed, the thread stands in the error handler from
    the start: it only sleeps 100 ms at a time, makes no DMA call, and
    [status] still reads success. *)
Theorem status_is_last_call (ie : InitEnv) (es : list Env) (g : Globals) :
  let tr := fst (snd (UVCAppThread_Entry ie es g)) in
  let t := snd (snd (UVCAppThread_Entry ie es g)) in
  status (locals t) = last_status tr CY_U3P_SUCCESS /\
  if init_returns ie then
    implb (is_halted t) (negb (last_status tr CY_U3P_SUCCESS =? CY_U3P_SUCCESS))
    = true
  else
    is_halted t = true /\
    tr = repeat (EvThreadSleep 100) (length es) /\
    status (locals t) = CY_U3P_SUCCESS.
Proof.
  cbv zeta. unfold UVCAppThread_Entry, init_returns. cbv zeta. cbn [fst snd].
  destruct (snd (CyFxUVCApplnDebugInit ie ;> CyFxUVCApplnInit ie)).
  - pose proof (run_status es
                  (mkThread PcForTop g (mkLocals 0 0 0 0 CY_U3P_SUCCESS))) as Hs.
    cbn [locals status] in Hs. split; [exact Hs|].
    destruct (is_halted _) eqn:Hh; [|reflexivity]. cbn [implb].
    apply negb_true_iff, Z.eqb_neq. rewrite <- Hs.
    apply run_halted_status; [discriminate | exact Hh].
  - rewrite halted_forever. cbn [fst snd locals status].
    split; [|now repeat split].
    induction (length es) as [|n IH]; [reflexivity | exact IH].
Qed.

Lemma step_idle (e : Env) (t : Thread) :
  env_active e = false ->
  is_halted t = false -> is_fault t = false ->
  forallb is_idle_sleep (fst (thread_step e t)) = true /\
  is_halted (snd (thread_step e t)) = false /\
  is_fault (snd (thread_step e t)) = false /\
  status (locals (snd (thread_step e t))) = status (locals t) /\
  mmio (globals (snd (thread_step e t))) = mmio (globals t) /\
  CurrentMultVal (globals (snd (thread_step e t))) = CurrentMultVal (globals t).
Proof.
  intros Ha. destruct t as [p g l]. unfold thread_step, is_halted, is_fault.
  cbn [pc globals locals]. rewrite Ha, andb_false_r.
  destruct p; cbn [fst snd pc locals globals]; try discriminate; now repeat split.
Qed.

(** While the active flag reads false the producer makes no DMA call and
    touches no register, whatever status an earlier failure left behind:
    it only sleeps 100 ms at a time, and it does not enter the error
    handler. *)
Theorem inactive_only_sleeps (es : list Env) (t : Thread) :
  Forall (fun e => env_active e = false) es ->
  is_halted t = false -> is_fault t = false ->
  forallb is_idle_sleep (fst (run es t)) = true /\
  is_halted (snd (run es t)) = false /\
  is_fault (snd (run es t)) = false /\
  status (locals (snd (run es t))) = status (locals t) /\
  mmio (globals (snd (run es t))) = mmio (globals t) /\
  CurrentMultVal (globals (snd (run es t))) = CurrentMultVal (globals t).
Proof.
  revert t. induction es as [|e es IH]; intros t Hall Hh Hf.
  - cbn [run fst snd forallb]. now repeat split.
  - inversion Hall as [|? ? Ha Hall']; subst.
    destruct (step_idle e t Ha Hh Hf) as (Hs & Hh' & Hf' & Hst & Hm & Hc).
    destruct (IH (snd (thread_step e t)) Hall' Hh' Hf')
      as (Hs' & Hh'' & Hf'' & Hst' & Hm' & Hc').
    rewrite run_cons. cbn [fst snd].
    rewrite forallb_app, Hs, Hs', Hst', Hm', Hc'. now repeat split.
Qed.

End RunInvariants.

Lemma inactive_only_sleeps_witness :
  forallb is_idle_sleep
    (fst (run (h := scenario_h)
            (repeat (mkEnv false 0 [] CY_U3P_HIGH_SPEED 0 0) 7)
            (mkThread PcCheck (globals_with_epm 0 1) (mkLocals 0 0 0 0 0x45))))
  = true /\
  is_halted
    (snd (run (h := scenario_h)
            (repeat (mkEnv false 0 [] CY_U3P_HIGH_SPEED 0 0) 7)
            (mkThread PcCheck (globals_with_epm 0 1) (mkLocals 0 0 0 0 0x45))))
  = false.
Proof.
  destruct (inactive_only_sleeps (h := scenario_h)
              (repeat (mkEnv false 0 [] CY_U3P_HIGH_SPEED 0 0) 7)
              (mkThread PcCheck (globals_with_epm 0 1) (mkLocals 0 0 0 0 0x45))
              ltac:(repeat constructor) eq_refl eq_refl)
    as (Hs & Hh & _).
  split; [exact Hs | exact Hh].
Defined.


(** ** Bounds kept by every run *)

Lemma sum_app (a b : list Z) :
  fold_right Z.add 0 (a ++ b) = fold_right Z.add 0 a + fold_right Z.add 0 b.
Proof.
  induction a as [|x a IH]; [reflexivity|].
  cbn [app fold_right]. rewrite IH. lia.
Qed.

Lemma sum_nonneg (a : list Z) :
  Forall (fun x => 0 <= x) a -> 0 <= fold_right Z.add 0 a.
Proof.
  induction 1 as [|x a Hx _ IH]; cbn [fold_right]; lia.
Qed.

Section RunBounds.

Context {h : cyfxuvcinmem_h}.

Lemma frames_nonneg :
  Forall wf_len glVidFrameLen -> Forall (fun x => 0 <= x) glVidFrameLen.
Proof. apply Forall_impl. now intros x [Hx _]. Qed.

Lemma frame_base_succ (i : nat) (len : Z) :
  glVidFrameLen !! i = Some len -> frame_base (S i) = frame_base i + len.
Proof.
  intros Hlook. unfold frame_base.
  rewrite (take_S_r _ _ _ Hlook), sum_app. cbn [fold_right]. lia.
Qed.

Lemma frame_base_end (i : nat) (len : Z) :
  Forall wf_len glVidFrameLen ->
  glVidFrameLen !! i = Some len ->
  0 <= frame_base i /\ 0 <= len /\ frame_base i + len <= store_size.
Proof.
  intros Hall Hlook. pose proof (frames_nonneg Hall) as Hnn.
  unfold frame_base, store_size.
  rewrite <- (take_drop i glVidFrameLen) at 3.
  rewrite sum_app, (drop_S _ _ _ Hlook). cbn [fold_right].
  pose proof (sum_nonneg _ (Forall_take _ i _ Hnn)).
  pose proof (sum_nonneg _ (Forall_drop _ (S i) _ Hnn)).
  rewrite Forall_lookup in Hnn. pose proof (Hnn _ _ Hlook). lia.
Qed.

Lemma cursor_ok_first (cl st : Z) :
  wf_table -> Forall wf_len glVidFrameLen ->
  cursor_ok (mkLocals 0 0 0 cl st).
Proof.
  intros Ht Hall. pose proof Ht as (Hmax & _).
  destruct (index_lookup 0 Ht Hall) as (len & Hlook & Hw); [lia|].
  unfold cursor_ok. cbn [frameIndex frameStart frameOffset].
  split; [lia|]. split; [reflexivity|].
  exists len. split; [exact Hlook|]. destruct Hw. lia.
Qed.

(** One step keeps the cursor inside the frame table and the frame it
    names, and copies and commits inside the buffer and the frame store. *)
Lemma step_bounds (e : Env) (t : Thread) :
  wf_sizes -> wf_table -> Forall wf_len glVidFrameLen -> store_size < 2 ^ 32 ->
  thread_ok t ->
  thread_ok (snd (thread_step e t)) /\
  Forall copy_fits_buffer (copy_ranges (fst (thread_step e t))) /\
  Forall copy_in_store (copy_ranges (fst (thread_step e t))) /\
  Forall commit_fits_buffer (commits (fst (thread_step e t))).
Proof.
  intros Hs Ht Hall Hstore Hok.
  pose proof Hs as (Hh2 & Hhb & Hb16). pose proof Ht as (Hmax & Hlen).
  assert (Hp : payload = CY_FX_UVC_STREAM_BUF_SIZE - CY_FX_UVC_MAX_HEADER)
    by reflexivity.
  destruct t as [p g l]. unfold thread_ok in Hok. cbn [pc locals] in Hok.
  unfold thread_step. cbn [pc globals locals].
  destruct p; try contradiction.
  - cbn [fst snd copy_ranges commits].
    split; [|repeat split; constructor].
    unfold thread_ok. cbn [pc locals]. now apply cursor_ok_first.
  - destruct (env_active e);
      [|cbn [fst snd copy_ranges commits];
        split; [exact I | repeat split; constructor]].
    destruct Hok as (Hi & Hfs & len & Hlook & Hoff).
    destruct (index_lookup _ Ht Hall Hi) as (len' & Hlook' & Hw).
    rewrite Hlook in Hlook'. injection Hlook' as <-.
    pose proof Hw as (Hl0 & Hl32).
    destruct (frame_base_end _ _ Hall Hlook) as (Hb0 & _ & Hbe).
    destruct (env_get_status e =? CY_U3P_SUCCESS) eqn:Hget.
    + apply Z.eqb_eq in Hget.
      destruct (u32 (frameOffset l + payload) <? len) eqn:Hmid.
      * rewrite (loop_body_mid_eq e g l len Hget Hlook Hmid). cbv zeta.
        rewrite u32_small in Hmid by lia. apply Z.ltb_lt in Hmid.
        rewrite (u32_small (frameOffset l + payload)), (u32_small payload),
          (u16_small CY_FX_UVC_STREAM_BUF_SIZE),
          (u32_small (frameStart l + frameOffset l)) by lia.
        match goal with
        | |- context [commit_chunk e ?g1 ?b ?c ?x] =>
            destruct (commit_chunk_discipline e g1 b c x CY_U3P_SUCCESS)
              as (_ & _ & _ & _ & Hr);
            pose proof (commit_chunk_commits e g1 b c x) as Hc;
            destruct (negb (snd (commit_chunk e g1 b c x) =? CY_U3P_SUCCESS))
        end; cbn [fst snd];
          rewrite copy_ranges_app, commits_app, Hr, Hc;
          cbn [copy_ranges commits app];
          (split; [|repeat split; repeat constructor;
                    cbn [fst snd]; lia]).
        -- exact I.
        -- unfold thread_ok, cursor_ok.
           cbn [pc locals frameIndex frameStart frameOffset].
           split; [exact Hi|]. split; [exact Hfs|].
           exists len. split; [exact Hlook | lia].
      * rewrite (loop_body_last_eq e g l len Hget Hlook Hmid). cbv zeta.
        rewrite u32_small in Hmid by lia. apply Z.ltb_ge in Hmid.
        rewrite (u32_small (len - frameOffset l)),
          (u16_small (len - frameOffset l + CY_FX_UVC_MAX_HEADER)),
          (u32_small (frameStart l + frameOffset l)) by lia.
        match goal with
        | |- context [commit_chunk e ?g1 ?b ?c ?x] =>
            destruct (commit_chunk_discipline e g1 b c x CY_U3P_SUCCESS)
              as (_ & _ & _ & _ & Hr);
            pose proof (commit_chunk_commits e g1 b c x) as Hc;
            destruct (negb (snd (commit_chunk e g1 b c x) =? CY_U3P_SUCCESS))
        end; cbn [fst snd];
          rewrite copy_ranges_app, commits_app, Hr, Hc;
          cbn [copy_ranges commits app];
          (split; [|repeat split; repeat constructor;
                    cbn [fst snd]; lia]).
        -- exact I.
        -- unfold thread_ok. cbn [pc locals]. unfold next_index.
           rewrite (u32_small CY_FX_UVC_MAX_VID_FRAMES),
             (u32_small (frameIndex l + 1)) by lia.
           destruct (CY_FX_UVC_MAX_VID_FRAMES <=? frameIndex l + 1) eqn:Hwrap.
           ++ now apply cursor_ok_first.
           ++ apply Z.leb_gt in Hwrap.
              destruct (index_lookup (frameIndex l + 1) Ht Hall)
                as (len1 & Hlook1 & Hw1); [lia|].
              unfold cursor_ok. cbn [frameIndex frameStart frameOffset].
              split; [lia|]. split.
              ** replace (Z.to_nat (frameIndex l + 1))
                   with (S (Z.to_nat (frameIndex l))) by lia.
                 rewrite (frame_base_succ _ _ Hlook), <- Hfs.
                 apply u32_small. lia.
              ** exists len1. split; [exact Hlook1|]. destruct Hw1. lia.
    + unfold loop_body. cbv zeta. rewrite Hget. cbn [negb fst snd].
      cbn [copy_ranges commits]. split; [exact I | repeat split; constructor].
  - destruct (negb (status l =? CY_U3P_SUCCESS) && env_active e);
      cbn [fst snd copy_ranges commits];
      (split; [exact I | repeat split; constructor]).
  - cbn [fst snd copy_ranges commits].
    split; [exact I | repeat split; constructor].
Qed.

Lemma run_bounds (es : list Env) (t : Thread) :
  wf_sizes -> wf_table -> Forall wf_len glVidFrameLen -> store_size < 2 ^ 32 ->
  thread_ok t ->
  thread_ok (snd (run es t)) /\
  Forall copy_fits_buffer (copy_ranges (fst (run es t))) /\
  Forall copy_in_store (copy_ranges (fst (run es t))) /\
  Forall commit_fits_buffer (commits (fst (run es t))).
Proof.
  intros Hs Ht Hall Hstore. revert t.
  induction es as [|e es IH]; intros t Hok.
  - cbn [run fst snd copy_ranges commits].
    split; [exact Hok | repeat split; constructor].
  - destruct (step_bounds e t Hs Ht Hall Hstore Hok) as (Hok1 & Hb1 & Hs1 & Hc1).
    destruct (IH _ Hok1) as (Hok2 & Hb2 & Hs2 & Hc2).
    rewrite run_cons. cbn [fst snd].
    rewrite copy_ranges_app, commits_app.
    split; [exact Hok2|]. repeat split; now apply Forall_app.
Qed.

End RunBounds.

Section RunSafety.

Context {h : cyfxuvcinmem_h} {i : cyfxuvcinmem_init_h}.

Lemma step_index_ok (e : Env) (t : Thread) :
  wf_table ->
  match pc t with
  | PcWhile => 0 <= frameIndex (locals t) < CY_FX_UVC_MAX_VID_FRAMES
  | PcFault => False
  | _ => True
  end ->
  match pc (snd (thread_step e t)) with
  | PcWhile =>
      0 <= frameIndex (locals (snd (thread_step e t))) < CY_FX_UVC_MAX_VID_FRAMES
  | PcFault => False
  | _ => True
  end.
Proof.
  intros Ht Hok. pose proof Ht as (Hmax & Hlen).
  destruct t as [p g l]. cbn [pc locals] in Hok.
  unfold thread_step. cbn [pc globals locals].
  destruct p; try contradiction; cbn [snd pc locals frameIndex].
  - lia.
  - destruct (env_active e); [|exact I].
    destruct (lookup_lt_is_Some_2 glVidFrameLen (Z.to_nat (frameIndex l)))
      as [len Hlook]; [lia|].
    destruct (env_get_status e =? CY_U3P_SUCCESS) eqn:Hget.
    + apply Z.eqb_eq in Hget.
      destruct (u32 (frameOffset l + payload) <? len) eqn:Hmid.
      * rewrite (loop_body_mid_eq e g l len Hget Hlook Hmid). cbv zeta.
        match goal with
        | |- context [if ?b then Break _ _ _ else _] => destruct b
        end; cbn [snd pc locals frameIndex]; [exact I | exact Hok].
      * rewrite (loop_body_last_eq e g l len Hget Hlook Hmid). cbv zeta.
        match goal with
        | |- context [if ?b then Break _ _ _ else _] => destruct b
        end; cbn [snd pc locals frameIndex]; [exact I|].
        now apply next_index_range.
    + unfold loop_body. cbv zeta. rewrite Hget. cbn [negb snd pc]. exact I.
  - destruct (negb (status l =? CY_U3P_SUCCESS) && env_active e);
      cbn [snd pc]; exact I.
  - exact I.
Qed.

(** From its entry on, whatever the surroundings answer, the thread never
    reads [glVidFrameLen] outside its [CY_FX_UVC_MAX_VID_FRAMES] entries. *)
Theorem frame_table_in_bounds (ie : InitEnv) (es : list Env) (g : Globals) :
  wf_table ->
  is_fault (snd (snd (UVCAppThread_Entry ie es g))) = false.
Proof.
  intros Ht. unfold UVCAppThread_Entry. cbv zeta. cbn [snd].
  assert (Hgen : forall t,
    match pc t with
    | PcWhile => 0 <= frameIndex (locals t) < CY_FX_UVC_MAX_VID_FRAMES
    | PcFault => False
    | _ => True
    end -> is_fault (snd (run es t)) = false).
  { induction es as [|e es IH]; intros t Hok.
    - cbn [run snd]. unfold is_fault. destruct (pc t); try reflexivity.
      contradiction.
    - rewrite run_cons. cbn [snd]. apply IH. now apply step_index_ok. }
  apply Hgen. cbn [pc]. now destruct (snd _).
Qed.

(** From its entry on, whatever the surroundings answer, every payload
    copy of the thread lands behind the header and ends inside the DMA
    buffer, and every commit holds at least the header and at most one
    buffer. *)
Theorem dma_buffer_never_overrun (ie : InitEnv) (es : list Env) (g : Globals) :
  wf_sizes -> wf_table -> Forall wf_len glVidFrameLen -> store_size < 2 ^ 32 ->
  Forall copy_fits_buffer
    (copy_ranges (fst (snd (UVCAppThread_Entry ie es g)))) /\
  Forall commit_fits_buffer
    (commits (fst (snd (UVCAppThread_Entry ie es g)))).
Proof.
  intros Hs Ht Hall Hstore. unfold UVCAppThread_Entry. cbv zeta. cbn [snd].
  match goal with
  | |- context [run es ?t] =>
      destruct (run_bounds es t Hs Ht Hall Hstore) as (_ & Hb & _ & Hc)
  end.
  - cbn [thread_ok pc]. now destruct (snd _).
  - now split.
Qed.

(** From its entry on, whatever the surroundings answer, every payload
    copy of the thread reads inside the frame store, and between passes
    the cursor stands inside the frame it names, [frameStart] being the
    sum of the lengths of the frames before it. *)
Theorem frame_store_never_overread (ie : InitEnv) (es : list Env) (g : Globals) :
  wf_sizes -> wf_table -> Forall wf_len glVidFrameLen -> store_size < 2 ^ 32 ->
  Forall copy_in_store
    (copy_ranges (fst (snd (UVCAppThread_Entry ie es g)))) /\
  thread_ok (snd (snd (UVCAppThread_Entry ie es g))).
Proof.
  intros Hs Ht Hall Hstore. unfold UVCAppThread_Entry. cbv zeta. cbn [snd].
  match goal with
  | |- context [run es ?t] =>
      destruct (run_bounds es t Hs Ht Hall Hstore) as (Hok & _ & Hst & _)
  end.
  - cbn [thread_ok pc]. now destruct (snd _).
  - now split.
Qed.

End RunSafety.

Lemma scenario_store : store_size (h := scenario_h) < 2 ^ 32.
Proof. reflexivity. Qed.

Lemma frame_table_in_bounds_witness :
  is_fault (snd (snd (UVCAppThread_Entry (h := scenario_h)
                        (i := example_init_h) init_ok stop_and_restart
                        (globals_with_epm 0 1)))) = false.
Proof.
  exact (frame_table_in_bounds (h := scenario_h) (i := example_init_h)
           init_ok stop_and_restart (globals_with_epm 0 1) scenario_table).
Defined.

Lemma dma_buffer_never_overrun_witness :
  Forall (copy_fits_buffer (h := scenario_h))
    (copy_ranges
       (fst (snd (UVCAppThread_Entry (h := scenario_h) (i := example_init_h)
                    init_ok stop_and_restart (globals_with_epm 0 1))))) /\
  Forall (commit_fits_buffer (h := scenario_h))
    (commits (h := scenario_h)
       (fst (snd (UVCAppThread_Entry (h := scenario_h) (i := example_init_h)
                    init_ok stop_and_restart (globals_with_epm 0 1))))).
Proof.
  exact (dma_buffer_never_overrun (h := scenario_h) (i := example_init_h)
           init_ok stop_and_restart
           (globals_with_epm 0 1) (example_sizes _) scenario_table
           scenario_frames scenario_store).
Defined.

Lemma frame_store_never_overread_witness :
  Forall (copy_in_store (h := scenario_h))
    (copy_ranges
       (fst (snd (UVCAppThread_Entry (h := scenario_h) (i := example_init_h)
                    init_ok stop_and_restart (globals_with_epm 0 1))))) /\
  thread_ok (h := scenario_h)
    (snd (snd (UVCAppThread_Entry (h := scenario_h) (i := example_init_h)
                 init_ok stop_and_restart (globals_with_epm 0 1)))).
Proof.
  exact (frame_store_never_overread (h := scenario_h) (i := example_init_h)
           init_ok stop_and_restart
           (globals_with_epm 0 1) (example_sizes _) scenario_table
           scenario_frames scenario_store).
Defined.

(** ** Stop, restart and the playlist *)

Section Restart.

Context {h : cyfxuvcinmem_h}.

(** [status] outlives the stream it was set in. After a DMA call failed
    and the stopped thread went idle, a restart that lands between the
    while test (flag read false) and the error check after it (flag read
    true) sends the thread into the error handler, although it made no
    DMA call since the failure. *)
Theorem stale_status_halts_after_restart (e1 e2 e3 e4 e5 : Env) (g : Globals)
    (l : Locals) (len : Z) :
  env_active e1 = true ->
  glVidFrameLen !! Z.to_nat (frameIndex l) = Some len ->
  env_get_status e1 <> CY_U3P_SUCCESS \/ env_commit_status e1 <> CY_U3P_SUCCESS ->
  env_active e2 = false -> env_active e4 = false -> env_active e5 = true ->
  exists tr1 g1 l1,
    thread_step e1 (mkThread PcWhile g l) = (tr1, mkThread PcCheck g1 l1) /\
    fst (run [e1; e2; e3; e4; e5] (mkThread PcWhile g l))
      = tr1 ++ [EvThreadSleep 100; EvDebugPrint (status l1)] /\
    is_halted (snd (run [e1; e2; e3; e4; e5] (mkThread PcWhile g l))) = true.
Proof.
  intros Hact Hlook Hfail H2 H4 H5.
  destruct (failing_call_breaks e1 g l len Hlook Hfail)
    as (tr1 & g1 & l1 & Hbody & _ & Hne).
  exists tr1, g1, l1.
  assert (Hstep : thread_step e1 (mkThread PcWhile g l)
                  = (tr1, mkThread PcCheck g1 l1)).
  { unfold thread_step. cbn [pc globals locals]. now rewrite Hact, Hbody. }
  split; [exact Hstep|].
  apply Z.eqb_neq in Hne.
  rewrite !run_cons, Hstep. cbn [fst snd].
  cbn [thread_step pc globals locals fst snd run status].
  rewrite Hne, H2.
  cbn [thread_step negb andb fst snd pc globals locals status].
  rewrite H4.
  cbn [thread_step negb andb fst snd pc globals locals status].
  rewrite Hne, H5. cbn [negb andb fst snd app]. split; reflexivity.
Qed.

Lemma index_after_mod (n : nat) :
  forall i : Z,
  wf_table -> 0 <= i < CY_FX_UVC_MAX_VID_FRAMES ->
  index_after n i = (i + Z.of_nat n) mod CY_FX_UVC_MAX_VID_FRAMES.
Proof.
  induction n as [|n IH]; intros i Ht Hi.
  - cbn [index_after]. rewrite Z.add_0_r, Z.mod_small; lia.
  - cbn [index_after]. rewrite IH by (try apply next_index_range; assumption).
    rewrite (next_index_mod i Ht Hi), Zplus_mod_idemp_l.
    f_equal. lia.
Qed.

(** Streaming [n] whole frames from the start of frame [i], every DMA
    call succeeding, leaves the cursor at the start of frame
    (i + n) mod CY_FX_UVC_MAX_VID_FRAMES with [frameStart] at that frame's
    first byte; after a whole pass it is back where it was. *)
Theorem playlist_wraps (n : nat) (es : list Env) (g : Globals) (l : Locals) :
  wf_sizes -> wf_bits -> wf_table -> Forall wf_len glVidFrameLen ->
  store_size < 2 ^ 32 -> header_ok g ->
  cursor_ok l -> frameOffset l = 0 ->
  length es = length (playlist_commits n (frameIndex l)) ->
  Forall good es ->
  exists tr g' l',
    run es (mkThread PcWhile g l) = (tr, mkThread PcWhile g' l') /\
    commits tr = playlist_commits n (frameIndex l) /\
    frameIndex l' = (frameIndex l + Z.of_nat n) mod CY_FX_UVC_MAX_VID_FRAMES /\
    frameOffset l' = 0 /\
    frameStart l' = frame_base (Z.to_nat (frameIndex l')) /\
    (Z.of_nat n = CY_FX_UVC_MAX_VID_FRAMES ->
     frameIndex l' = frameIndex l /\ frameStart l' = frameStart l).
Proof.
  intros Hs Hb Ht Hall Hstore Hok Hcur Hoff Hlen Hgood.
  pose proof Hcur as (Hi & Hfs & _).
  destruct (run_playlist n es g l Hs Hb Ht Hall Hok Hoff Hi Hlen Hgood)
    as (tr & g' & l' & Hrun & Hc & _ & _ & Ho' & Hi').
  destruct (run_bounds es (mkThread PcWhile g l) Hs Ht Hall Hstore Hcur)
    as (Hok' & _).
  rewrite Hrun in Hok'. cbn [snd] in Hok'.
  unfold thread_ok in Hok'. cbn [pc locals] in Hok'.
  destruct Hok' as (_ & Hfs' & _).
  rewrite index_after_mod in Hi' by assumption.
  exists tr, g', l'. repeat (split; [assumption|]).
  intros Hn. assert (Hsame : frameIndex l' = frameIndex l).
  { rewrite Hi', Hn.
    rewrite <- (Z.mul_1_l CY_FX_UVC_MAX_VID_FRAMES) at 1.
    rewrite Z.mod_add by lia. apply Z.mod_small. lia. }
  split; [exact Hsame|]. now rewrite Hfs', Hsame.
Qed.

End Restart.

Lemma scenario_cursor (cl st : Z) :
  cursor_ok (h := scenario_h) (mkLocals 0 0 0 cl st).
Proof. exact (cursor_ok_first cl st scenario_table scenario_frames). Qed.

Lemma stale_status_halts_after_restart_witness :
  is_halted
    (snd (run (h := scenario_h)
            [mkEnv true 0x45 [] CY_U3P_HIGH_SPEED 0 0;
             mkEnv false 0 [] CY_U3P_HIGH_SPEED 0 0;
             mkEnv false 0 [] CY_U3P_HIGH_SPEED 0 0;
             mkEnv false 0 [] CY_U3P_HIGH_SPEED 0 0;
             mkEnv true 0 [] CY_U3P_HIGH_SPEED 0 0]
            (mkThread PcWhile (globals_with_epm 0 1) (mkLocals 0 0 0 0 0))))
  = true.
Proof.
  destruct (stale_status_halts_after_restart (h := scenario_h)
              (mkEnv true 0x45 [] CY_U3P_HIGH_SPEED 0 0)
              (mkEnv false 0 [] CY_U3P_HIGH_SPEED 0 0)
              (mkEnv false 0 [] CY_U3P_HIGH_SPEED 0 0)
              (mkEnv false 0 [] CY_U3P_HIGH_SPEED 0 0)
              (mkEnv true 0 [] CY_U3P_HIGH_SPEED 0 0)
              (globals_with_epm 0 1) (mkLocals 0 0 0 0 0) 5000
              eq_refl eq_refl ltac:(left; discriminate) eq_refl eq_refl eq_refl)
    as (tr1 & g1 & l1 & _ & _ & Hh).
  exact Hh.
Defined.

Lemma playlist_wraps_witness :
  exists tr g' l',
    run (h := scenario_h) (repeat (env_ok CY_U3P_HIGH_SPEED 0x404E2000) 16)
      (mkThread PcWhile (globals_with_epm 0 1) (mkLocals 0 0 0 0 0))
      = (tr, mkThread PcWhile g' l') /\
    frameIndex l' = 0 /\ frameOffset l' = 0 /\ frameStart l' = 0.
Proof.
  destruct (playlist_wraps (h := scenario_h) 3
              (repeat (env_ok CY_U3P_HIGH_SPEED 0x404E2000) 16)
              (globals_with_epm 0 1) (mkLocals 0 0 0 0 0)
              (example_sizes _) (example_bits _) scenario_table scenario_frames
              scenario_store (example_header_ok _ 0 1) (scenario_cursor 0 0)
              eq_refl eq_refl ltac:(repeat constructor))
    as (tr & g' & l' & Hrun & _ & _ & Ho & _ & Hwrap).
  exists tr, g', l'. destruct (Hwrap eq_refl) as [Hi Hfs].
  repeat split; assumption.
Defined.

(** ** The bytes of the frame store, in order *)

Lemma chain_app (s : Z) (a b : list (Z * Z * Z)) :
  chain s (a ++ b) =
  match chain s a with
  | Some s' => chain s' b
  | None => None
  end.
Proof.
  revert s. induction a as [|[[d src] c] a IH]; intros s; [reflexivity|].
  cbn [app chain]. destruct (src =? s); [apply IH | reflexivity].
Qed.

Section Coverage.

Context {h : cyfxuvcinmem_h}.

Lemma loop_body_ranges (e : Env) (g : Globals) (l : Locals) (len : Z) :
  env_get_status e = CY_U3P_SUCCESS ->
  glVidFrameLen !! Z.to_nat (frameIndex l) = Some len ->
  copy_ranges (outcome_trace (loop_body e g l)) =
  [(CY_FX_UVC_MAX_HEADER, u32 (frameStart l + frameOffset l),
    if u32 (frameOffset l + payload) <? len
    then u32 payload else u32 (len - frameOffset l))].
Proof.
  intros Hget Hlook.
  destruct (u32 (frameOffset l + payload) <? len) eqn:Hmid.
  - rewrite (loop_body_mid_eq e g l len Hget Hlook Hmid). cbv zeta.
    match goal with
    | |- context [commit_chunk e ?g1 ?b ?c ?x] =>
        destruct (commit_chunk_discipline e g1 b c x CY_U3P_SUCCESS)
          as (_ & _ & _ & _ & Hr);
        destruct (negb (snd (commit_chunk e g1 b c x) =? CY_U3P_SUCCESS))
    end; cbn [outcome_trace]; rewrite copy_ranges_app, Hr; reflexivity.
  - rewrite (loop_body_last_eq e g l len Hget Hlook Hmid). cbv zeta.
    match goal with
    | |- context [commit_chunk e ?g1 ?b ?c ?x] =>
        destruct (commit_chunk_discipline e g1 b c x CY_U3P_SUCCESS)
          as (_ & _ & _ & _ & Hr);
        destruct (negb (snd (commit_chunk e g1 b c x) =? CY_U3P_SUCCESS))
    end; cbn [outcome_trace]; rewrite copy_ranges_app, Hr; reflexivity.
Qed.

(** The copies of a frame, from the cursor to the end of the frame. *)
Lemma run_frame_chain (m : nat) :
  forall (es : list Env) (g : Globals) (l : Locals) (len : Z),
  wf_sizes -> wf_bits -> wf_len len ->
  length es = S m -> Forall good es -> header_ok g ->
  glVidFrameLen !! Z.to_nat (frameIndex l) = Some len ->
  0 <= frameOffset l <= len ->
  len - frameOffset l <= (Z.of_nat m + 1) * payload ->
  Z.of_nat m * payload < len - frameOffset l \/ m = 0%nat ->
  0 <= frameStart l -> frameStart l + len < 2 ^ 32 ->
  chain (frameStart l + frameOffset l)
    (copy_ranges (fst (run es (mkThread PcWhile g l))))
  = Some (frameStart l + len).
Proof.
  induction m as [|m IH];
    intros es g l len Hs Hb Hw Hlen Hgood Hok Hlook Hoff Hup Hlow Hfs0 Hfs;
    destruct es as [|e es]; try discriminate;
    inversion Hgood as [|? ? (Hact & Hget & Hcommit) Hgood']; subst;
    pose proof Hs as (Hh2 & Hhb & Hb16); pose proof Hw as (Hl0 & Hl32);
    assert (Hp : payload = CY_FX_UVC_STREAM_BUF_SIZE - CY_FX_UVC_MAX_HEADER)
      by reflexivity;
    pose proof (loop_body_ranges e g l len Hget Hlook) as Hr.
  - destruct es; [|discriminate].
    destruct (last_chunk e g l len Hs Hb Hw Hok Hget Hcommit Hlook Hoff)
      as (tr & g' & Hbody & _); [lia|].
    rewrite Hbody in Hr. cbn [outcome_trace] in Hr.
    assert (Hmid : (u32 (frameOffset l + payload) <? len) = false)
      by (rewrite u32_small by lia; apply Z.ltb_ge; lia).
    rewrite Hmid, !u32_small in Hr by lia.
    rewrite run_cons, (step_while_continue _ _ _ _ _ _ Hact Hbody).
    cbn [run fst snd]. rewrite app_nil_r, Hr. cbn [chain].
    rewrite Z.eqb_refl. f_equal. lia.
  - assert (Hm : 0 <= Z.of_nat m * payload) by (apply Z.mul_nonneg_nonneg; lia).
    rewrite Nat2Z.inj_succ in Hup, Hlow.
    destruct Hlow as [Hlow | ?]; [|discriminate].
    destruct (mid_chunk e g l len Hs Hb Hw Hok Hget Hcommit Hlook)
      as (tr1 & g1 & Hbody & _ & _ & Hh1); [lia | lia |].
    rewrite Hbody in Hr. cbn [outcome_trace] in Hr.
    assert (Hmid : (u32 (frameOffset l + payload) <? len) = true)
      by (rewrite u32_small by lia; apply Z.ltb_lt; lia).
    rewrite Hmid, !u32_small in Hr by lia.
    rewrite run_cons, (step_while_continue _ _ _ _ _ _ Hact Hbody).
    cbn [fst snd]. rewrite copy_ranges_app, Hr. cbn [app chain].
    rewrite Z.eqb_refl, <- Z.add_assoc.
    apply (IH es g1
             (mkLocals (frameStart l) (frameIndex l) (frameOffset l + payload)
                CY_FX_UVC_STREAM_BUF_SIZE CY_U3P_SUCCESS) len);
      try assumption; cbn [frameOffset frameStart frameIndex]; try lia.
    + simpl in Hlen. lia.
    + eapply header_ok_ext; [exact Hh1 | exact Hok].
Qed.

Lemma run_one_frame_chain (es : list Env) (g : Globals) (l : Locals) (len : Z) :
  wf_sizes -> wf_bits -> wf_len len -> header_ok g ->
  glVidFrameLen !! Z.to_nat (frameIndex l) = Some len ->
  frameOffset l = 0 ->
  Z.of_nat (length es) = chunk_count len ->
  Forall good es ->
  0 <= frameStart l -> frameStart l + len < 2 ^ 32 ->
  chain (frameStart l) (copy_ranges (fst (run es (mkThread PcWhile g l))))
  = Some (frameStart l + len).
Proof.
  intros Hs Hb Hw Hok Hlook Hoff Hn Hgood Hfs0 Hfs.
  assert (Hp : 0 < payload) by (destruct Hs as (? & ? & ?); unfold payload; lia).
  destruct (mid_count_bounds len Hp (proj1 Hw)) as (Hm0 & Hup & Hlow).
  rewrite <- (Z.add_0_r (frameStart l)) at 1. rewrite <- Hoff.
  apply (run_frame_chain (Z.to_nat (mid_count len))); try assumption.
  - unfold chunk_count in Hn. lia.
  - rewrite Hoff. destruct Hw. lia.
  - rewrite Hoff, Z2Nat.id by lia. lia.
  - rewrite Hoff, Z2Nat.id by lia. destruct Hlow as [?|Hz]; [left; lia|].
    right. rewrite Hz. reflexivity.
Qed.

(** Over [k] frames that follow one another in the frame store, every
    DMA call succeeding, each payload copy starts where the one before
    ended: the copies read the bytes from the start of the first frame to
    the end of the last, each once and in order. *)
Theorem copies_cover_frames_in_order (k : nat) :
  forall (es : list Env) (g : Globals) (l : Locals),
  wf_sizes -> wf_bits -> wf_table -> Forall wf_len glVidFrameLen ->
  store_size < 2 ^ 32 -> header_ok g ->
  cursor_ok l -> frameOffset l = 0 ->
  frameIndex l + Z.of_nat k <= CY_FX_UVC_MAX_VID_FRAMES ->
  length es = length (playlist_commits k (frameIndex l)) ->
  Forall good es ->
  chain (frame_base (Z.to_nat (frameIndex l)))
    (copy_ranges (fst (run es (mkThread PcWhile g l))))
  = Some (frame_base (Z.to_nat (frameIndex l) + k)).
Proof.
  induction k as [|k IH];
    intros es g l Hs Hb Ht Hall Hstore Hok Hcur Hoff Hk Hlen Hgood.
  - destruct es; [|discriminate]. cbn [run fst copy_ranges chain].
    now rewrite Nat.add_0_r.
  - pose proof Hcur as (Hi & Hfs & _). pose proof Ht as (Hmax & _).
    assert (Hp : 0 < payload)
      by (destruct Hs as (? & ? & ?); unfold payload; lia).
    destruct (index_lookup _ Ht Hall Hi) as (len & Hlook & Hw).
    destruct (frame_base_end _ _ Hall Hlook) as (Hb0 & _ & Hbe).
    cbn [playlist_commits] in Hlen. rewrite Hlook, length_app in Hlen.
    pose proof (frame_commits_length len Hp (proj1 Hw)) as Hfc.
    set (n1 := length (frame_commits len)) in *.
    rewrite <- (take_drop n1 es) in Hgood |- *.
    apply Forall_app in Hgood as [Hg1 Hg2].
    assert (Hk1 : length (take n1 es) = n1) by (rewrite length_take; lia).
    rewrite run_app. cbn [fst]. rewrite copy_ranges_app, chain_app.
    rewrite <- Hfs.
    rewrite (run_one_frame_chain (take n1 es) g l len Hs Hb Hw Hok Hlook Hoff)
      by (assumption || lia).
    rewrite Hfs, <- (frame_base_succ _ _ Hlook).
    destruct k as [|k].
    + assert (Hnil : drop n1 es = []).
      { apply length_zero_iff_nil. rewrite length_drop.
        cbn [playlist_commits length] in Hlen. lia. }
      rewrite Hnil. cbn [run fst copy_ranges chain]. f_equal. f_equal. lia.
    + destruct (run_one_frame (take n1 es) g l len Hs Hb Hw Hok Hlook Hoff)
        as (tr1 & g1 & l1 & Hrun1 & _ & _ & _ & Hok1 & Ho1 & Hi1);
        [lia | exact Hg1 |].
      destruct (run_bounds (take n1 es) (mkThread PcWhile g l)
                  Hs Ht Hall Hstore Hcur) as (Hcur1 & _).
      rewrite Hrun1 in Hcur1 |- *. cbn [snd] in Hcur1 |- *.
      unfold thread_ok in Hcur1. cbn [pc locals] in Hcur1.
      assert (Hnext : frameIndex l1 = frameIndex l + 1).
      { rewrite Hi1. unfold next_index.
        rewrite !u32_small by lia.
        destruct (CY_FX_UVC_MAX_VID_FRAMES <=? frameIndex l + 1) eqn:Hc;
          [apply Z.leb_le in Hc; lia | reflexivity]. }
      replace (S (Z.to_nat (frameIndex l)))
        with (Z.to_nat (frameIndex l1)) by lia.
      replace (Z.to_nat (frameIndex l) + S (S k))%nat
        with (Z.to_nat (frameIndex l1) + S k)%nat by lia.
      apply IH; try assumption.
      * lia.
      * rewrite Hi1, length_drop. lia.
Qed.

End Coverage.

Lemma copies_cover_frames_in_order_witness :
  chain 0
    (copy_ranges
       (fst (run (h := scenario_h) (repeat (env_ok CY_U3P_HIGH_SPEED 0x404E2000) 16)
               (mkThread PcWhile (globals_with_epm 0 1) (mkLocals 0 0 0 0 0)))))
  = Some 15200.
Proof.
  exact (copies_cover_frames_in_order (h := scenario_h) 3
           (repeat (env_ok CY_U3P_HIGH_SPEED 0x404E2000) 16)
           (globals_with_epm 0 1) (mkLocals 0 0 0 0 0)
           (example_sizes _) (example_bits _) scenario_table scenario_frames
           scenario_store (example_header_ok _ 0 1) (scenario_cursor 0 0)
           eq_refl ltac:(cbn; lia) eq_refl ltac:(repeat constructor)).
Defined.

(** ** The stream controller *)

Lemma channel_after_app (tr1 tr2 : list Action) (open : bool) :
  channel_after (tr1 ++ tr2) open = channel_after tr2 (channel_after tr1 open).
Proof.
  revert open. induction tr1 as [|act tr1 IH]; intros open; [reflexivity|].
  destruct act; cbn [app channel_after]; apply IH.
Qed.

Lemma active_after_app (tr1 tr2 : list Action) (active : bool) :
  active_after (tr1 ++ tr2) active = active_after tr2 (active_after tr1 active).
Proof.
  revert active. induction tr1 as [|act tr1 IH]; intros active; [reflexivity|].
  destruct act; cbn [app active_after]; apply IH.
Qed.

Lemma creates_closed_only_app (tr1 tr2 : list Action) (open : bool) :
  creates_closed_only (tr1 ++ tr2) open
  = creates_closed_only tr1 open && creates_closed_only tr2 (channel_after tr1 open).
Proof.
  revert open. induction tr1 as [|act tr1 IH]; intros open; [reflexivity|].
  destruct act; cbn [app creates_closed_only channel_after]; rewrite ?IH;
    try reflexivity.
  now rewrite andb_assoc.
Qed.

Lemma destroys_ok_app (tr1 tr2 : list Action) (open active : bool) :
  destroys_ok (tr1 ++ tr2) open active
  = destroys_ok tr1 open active &&
    destroys_ok tr2 (channel_after tr1 open) (active_after tr1 active).
Proof.
  revert open active.
  induction tr1 as [|act tr1 IH]; intros open active; [reflexivity|].
  destruct act; cbn [app destroys_ok channel_after active_after]; rewrite ?IH;
    try reflexivity.
  now rewrite !andb_assoc.
Qed.

Section ControllerFacts.

Context {h : cyfxuvcinmem_h} {c : cyfxuvcinmem_ctl_h} {k : cyu3usbconst_h}.

Lemma start_flags (e : StartEnv) (a : App) :
  let r := CyFxUVCApplnStart e a in
  glIsApplnActive (snd (fst r))
  = glIsApplnActive a ||
    ((start_setep e =? CY_U3P_SUCCESS) && (start_create e =? CY_U3P_SUCCESS) &&
     (start_setxfer e =? CY_U3P_SUCCESS)) /\
  active_after (fst (fst r)) (glIsApplnActive a) = glIsApplnActive (snd (fst r)) /\
  glIsDevConfigured (snd (fst r)) = glIsDevConfigured a.
Proof.
  cbv zeta. unfold CyFxUVCApplnStart.
  destruct (start_speed e);
    destruct (start_setep e =? CY_U3P_SUCCESS);
    destruct (start_create e =? CY_U3P_SUCCESS);
    destruct (start_setxfer e =? CY_U3P_SUCCESS);
    cbn [negb fst snd app glIsApplnActive glIsDevConfigured active_after
         andb orb];
    rewrite ?orb_true_r, ?orb_false_r; now repeat split.
Qed.

(** [CyFxUVCApplnStart] returns the status of the first call that fails
    and makes no call after it; it sets [glIsApplnActive] exactly when it
    returns success and leaves it alone otherwise. It never undoes what it
    did: after a failure the endpoint stays configured as enabled, and
    when only the transfer setup fails the channel it created stays in
    place. Outside SuperSpeed the endpoint is configured for one packet
    per micro-frame. *)
Theorem start_outcome (e : StartEnv) (a : App) (open : bool) :
  let r := CyFxUVCApplnStart e a in
  let ok1 := start_setep e =? CY_U3P_SUCCESS in
  let ok2 := start_create e =? CY_U3P_SUCCESS in
  let ok3 := start_setxfer e =? CY_U3P_SUCCESS in
  snd r = (if ok1 then if ok2 then start_setxfer e else start_create e
           else start_setep e) /\
  (snd r =? CY_U3P_SUCCESS) = ok1 && ok2 && ok3 /\
  glIsApplnActive (snd (fst r)) = glIsApplnActive a || (ok1 && ok2 && ok3) /\
  active_after (fst (fst r)) (glIsApplnActive a) = glIsApplnActive (snd (fst r)) /\
  channel_after (fst (fst r)) open = open || (ok1 && ok2) /\
  existsb (fun act => match act with ActDmaChannelDestroy => true | _ => false end)
    (fst (fst r)) = false /\
  enable (uvcVideoEpCfg (snd (fst r))) = true /\
  isoPkts (uvcVideoEpCfg (snd (fst r)))
    = (match start_speed e with
       | CY_U3P_SUPER_SPEED => u8 CY_FX_EP_ISO_VIDEO_SS_MULT
       | _ => 1
       end) /\
  glIsDevConfigured (snd (fst r)) = glIsDevConfigured a.
Proof.
  cbv zeta. unfold CyFxUVCApplnStart.
  destruct (start_speed e);
    destruct (start_setep e =? CY_U3P_SUCCESS) eqn:H1;
    destruct (start_create e =? CY_U3P_SUCCESS) eqn:H2;
    destruct (start_setxfer e =? CY_U3P_SUCCESS) eqn:H3;
    cbn [negb fst snd app glIsApplnActive glIsDevConfigured uvcVideoEpCfg
         enable isoPkts active_after channel_after existsb andb orb];
    rewrite ?H1, ?H2, ?H3, ?orb_true_r, ?orb_false_r;
    repeat split; destruct (glIsApplnActive a); try reflexivity;
    symmetry; now apply Z.eqb_eq.
Qed.

(** What an event leaves behind, whatever the state before it. After
    SETINTF the stream is active exactly when the event names the
    streaming interface with a non-zero alternate setting and the three
    calls of the start succeed; after SETCONF, RESET and DISCONNECT it is
    inactive; other events change nothing. [glIsDevConfigured] is set by
    SETCONF with a non-zero value, kept by SETCONF with value zero, and
    cleared by RESET and DISCONNECT only. *)
Theorem event_outcome (evtype : CyU3PUsbEventType_t) (evdata : Z)
    (e : StartEnv) (a : App) :
  let r := CyFxUVCApplnUSBEventCB evtype evdata e a in
  glIsApplnActive (snd r) =
    match evtype with
    | CY_U3P_USB_EVENT_SETINTF =>
        (CY_U3P_GET_MSB (u16 evdata) =? CY_FX_UVC_INTERFACE_VS) &&
        negb (CY_U3P_GET_LSB (u16 evdata) =? 0) &&
        ((start_setep e =? CY_U3P_SUCCESS) &&
         (start_create e =? CY_U3P_SUCCESS) &&
         (start_setxfer e =? CY_U3P_SUCCESS))
    | CY_U3P_USB_EVENT_SETCONF
    | CY_U3P_USB_EVENT_RESET
    | CY_U3P_USB_EVENT_DISCONNECT => false
    | _ => glIsApplnActive a
    end /\
  glIsDevConfigured (snd r) =
    match evtype with
    | CY_U3P_USB_EVENT_SETCONF => glIsDevConfigured a || negb (u16 evdata =? 0)
    | CY_U3P_USB_EVENT_RESET
    | CY_U3P_USB_EVENT_DISCONNECT => false
    | _ => glIsDevConfigured a
    end /\
  active_after (fst r) (glIsApplnActive a) = glIsApplnActive (snd r).
Proof.
  cbv zeta. destruct a as [act conf cfg].
  destruct evtype; cbn [CyFxUVCApplnUSBEventCB]; try (now repeat split);
    unfold stop_if_active, CyFxUVCApplnStop;
    cbn [glIsApplnActive glIsDevConfigured uvcVideoEpCfg].
  - destruct act; cbn [fst snd glIsApplnActive glIsDevConfigured active_after];
      now repeat split.
  - destruct act; cbn [fst snd glIsApplnActive glIsDevConfigured active_after];
      now repeat split.
  - destruct act; destruct (negb (u16 evdata =? 0));
      cbn [fst snd glIsApplnActive glIsDevConfigured active_after];
      rewrite ?orb_true_r, ?orb_false_r; now repeat split.
  - destruct ((CY_U3P_GET_MSB (u16 evdata) =? CY_FX_UVC_INTERFACE_VS) &&
              negb (CY_U3P_GET_LSB (u16 evdata) =? 0)) eqn:Hsel.
    + destruct act; cbv beta iota;
        match goal with
        | |- context [CyFxUVCApplnStart e ?a1] =>
            destruct (start_flags e a1) as (Hact & Hflag & Hconf);
            cbv zeta in Hact, Hflag, Hconf;
            destruct (CyFxUVCApplnStart e a1) as [[tr2 a2] st]
        end;
        cbn [fst snd glIsApplnActive glIsDevConfigured] in *;
        rewrite ?active_after_app;
        cbn [app active_after glIsApplnActive];
        rewrite Hact, Hconf, ?Hflag, ?Hact; now repeat split.
    + destruct act;
        cbn [fst snd glIsApplnActive glIsDevConfigured active_after];
        now repeat split.
Qed.

End ControllerFacts.

Section ChannelLifetime.

Context {h : cyfxuvcinmem_h} {c : cyfxuvcinmem_ctl_h} {k : cyu3usbconst_h}.

Ltac event_cases evtype evdata e act :=
  destruct evtype; cbn [CyFxUVCApplnUSBEventCB];
  unfold stop_if_active, CyFxUVCApplnStop, CyFxUVCApplnStart;
  cbn [glIsApplnActive glIsDevConfigured uvcVideoEpCfg];
  destruct act;
  try destruct (negb (u16 evdata =? 0));
  try destruct ((CY_U3P_GET_MSB (u16 evdata) =? CY_FX_UVC_INTERFACE_VS) &&
                negb (CY_U3P_GET_LSB (u16 evdata) =? 0));
  cbv beta iota;
  try (destruct (start_speed e); cbv beta iota;
       destruct (start_setep e =? CY_U3P_SUCCESS) eqn:?H1;
       destruct (start_create e =? CY_U3P_SUCCESS) eqn:?H2;
       destruct (start_setxfer e =? CY_U3P_SUCCESS) eqn:?H3);
  cbn [negb fst snd app glIsApplnActive glIsDevConfigured uvcVideoEpCfg
       active_after channel_after destroys_ok creates_closed_only andb orb].

Lemma event_active_after (evtype : CyU3PUsbEventType_t) (evdata : Z)
    (e : StartEnv) (a : App) :
  active_after (fst (CyFxUVCApplnUSBEventCB evtype evdata e a))
    (glIsApplnActive a)
  = glIsApplnActive (snd (CyFxUVCApplnUSBEventCB evtype evdata e a)).
Proof.
  destruct a as [act conf cfg]. cbn [glIsApplnActive].
  event_cases evtype evdata e act; reflexivity.
Qed.

Lemma event_channel (evtype : CyU3PUsbEventType_t) (evdata : Z) (e : StartEnv)
    (a : App) (open : bool) :
  (glIsApplnActive a = true -> open = true) ->
  destroys_ok (fst (CyFxUVCApplnUSBEventCB evtype evdata e a)) open
    (glIsApplnActive a) = true /\
  (glIsApplnActive (snd (CyFxUVCApplnUSBEventCB evtype evdata e a)) = true ->
   channel_after (fst (CyFxUVCApplnUSBEventCB evtype evdata e a)) open = true).
Proof.
  intros Hinv. destruct a as [act conf cfg]. cbn [glIsApplnActive] in *.
  event_cases evtype evdata e act;
    rewrite ?Hinv by reflexivity;
    repeat match goal with
           | H : (_ =? _) = _ |- _ => rewrite ?H; clear H
           end;
    cbn [andb negb]; split; try reflexivity; try discriminate;
    try (intros _; reflexivity); try (intros ->; reflexivity); auto.
Qed.

Lemma event_channel_exact (evtype : CyU3PUsbEventType_t) (evdata : Z)
    (e : StartEnv) (a : App) :
  setxfer_follows_create e ->
  creates_closed_only (fst (CyFxUVCApplnUSBEventCB evtype evdata e a))
    (glIsApplnActive a) = true /\
  channel_after (fst (CyFxUVCApplnUSBEventCB evtype evdata e a))
    (glIsApplnActive a)
  = glIsApplnActive (snd (CyFxUVCApplnUSBEventCB evtype evdata e a)).
Proof.
  intros Hx. unfold setxfer_follows_create in Hx.
  destruct a as [act conf cfg]. cbn [glIsApplnActive] in *.
  event_cases evtype evdata e act;
    try (apply Z.eqb_eq in H2; apply Hx in H2; rewrite H2 in H3; discriminate);
    repeat match goal with
           | H : (_ =? _) = _ |- _ => rewrite ?H; clear H
           end;
    cbn [andb negb]; split; reflexivity.
Qed.

(** Over any series of USB events, starting with a channel whenever the
    stream is active: the DMA channel is destroyed only while it exists
    and only after [glIsApplnActive] was cleared, and an active stream
    always has its channel. *)
Theorem channel_destroyed_only_after_stop
    (evs : list (CyU3PUsbEventType_t * Z * StartEnv)) :
  forall (a : App) (open : bool),
  (glIsApplnActive a = true -> open = true) ->
  destroys_ok (fst (run_events evs a)) open (glIsApplnActive a) = true /\
  active_after (fst (run_events evs a)) (glIsApplnActive a)
    = glIsApplnActive (snd (run_events evs a)) /\
  (glIsApplnActive (snd (run_events evs a)) = true ->
   channel_after (fst (run_events evs a)) open = true).
Proof.
  induction evs as [|[[evtype evdata] e] evs IH]; intros a open Hinv.
  - cbn [run_events fst snd destroys_ok active_after channel_after].
    now repeat split.
  - cbn [run_events].
    destruct (event_channel evtype evdata e a open Hinv) as (Hd & Hc).
    pose proof (event_active_after evtype evdata e a) as Hf.
    destruct (CyFxUVCApplnUSBEventCB evtype evdata e a) as [tr1 a1].
    cbn [fst snd] in *.
    destruct (IH a1 (channel_after tr1 open) Hc) as (Hd' & Hf' & Hc').
    destruct (run_events evs a1) as [tr2 a2]. cbn [fst snd] in *.
    rewrite destroys_ok_app, active_after_app, channel_after_app, Hd, Hf, Hd', Hf'.
    now repeat split.
Qed.

(** When no start of the series has its transfer setup fail after its
    channel was created, the channel exists exactly while the stream is
    active, and no channel is created while one exists. *)
Theorem channel_follows_flag
    (evs : list (CyU3PUsbEventType_t * Z * StartEnv)) :
  forall a : App,
  Forall (fun ev => setxfer_follows_create (snd ev)) evs ->
  creates_closed_only (fst (run_events evs a)) (glIsApplnActive a) = true /\
  channel_after (fst (run_events evs a)) (glIsApplnActive a)
    = glIsApplnActive (snd (run_events evs a)).
Proof.
  induction evs as [|[[evtype evdata] e] evs IH]; intros a Hall.
  - now split.
  - inversion Hall as [|? ? Hx Hall']; subst. cbn [snd] in Hx.
    cbn [run_events].
    destruct (event_channel_exact evtype evdata e a Hx) as (Hc & Ho).
    destruct (CyFxUVCApplnUSBEventCB evtype evdata e a) as [tr1 a1].
    cbn [fst snd] in *.
    destruct (IH a1 Hall') as (Hc' & Ho').
    destruct (run_events evs a1) as [tr2 a2]. cbn [fst snd] in *.
    rewrite creates_closed_only_app, channel_after_app, Hc, Ho, Hc', Ho'.
    now split.
Qed.

(** A start whose transfer setup fails leaves the channel it created in
    place with [glIsApplnActive] unset, so the next SETINTF event that
    selects the stream does not stop first: it creates a channel while
    the earlier one still exists. *)
Theorem failed_setxfer_leaves_channel (d1 d2 : Z) (e1 e2 : StartEnv) (a : App) :
  glIsApplnActive a = false ->
  (CY_U3P_GET_MSB (u16 d1) =? CY_FX_UVC_INTERFACE_VS) &&
    negb (CY_U3P_GET_LSB (u16 d1) =? 0) = true ->
  (CY_U3P_GET_MSB (u16 d2) =? CY_FX_UVC_INTERFACE_VS) &&
    negb (CY_U3P_GET_LSB (u16 d2) =? 0) = true ->
  start_setep e1 = CY_U3P_SUCCESS -> start_create e1 = CY_U3P_SUCCESS ->
  start_setxfer e1 <> CY_U3P_SUCCESS ->
  start_setep e2 = CY_U3P_SUCCESS ->
  let first := CyFxUVCApplnUSBEventCB CY_U3P_USB_EVENT_SETINTF d1 e1 a in
  glIsApplnActive (snd first) = false /\
  channel_after (fst first) false = true /\
  creates_closed_only
    (fst (run_events [(CY_U3P_USB_EVENT_SETINTF, d1, e1);
                      (CY_U3P_USB_EVENT_SETINTF, d2, e2)] a)) false = false.
Proof.
  intros Ha Hd1 Hd2 Hs1 Hc1 Hx1 Hs2. cbv zeta.
  destruct a as [act conf cfg]. cbn [glIsApplnActive] in Ha. subst act.
  apply Z.eqb_neq in Hx1. rewrite <- Z.eqb_eq in Hs1, Hc1, Hs2.
  cbn [run_events CyFxUVCApplnUSBEventCB].
  unfold stop_if_active, CyFxUVCApplnStart.
  cbn [glIsApplnActive glIsDevConfigured uvcVideoEpCfg].
  rewrite Hd1, Hs1, Hc1, Hx1. cbv beta iota.
  destruct (start_speed e1); cbv beta iota;
    cbn [negb fst snd app glIsApplnActive];
    rewrite Hd2, Hs2; cbv beta iota;
    destruct (start_speed e2); cbv beta iota;
    destruct (start_create e2 =? CY_U3P_SUCCESS) eqn:Hc2;
    destruct (start_setxfer e2 =? CY_U3P_SUCCESS) eqn:Hx2;
    cbn [negb]; cbv beta iota;
    cbn [fst snd app glIsApplnActive channel_after creates_closed_only];
    rewrite ?Hc1, ?Hc2; cbn [andb negb]; now repeat split.
Qed.

End ChannelLifetime.

(** ** The setup callback *)

Section SetupRequests.

Context {h : cyfxuvcinmem_h} {c : cyfxuvcinmem_ctl_h} {k : cyu3usbconst_h}.

Ltac split_tests :=
  repeat match goal with
         | H : _ && _ = true |- _ => apply andb_prop in H; destruct H
         end;
  repeat match goal with
         | H : (_ =? _) = true |- _ => apply Z.eqb_eq in H
         end.

(** A request the callback reports as handled is answered on endpoint 0
    exactly once (an acknowledge, a stall, or one data stage), and a
    request it reports as not handled is not answered at all, so that the
    USB driver's own stall is the only answer. The results of the data
    stages change neither the report nor the answer. *)
Theorem setup_answers_once (setupdat0 setupdat1 : Z) (e e' : SetupEnv) (a : App) :
  CY_U3P_USB_STANDARD_RQT <> CY_U3P_USB_CLASS_RQT ->
  CY_FX_UVC_INTERFACE_VC <> CY_FX_UVC_INTERFACE_VS ->
  length (filter is_ep0_response
            (fst (CyFxUVCApplnUSBSetupCB setupdat0 setupdat1 e a)))
  = (if snd (CyFxUVCApplnUSBSetupCB setupdat0 setupdat1 e a) then 1 else 0)%nat /\
  snd (CyFxUVCApplnUSBSetupCB setupdat0 setupdat1 e a)
  = snd (CyFxUVCApplnUSBSetupCB setupdat0 setupdat1 e' a) /\
  filter is_ep0_response (fst (CyFxUVCApplnUSBSetupCB setupdat0 setupdat1 e a))
  = filter is_ep0_response (fst (CyFxUVCApplnUSBSetupCB setupdat0 setupdat1 e' a)).
Proof.
  intros Hrq Hif. unfold CyFxUVCApplnUSBSetupCB. cbv zeta.
  repeat (match goal with
          | |- context [if ?b then _ else _] => destruct b eqn:?
          end; cbv beta iota);
    cbn [fst snd app filter is_ep0_response length];
    cbn [fst snd] in *;
    try (repeat split; reflexivity);
    try discriminate;
    split_tests; congruence.
Qed.

(** The SET_FEATURE and CLEAR_FEATURE requests to an interface (function
    suspend) are acknowledged while the device is configured and stalled
    while it is not; no other standard request is handled. *)
Theorem setup_standard_requests (setupdat0 setupdat1 : Z) (e : SetupEnv) (a : App) :
  CY_U3P_USB_STANDARD_RQT <> CY_U3P_USB_CLASS_RQT ->
  u8 (Z.land (u8 (Z.land setupdat0 CY_U3P_USB_REQUEST_TYPE_MASK))
        CY_U3P_USB_TYPE_MASK) = CY_U3P_USB_STANDARD_RQT ->
  let bReqType := u8 (Z.land setupdat0 CY_U3P_USB_REQUEST_TYPE_MASK) in
  let bRequest :=
    u8 (Z.shiftr (Z.land setupdat0 CY_U3P_USB_REQUEST_MASK)
          CY_U3P_USB_REQUEST_POS) in
  let wValue :=
    u16 (Z.shiftr (Z.land setupdat0 CY_U3P_USB_VALUE_MASK) CY_U3P_USB_VALUE_POS) in
  let feature :=
    (u8 (Z.land bReqType CY_U3P_USB_TARGET_MASK) =? CY_U3P_USB_TARGET_INTF) &&
    ((bRequest =? CY_U3P_USB_SC_SET_FEATURE) ||
     (bRequest =? CY_U3P_USB_SC_CLEAR_FEATURE)) &&
    (wValue =? 0) in
  CyFxUVCApplnUSBSetupCB setupdat0 setupdat1 e a =
  if feature then
    ([if glIsDevConfigured a then ActUsbAckSetup else ActUsbStall 0 true false],
     true)
  else ([], false).
Proof.
  intros Hrq Hstd. cbv zeta. unfold CyFxUVCApplnUSBSetupCB. cbv zeta.
  rewrite Hstd, Z.eqb_refl.
  assert (Hcls : (CY_U3P_USB_STANDARD_RQT =? CY_U3P_USB_CLASS_RQT) = false)
    by now apply Z.eqb_neq.
  rewrite Hcls. cbn [andb].
  match goal with
  | |- context [if ?b then _ else _] => destruct b
  end; cbv beta iota; [|reflexivity].
  now destruct (glIsDevConfigured a).
Qed.

End SetupRequests.

(** ** The header template over whole runs *)

Section HeaderTemplate.

Context {h : cyfxuvcinmem_h} {i : cyfxuvcinmem_init_h}.

Lemma addheader_shape (hdr0 : list Z) (g : Globals) (buffer : list Z)
    (frameInd : Z) :
  (2 <= length hdr0)%nat ->
  header_shape hdr0 (glUVCHeader g) ->
  header_shape hdr0 (glUVCHeader (fst (CyFxUVCAddHeader g buffer frameInd))).
Proof.
  intros Hl (b & Hhdr & Hb). unfold CyFxUVCAddHeader.
  destruct (frameInd =? CY_FX_UVC_HEADER_EOF); cbn [fst glUVCHeader].
  - rewrite Hhdr, list_lookup_total_insert_eq, list_insert_insert_eq by lia.
    eexists. split; [reflexivity|].
    rewrite u8_lxor.
    destruct Hb as [-> | ->].
    + right. now rewrite u8_idem.
    + left. rewrite u8_lxor, !u8_idem, Z.lxor_assoc, Z.lxor_nilpotent.
      apply Z.lxor_0_r.
  - exists b. now split.
Qed.

Lemma loop_body_shape (hdr0 : list Z) (e : Env) (g : Globals) (l : Locals) :
  (2 <= length hdr0)%nat ->
  header_shape hdr0 (glUVCHeader g) ->
  match loop_body e g l with
  | Continue _ g' _ | Break _ g' _ => header_shape hdr0 (glUVCHeader g')
  | Fault => True
  end.
Proof.
  intros Hl Hs.
  destruct (env_get_status e =? CY_U3P_SUCCESS) eqn:Hget.
  - apply Z.eqb_eq in Hget.
    destruct (glVidFrameLen !! Z.to_nat (frameIndex l)) as [len|] eqn:Hlook.
    + destruct (u32 (frameOffset l + payload) <? len) eqn:Hmid.
      * rewrite (loop_body_mid_eq e g l len Hget Hlook Hmid). cbv zeta.
        match goal with
        | |- context [if ?b then Break _ _ _ else _] => destruct b
        end; rewrite commit_chunk_header; now apply addheader_shape.
      * rewrite (loop_body_last_eq e g l len Hget Hlook Hmid). cbv zeta.
        match goal with
        | |- context [if ?b then Break _ _ _ else _] => destruct b
        end; rewrite commit_chunk_header; now apply addheader_shape.
    + unfold loop_body. cbv zeta. rewrite Hget, Z.eqb_refl, Hlook. exact I.
  - unfold loop_body. cbv zeta. rewrite Hget. cbn [negb]. exact Hs.
Qed.

Lemma step_header_shape (hdr0 : list Z) (e : Env) (t : Thread) :
  (2 <= length hdr0)%nat ->
  (pc t = PcForTop /\ glUVCHeader (globals t) = hdr0) \/
  header_shape hdr0 (glUVCHeader (globals t)) ->
  header_shape hdr0 (glUVCHeader (globals (snd (thread_step e t)))) \/
  (snd (thread_step e t) = t /\ pc t <> PcForTop).
Proof.
  intros Hl Hinv. destruct t as [p g l]. unfold thread_step.
  cbn [pc globals locals] in *.
  destruct p.
  - left. cbn [snd globals glUVCHeader].
    destruct Hinv as [[_ ->] | (b & -> & _)].
    + eexists. split; [reflexivity | now left].
    + rewrite list_insert_insert_eq. eexists. split; [reflexivity | now left].
  - destruct Hinv as [[? _] | Hs]; [discriminate|]. left.
    destruct (env_active e); [|exact Hs].
    pose proof (loop_body_shape hdr0 e g l Hl Hs) as Hb.
    destruct (loop_body e g l); cbn [snd globals]; assumption.
  - destruct Hinv as [[? _] | Hs]; [discriminate|]. left.
    destruct (negb (status l =? CY_U3P_SUCCESS) && env_active e); exact Hs.
  - destruct Hinv as [[? _] | Hs]; [discriminate|]. now left.
  - destruct Hinv as [[? _] | Hs]; [discriminate|]. now left.
Qed.

(** From the thread's entry on, whatever the surroundings answer, the
    header template keeps its length and every byte but the bit-field
    byte, and once the initialisation has come back and the loop was
    entered that byte is the default one with the frame id bit as it is
    or toggled: the end-of-frame mark and the payload never reach the
    template. A thread whose initialisation failed never touches the
    template. *)
Theorem header_template_shape (ie : InitEnv) (e : Env) (es : list Env)
    (g : Globals) :
  (2 <= length (glUVCHeader g))%nat ->
  let hdr :=
    glUVCHeader (globals (snd (snd (UVCAppThread_Entry ie (e :: es) g)))) in
  (if init_returns ie then header_shape (glUVCHeader g) hdr
   else hdr = glUVCHeader g) /\
  length hdr = length (glUVCHeader g).
Proof.
  intros Hl. cbv zeta. unfold UVCAppThread_Entry, init_returns. cbv zeta.
  cbn [snd].
  destruct (snd (CyFxUVCApplnDebugInit ie ;> CyFxUVCApplnInit ie));
    [|rewrite halted_forever; now split].
  assert (Hgen : forall es' t,
    header_shape (glUVCHeader g) (glUVCHeader (globals t)) ->
    header_shape (glUVCHeader g) (glUVCHeader (globals (snd (run es' t))))).
  { induction es' as [|e' es' IH]; intros t Hs; [exact Hs|].
    rewrite run_cons. cbn [snd]. apply IH.
    destruct (step_header_shape (glUVCHeader g) e' t Hl (or_intror Hs))
      as [Hs' | [-> _]]; assumption. }
  assert (Hshape : header_shape (glUVCHeader g)
            (glUVCHeader (globals (snd (run (e :: es)
               (mkThread PcForTop g (mkLocals 0 0 0 0 CY_U3P_SUCCESS))))))).
  { rewrite run_cons. cbn [snd]. apply Hgen.
    cbn [thread_step pc globals locals snd glUVCHeader].
    eexists. split; [reflexivity | now left]. }
  split; [exact Hshape|].
  destruct Hshape as (b & -> & _). apply length_insert.
Qed.

End HeaderTemplate.

(** ** Instances on the example constants *)

Lemma channel_destroyed_only_after_stop_witness :
  let a := mkApp true true (mkEpConfig true CY_U3P_USB_EP_ISO 0 0x400 1 1) in
  let evs := [(CY_U3P_USB_EVENT_SETINTF, 0x0101, start_ok CY_U3P_HIGH_SPEED);
              (CY_U3P_USB_EVENT_RESET, 0, start_ok CY_U3P_HIGH_SPEED)] in
  destroys_ok
    (fst (run_events (h := scenario_h) (c := example_ctl_h) evs a)) true true
  = true.
Proof.
  exact (proj1 (channel_destroyed_only_after_stop
                  (h := scenario_h) (c := example_ctl_h)
                  [(CY_U3P_USB_EVENT_SETINTF, 0x0101, start_ok CY_U3P_HIGH_SPEED);
                   (CY_U3P_USB_EVENT_RESET, 0, start_ok CY_U3P_HIGH_SPEED)]
                  (mkApp true true (mkEpConfig true CY_U3P_USB_EP_ISO 0 0x400 1 1))
                  true (fun _ => eq_refl))).
Defined.

Lemma channel_follows_flag_witness :
  let evs := [(CY_U3P_USB_EVENT_SETCONF, 1, start_ok CY_U3P_HIGH_SPEED);
              (CY_U3P_USB_EVENT_SETINTF, 0x0101, start_ok CY_U3P_HIGH_SPEED);
              (CY_U3P_USB_EVENT_SETINTF, 0x0101,
               mkStartEnv CY_U3P_SUPER_SPEED 0 0x40 0);
              (CY_U3P_USB_EVENT_DISCONNECT, 0, start_ok CY_U3P_HIGH_SPEED)] in
  channel_after
    (fst (run_events (h := scenario_h) (c := example_ctl_h) evs app_init)) false
  = glIsApplnActive
      (snd (run_events (h := scenario_h) (c := example_ctl_h) evs app_init)).
Proof.
  exact (proj2 (channel_follows_flag
                  (h := scenario_h) (c := example_ctl_h)
                  [(CY_U3P_USB_EVENT_SETCONF, 1, start_ok CY_U3P_HIGH_SPEED);
                   (CY_U3P_USB_EVENT_SETINTF, 0x0101, start_ok CY_U3P_HIGH_SPEED);
                   (CY_U3P_USB_EVENT_SETINTF, 0x0101,
                    mkStartEnv CY_U3P_SUPER_SPEED 0 0x40 0);
                   (CY_U3P_USB_EVENT_DISCONNECT, 0, start_ok CY_U3P_HIGH_SPEED)]
                  app_init
                  ltac:(repeat constructor; intros H; try discriminate H;
                        reflexivity))).
Defined.

Lemma failed_setxfer_leaves_channel_witness :
  creates_closed_only
    (fst (run_events (h := scenario_h) (c := example_ctl_h)
            [(CY_U3P_USB_EVENT_SETINTF, 0x0101,
              mkStartEnv CY_U3P_HIGH_SPEED 0 0 0x40);
             (CY_U3P_USB_EVENT_SETINTF, 0x0101, start_ok CY_U3P_HIGH_SPEED)]
            app_init)) false
  = false.
Proof.
  exact (proj2 (proj2 (failed_setxfer_leaves_channel
                         (h := scenario_h) (c := example_ctl_h)
                         0x0101 0x0101
                         (mkStartEnv CY_U3P_HIGH_SPEED 0 0 0x40)
                         (start_ok CY_U3P_HIGH_SPEED) app_init
                         eq_refl eq_refl eq_refl eq_refl eq_refl
                         ltac:(discriminate) eq_refl))).
Defined.

(** A GET_CUR of the probe control, addressed to the streaming interface. *)
Lemma setup_answers_once_witness :
  length (filter is_ep0_response
            (fst (CyFxUVCApplnUSBSetupCB (c := example_ctl_h)
                    (k := example_usbconst_h)
                    0x010081A1 0x001A0001 (mkSetupEnv 0 0 0) app_init)))
  = 1%nat.
Proof.
  exact (proj1 (setup_answers_once (c := example_ctl_h) (k := example_usbconst_h)
                  0x010081A1 0x001A0001 (mkSetupEnv 0 0 0) (mkSetupEnv 0x40 0 0)
                  app_init ltac:(discriminate) ltac:(discriminate))).
Defined.

(** SET_FEATURE (function suspend) to interface 0, before the device is
    configured. *)
Lemma setup_standard_requests_witness :
  CyFxUVCApplnUSBSetupCB (c := example_ctl_h) (k := example_usbconst_h)
    0x00000301 0x00000000 (mkSetupEnv 0 0 0) app_init
  = ([ActUsbStall 0 true false], true).
Proof.
  exact (setup_standard_requests (c := example_ctl_h) (k := example_usbconst_h)
           0x00000301 0x00000000 (mkSetupEnv 0 0 0) app_init
           ltac:(discriminate) eq_refl).
Defined.

Lemma header_template_shape_witness :
  length (glUVCHeader (globals (snd (snd (UVCAppThread_Entry (h := scenario_h)
            (i := example_init_h) init_ok
            (env_ok CY_U3P_HIGH_SPEED 0x404E2000 ::
             repeat (env_ok CY_U3P_HIGH_SPEED 0x404E2000) 7)
            (globals_with_epm 0 1))))))
  = 12%nat.
Proof.
  exact (proj2 (header_template_shape (h := scenario_h) (i := example_init_h)
                  init_ok (env_ok CY_U3P_HIGH_SPEED 0x404E2000)
                  (repeat (env_ok CY_U3P_HIGH_SPEED 0x404E2000) 7)
                  (globals_with_epm 0 1) ltac:(cbn; lia))).
Defined.

(** ** The initialisation *)

Section Initialisation.

Context {h : cyfxuvcinmem_h} {i : cyfxuvcinmem_init_h}.


End Initialisation.
